(** * climate-development: the climate grid transformation pipeline

    A shallow embedding of [data/climate_data.py]: the grid normalizer
    ([load_and_clean]), the climatology engine
    ([monthly_anomaly_from_monthly]), the two aggregators
    ([compute_global_monthly_stats], [compute_spatial_anomalies_recent]) and
    the file-writing stages ([save_parquet_pandas],
    [download_monthly_variable], [extract_netcdf_from_zip]).

    Conventions of the embedding.
    - Numbers are exact rationals ([Q]); a missing value (NaN) is [None].
      Casting to single precision changes the dtype tag only: rounding is
      not part of this model, except for the normalization of a longitude
      (line 146), which is also given in double precision.
    - A data variable is a deferred array: a function from the positions
      (time, latitude, longitude) to a value.  The extent of each axis is
      the length of its coordinate.
    - Python exceptions are values of [exn], carried by [result].
    - Strings are byte strings: the UTF-8 encoding of the program's
      strings. *)

From Stdlib Require Import QArith Qround Ascii Lqa.
From stdpp Require Import gmap strings list pretty sorting.

Local Open Scope Z_scope.

(** ** Exceptions and results *)

Inductive exn :=
  | ValueError
  | KeyError
  | IndexError
  | TypeError
  | AttributeError
  | FileNotFoundError
  | HTTPError.

Inductive result (A : Type) :=
  | Ok (a : A)
  | Raise (e : exn).
Arguments Ok {A} a.
Arguments Raise {A} e.

#[global] Instance result_ret : MRet result := λ A a, Ok a.
#[global] Instance result_bind : MBind result := λ A B f m,
  match m with
  | Ok a => f a
  | Raise e => Raise e
  end.

#[global] Instance result_fmap : FMap result := λ A B f m,
  match m with
  | Ok a => Ok (f a)
  | Raise e => Raise e
  end.

Definition from_option {A} (e : exn) (o : option A) : result A :=
  match o with
  | Some a => Ok a
  | None => Raise e
  end.

(** ** Values: floating point numbers in exact arithmetic, [None] is NaN *)

Definition value := option Q.

#[global] Instance Q_inhabited : Inhabited Q := populate 0%Q.

Definition NaN : value := None.

Definition vsub (a b : value) : value :=
  match a, b with
  | Some x, Some y => Some (x - y)%Q
  | _, _ => None
  end.

(** The values that are not NaN, in order. *)
Definition observed (l : list value) : list Q := omap id l.

Definition Qsum (l : list Q) : Q := foldr Qplus 0%Q l.

(** numpy's nanmean: the mean of the values that are not NaN, and NaN when
    there is none.  It is what xarray's [mean] computes on floating point
    data (skipna). *)
Definition nanmean (l : list value) : value :=
  match observed l with
  | [] => None
  | xs => Some (Qsum xs / inject_Z (Z.of_nat (length xs)))%Q
  end.

(** Python's [%] on floats with a positive divisor: the remainder of the
    floored division. *)
Definition Qmod (x m : Q) : Q := (x - m * inject_Z (Qfloor (x / m)))%Q.

(** Order on values as numpy and pandas sort them: NaN last. *)
Definition value_leb (a b : value) : bool :=
  match a, b with
  | Some x, Some y => Qle_bool x y
  | _, None => true
  | None, Some _ => false
  end.

(** ** Stable sorting (numpy's lexsort / pandas' sort_values are stable) *)

Fixpoint insert_sorted {A} (leb : A → A → bool) (x : A) (l : list A) : list A :=
  match l with
  | [] => [x]
  | y :: l' => if leb x y then x :: y :: l' else y :: insert_sorted leb x l'
  end.

Definition stable_sort {A} (leb : A → A → bool) (l : list A) : list A :=
  foldr (insert_sorted leb) [] l.

(** Positions paired with elements. *)
Definition enumerate {A} (l : list A) : list (nat * A) :=
  zip (seq 0 (length l)) l.

(** numpy's argsort (stable): the positions of [xs] in ascending order of
    their values. *)
Definition argsort (xs : list Q) : list nat :=
  (stable_sort (λ p q : nat * Q, Qle_bool p.2 q.2) (enumerate xs)).*1.

(** Sorted list of the distinct elements (pandas' factorize with sort). *)
Fixpoint insert_unique (x : Z) (l : list Z) : list Z :=
  match l with
  | [] => [x]
  | y :: l' =>
      if decide (x < y) then x :: y :: l'
      else if decide (x = y) then y :: l'
      else y :: insert_unique x l'
  end.

Definition unique_sorted (l : list Z) : list Z := foldr insert_unique [] l.

(** Position of the first occurrence. *)
Fixpoint index_of (x : Z) (l : list Z) : option nat :=
  match l with
  | [] => None
  | y :: l' => if decide (x = y) then Some 0%nat else S <$> index_of x l'
  end.

(** ** Timestamps *)

Record Timestamp := {
  ts_year : Z;
  ts_month : Z;
  ts_day : Z;
  ts_nanos : Z  (* nanoseconds since midnight *)
}.

#[global] Instance Timestamp_inhabited : Inhabited Timestamp :=
  populate {| ts_year := 1970; ts_month := 1; ts_day := 1; ts_nanos := 0 |}.

#[global] Instance Timestamp_eq_dec : EqDecision Timestamp.
Proof. solve_decision. Defined.

(** Calendar dates (year, month, day) in chronological order. *)
Definition date_le (a b : Z * Z * Z) : Prop :=
  let '(y1, m1, d1) := a in
  let '(y2, m2, d2) := b in
  y1 < y2 ∨ (y1 = y2 ∧ (m1 < m2 ∨ (m1 = m2 ∧ d1 ≤ d2))).

#[global] Instance date_le_dec a b : Decision (date_le a b).
Proof. destruct a as [[??]?], b as [[??]?]; simpl; apply _. Defined.

Definition ts_date (t : Timestamp) : Z * Z * Z :=
  (ts_year t, ts_month t, ts_day t).

(** [t] lies in [slice(f"{y0}-01-01", f"{y1}-12-31")].  Label slices of a
    datetime index include both ends, and a bound given as a date covers
    that whole day. *)
Definition in_year_slice (y0 y1 : Z) (t : Timestamp) : Prop :=
  date_le (y0, 1, 1) (ts_date t) ∧ date_le (ts_date t) (y1, 12, 31).

#[global] Instance in_year_slice_dec y0 y1 t : Decision (in_year_slice y0 y1 t).
Proof. unfold in_year_slice; apply _. Defined.

(** Timestamps that pandas can represent: a calendar date between the
    years 1677 and 2262. *)
Definition valid_timestamp (t : Timestamp) : Prop :=
  1677 ≤ ts_year t ≤ 2262 ∧ 1 ≤ ts_month t ≤ 12 ∧ 1 ≤ ts_day t ≤ 31.

(** Chronological order on timestamps. *)
Definition ts_leb (a b : Timestamp) : bool :=
  bool_decide (ts_year a < ts_year b ∨ (ts_year a = ts_year b ∧
    (ts_month a < ts_month b ∨ (ts_month a = ts_month b ∧
      (ts_day a < ts_day b ∨ (ts_day a = ts_day b ∧ ts_nanos a ≤ ts_nanos b)))))).

(** Fixed-width integers: [astype] wraps around. *)
Definition wrap_signed (bits : Z) (z : Z) : Z :=
  (z + 2 ^ (bits - 1)) mod 2 ^ bits - 2 ^ (bits - 1).

Definition astype_int16 (z : Z) : Z := wrap_signed 16 z.
Definition astype_int8 (z : Z) : Z := wrap_signed 8 z.

(** ** Ordered dictionaries with string keys *)

Fixpoint assoc {A} (k : string) (l : list (string * A)) : option A :=
  match l with
  | [] => None
  | (k', a) :: l' => if decide (k = k') then Some a else assoc k l'
  end.

Definition keys {A} (l : list (string * A)) : list string := l.*1.

(** [d[k] = f(d[k])] for an existing key: the entry keeps its place. *)
Definition update_key {A} (k : string) (f : A → A) (l : list (string * A))
  : list (string * A) :=
  (λ p : string * A, if decide (p.1 = k) then (p.1, f p.2) else p) <$> l.

Definition rename_key {A} (old new : string) (l : list (string * A))
  : list (string * A) :=
  (λ p : string * A, if decide (p.1 = old) then (new, p.2) else p) <$> l.

(** ** xarray: coordinates, variables, datasets *)

Inductive DType := float32 | float64 | int8 | int16 | int32 | int64 | datetime64.

Inductive Coord :=
  | TimeIndex (ts : list Timestamp)
  | FloatIndex (xs : list Q).

(** A data variable over the dimensions (time axis, latitude, longitude). *)
Record DataVar := {
  dv_values : nat → nat → nat → value;
  dv_dtype : DType;
  dv_attrs : gmap string string
}.

(** A dataset: its coordinates by name, the name of the leading (time)
    dimension of its data variables, and the data variables in order.  The
    two other dimensions are "latitude" and "longitude".  A coordinate that
    does not label one of these three dimensions only counts by its name. *)
Record Dataset := {
  coords : list (string * Coord);
  tdim : string;
  data_vars : list (string * DataVar)
}.

(** [Dataset.rename({old: new})]: fails when [old] is not a variable or
    when [new] is the name of another variable. *)
Definition rename (old new : string) (ds : Dataset) : result Dataset :=
  let names := keys (coords ds) ++ keys (data_vars ds) in
  if decide (old ∉ names) then Raise ValueError
  else if decide (new ∈ names) then Raise ValueError
  else Ok {| coords := rename_key old new (coords ds);
             tdim := if decide (tdim ds = old) then new else tdim ds;
             data_vars := rename_key old new (data_vars ds) |}.

(** Reindex a variable along its longitude axis. *)
Definition isel_longitude (perm : list nat) (v : DataVar) : DataVar :=
  {| dv_values := λ i j k, dv_values v i j (perm !!! k);
     dv_dtype := dv_dtype v;
     dv_attrs := dv_attrs v |}.

(** Reindex a variable along its leading axis. *)
Definition isel_time (pos : list nat) (v : DataVar) : DataVar :=
  {| dv_values := λ i j k, dv_values v (pos !!! i) j k;
     dv_dtype := dv_dtype v;
     dv_attrs := dv_attrs v |}.

(** *** [load_and_clean], step by step *)

(** Lines 137-141: the time coordinate gets the name "time". *)
Definition standardize_time (ds : Dataset) : result Dataset :=
  if decide ("valid_time" ∈ keys (coords ds)) then
    rename "valid_time" "time" ds
  else if decide ("date" ∈ keys (coords ds) ∧ "time" ∉ keys (coords ds)) then
    rename "date" "time" ds
  else Ok ds.

(** [((lon + 180) % 360) - 180], in exact arithmetic. *)
Definition wrap_longitude (lon : Q) : Q := (Qmod (lon + 180) 360 - 180)%Q.

(** The same line in double precision, as numpy computes it on a coordinate
    of doubles.  Rounding is to the nearest double, ties to the even
    significand; the bounds of the exponent play no part for longitudes and
    are left out. *)

(** The nearest integer, ties to the even one. *)
Definition round_half_even (q : Q) : Z :=
  let f := Qfloor q in
  match (q - inject_Z f ?= 1 # 2)%Q with
  | Lt => f
  | Eq => if Z.even f then f else f + 1
  | Gt => f + 1
  end.

(** The binade of a positive rational: the [e] with
    [2 ^ e <= x < 2 ^ (e + 1)]. *)
Definition binade (x : Q) : Z :=
  let e := Z.log2 (Qnum x) - Z.log2 (Zpos (Qden x)) in
  if Qle_bool (2 ^ e) x then e else e - 1.

(** The double nearest to a rational: a significand of 53 bits. *)
Definition round_double (x : Q) : Q :=
  if Qeq_bool x 0 then 0%Q
  else
    let a := if Qle_bool 0 x then x else (- x)%Q in
    let e := binade a - 52 in
    let r := (inject_Z (round_half_even (a / 2 ^ e)) * 2 ^ e)%Q in
    if Qle_bool 0 x then r else (- r)%Q.

(** [%] on doubles, as Python and numpy compute it: the remainder of the
    truncated division (fmod, which is exact), moved to the sign of the
    divisor by an addition, which rounds. *)
Definition mod_double (x m : Q) : Q :=
  let q := (x / m)%Q in
  let r := (x - m * inject_Z (Z.quot (Qnum q) (Zpos (Qden q))))%Q in
  if Qeq_bool r 0 then 0%Q
  else if Bool.eqb (Qle_bool 0 m) (Qle_bool 0 r) then r
  else round_double (r + m).

Definition wrap_longitude_double (lon : Q) : Q :=
  round_double (mod_double (round_double (lon + 180)) 360 - 180).

(** [ds.sortby("longitude")]: the coordinate in ascending order, and every
    variable reindexed with the same permutation. *)
Definition sortby_longitude (xs : list Q) (ds : Dataset) : Dataset :=
  let perm := argsort xs in
  {| coords := update_key "longitude"
                 (λ _, FloatIndex ((λ p, xs !!! p) <$> perm)) (coords ds);
     tdim := tdim ds;
     data_vars := prod_map id (isel_longitude perm) <$> data_vars ds |}.

(** Lines 143-149: longitudes move from [0, 360) to [-180, 180), and the
    field is sorted along the new longitudes.  [wrap] is line 146 on one
    longitude, in the arithmetic that is looked at. *)
Definition correct_longitude_with (wrap : Q → Q) (ds : Dataset) : result Dataset :=
  match assoc "longitude" (coords ds) with
  | None => Ok ds
  | Some (TimeIndex _) => Raise TypeError
  | Some (FloatIndex xs) =>
      let xs' := wrap <$> xs in
      let ds' := {| coords := update_key "longitude" (λ _, FloatIndex xs') (coords ds);
                    tdim := tdim ds;
                    data_vars := data_vars ds |} in
      Ok (sortby_longitude xs' ds')
  end.

(** In the exact arithmetic of this development. *)
Definition correct_longitude (ds : Dataset) : result Dataset :=
  correct_longitude_with wrap_longitude ds.

(** The Kelvin sign, U+212A, in UTF-8: the bytes 226, 132, 170. *)
Definition kelvin_sign : string :=
  String (ascii_of_nat 226) (String (ascii_of_nat 132)
    (String (ascii_of_nat 170) EmptyString)).

(** [attrs["units"].lower().startswith("k")].  Three characters have a lower
    case that begins with "k": "k", "K" and the Kelvin sign, which [lower()]
    turns into "k". *)
Definition starts_with_k (s : string) : bool :=
  match s with
  | String c _ =>
      bool_decide (c = "k"%char ∨ c = "K"%char) || String.prefix kelvin_sign s
  | EmptyString => false
  end.

Definition is_kelvin (v : DataVar) : bool :=
  match dv_attrs v !! "units" with
  | Some u => starts_with_k u
  | None => false
  end.

(** Lines 153-155 for one variable.  The subtraction yields a new array
    without attributes, which then gets its unit. *)
Definition kelvin_to_celsius_var (v : DataVar) : DataVar :=
  if is_kelvin v then
    {| dv_values := λ i j k, vsub (dv_values v i j k) (Some 273.15%Q);
       dv_dtype := dv_dtype v;
       dv_attrs := {[ "units" := "C" ]} |}
  else v.

(** Lines 151-155: the loop over [list(ds.data_vars)]. *)
Definition kelvin_to_celsius (ds : Dataset) : Dataset :=
  {| coords := coords ds;
     tdim := tdim ds;
     data_vars := foldl (λ vars name, update_key name kelvin_to_celsius_var vars)
                        (data_vars ds) (keys (data_vars ds)) |}.

(** *** Single variables, selection and grouping *)

(** [ds[name]]: one data variable with the coordinates of its dimensions.
    A coordinate of the dataset that is not the index of a dimension (a
    scalar such as "number", or labels along time such as "expver") stays
    with the variable in xarray and becomes a column of its frame; this
    model drops it, and the statements on the columns of a frame are about
    datasets without such coordinates.  [name] is looked up among the data
    variables only: the statements do not ask for a coordinate by name. *)
Record DataArray := {
  da_coords : list (string * Coord);
  da_tdim : string;
  da_var : DataVar
}.

Definition getitem (name : string) (ds : Dataset) : result DataArray :=
  v ← from_option KeyError (assoc name (data_vars ds));
  Ok {| da_coords := filter (λ p, p.1 ∈ [tdim ds; "latitude"; "longitude"]) (coords ds);
        da_tdim := tdim ds;
        da_var := v |}.

(** The datetime index behind [sel(time=...)] and ["time.month"]: the
    leading dimension has to be called "time" and to carry timestamps. *)
Definition time_index (t : string) (cs : list (string * Coord))
  : result (list Timestamp) :=
  if decide (t = "time") then
    match assoc "time" cs with
    | Some (TimeIndex ts) => Ok ts
    | Some (FloatIndex _) => Raise TypeError
    | None => Raise KeyError
    end
  else Raise KeyError.

(** The positions of the elements of [l] that satisfy [P], ascending. *)
Definition positions_where {A} (P : A → Prop) `{!∀ x, Decision (P x)}
    (l : list A) : list nat :=
  (filter (λ p, P p.2) (enumerate l)).*1.

(** [da.sel(time=slice(f"{y0}-01-01", f"{y1}-12-31"))] on a time index in
    chronological order: the time steps whose date lies in the slice.  On an
    index that is not in ascending order pandas finds no slice of positions
    and xarray raises KeyError; the statements that rest on the selection
    take the order as a hypothesis. *)
Definition sel_years (y0 y1 : Z) (da : DataArray) : result DataArray :=
  ts ← time_index (da_tdim da) (da_coords da);
  Ok {| da_coords := update_key "time"
                       (λ _, TimeIndex (filter (in_year_slice y0 y1) ts))
                       (da_coords da);
        da_tdim := da_tdim da;
        da_var := isel_time (positions_where (in_year_slice y0 y1) ts) (da_var da) |}.

(** An array over (month, latitude, longitude): the result of a reduction
    by calendar month. *)
Record MonthlyArray := {
  ma_months : list Z;
  ma_values : nat → nat → nat → value
}.

(** [da.groupby("time.month").mean("time")].  Grouping an empty axis
    raises ValueError in xarray. *)
Definition groupby_month_mean (da : DataArray) : result MonthlyArray :=
  ts ← time_index (da_tdim da) (da_coords da);
  if decide (ts = []) then Raise ValueError
  else
    let months := unique_sorted (ts_month <$> ts) in
    Ok {| ma_months := months;
          ma_values := λ g j k,
            nanmean ((λ i, dv_values (da_var da) i j k) <$>
                     positions_where (λ t, ts_month t = months !!! g) ts) |}.

(** [da.groupby("time.month") - other].  xarray numbers the groups of [da]
    (the sorted distinct months, [coord]), aligns [other] with those labels
    (a label that [other] lacks gets NaN), picks for every time step the
    entry of its group and subtracts.  The result has no attributes. *)
Definition groupby_month_sub (da : DataArray) (other : MonthlyArray)
  : result DataVar :=
  ts ← time_index (da_tdim da) (da_coords da);
  if decide (ts = []) then Raise ValueError
  else
    let coord := unique_sorted (ts_month <$> ts) in
    let codes := (λ t, default 0%nat (index_of (ts_month t) coord)) <$> ts in
    let aligned := λ g j k,
      match index_of (coord !!! g) (ma_months other) with
      | Some p => ma_values other p j k
      | None => NaN
      end in
    Ok {| dv_values := λ i j k,
            vsub (dv_values (da_var da) i j k) (aligned (codes !!! i) j k);
          dv_dtype := dv_dtype (da_var da);
          dv_attrs := ∅ |}.

(** [var.astype("float32")]: attributes are kept; values are exact in this
    model, so only the dtype changes. *)
Definition astype_float32 (v : DataVar) : DataVar :=
  {| dv_values := dv_values v; dv_dtype := float32; dv_attrs := dv_attrs v |}.

(** ** The climatology engine *)

Definition monthly_anomaly_from_monthly
    (ds_monthly : Dataset) (baseline_start baseline_end : Z) : result Dataset :=
  var_name ← from_option IndexError (head (keys (data_vars ds_monthly)));
  t2m ← getitem var_name ds_monthly;
  base ← sel_years baseline_start baseline_end t2m;
  clim ← groupby_month_mean base;
  anom ← groupby_month_sub t2m clim;
  Ok {| coords := da_coords t2m;
        tdim := da_tdim t2m;
        data_vars := [("t2m_mean_c", astype_float32 (da_var t2m));
                      ("t2m_anomaly_c", astype_float32 anom)] |}.

(** *** Reductions over the spatial domain *)

Definition Qmin (a b : Q) : Q := if Qle_bool a b then a else b.
Definition Qmax (a b : Q) : Q := if Qle_bool a b then b else a.

Definition nanmin (l : list value) : value :=
  match observed l with
  | [] => None
  | x :: xs => Some (foldl Qmin x xs)
  end.

Definition nanmax (l : list value) : value :=
  match observed l with
  | [] => None
  | x :: xs => Some (foldl Qmax x xs)
  end.

Definition nanmedian (l : list value) : value :=
  let xs := stable_sort Qle_bool (observed l) in
  let n := length xs in
  if decide (n = 0%nat) then None
  else if Nat.even n then
    Some ((xs !!! (n / 2 - 1)%nat + xs !!! (n / 2)%nat) / 2)%Q
  else Some (xs !!! (n / 2)%nat).

Definition coord_length (c : Coord) : nat :=
  match c with
  | TimeIndex ts => length ts
  | FloatIndex xs => length xs
  end.

Definition dim_size (name : string) (cs : list (string * Coord)) : result nat :=
  coord_length <$> from_option ValueError (assoc name cs).

(** The positions (latitude, longitude) of a grid, row by row. *)
Definition grid_cells (nlat nlon : nat) : list (nat * nat) :=
  j ← seq 0 nlat; k ← seq 0 nlon; [(j, k)].

(** An array over the time axis only: what is left of a variable once
    latitude and longitude are reduced away. *)
Record Series := {
  se_tdim : string;
  se_index : option Coord;
  se_dtype : DType;
  se_values : nat → value
}.

(** [var.stat(dim=["latitude", "longitude"])] *)
Definition reduce_space (stat : list value → value) (da : DataArray)
  : result Series :=
  nlat ← dim_size "latitude" (da_coords da);
  nlon ← dim_size "longitude" (da_coords da);
  Ok {| se_tdim := da_tdim da;
        se_index := assoc (da_tdim da) (da_coords da);
        se_dtype := dv_dtype (da_var da);
        se_values := λ i,
          stat ((λ c, dv_values (da_var da) i c.1 c.2) <$> grid_cells nlat nlon) |}.

(** Keep the first entry of every key (how a dict, and [xr.merge] on
    variables that agree, treat a repeated name). *)
Fixpoint dedup_keys {A} (l : list (string * A)) : list (string * A) :=
  match l with
  | [] => []
  | p :: l' => p :: filter (λ q, q.1 ≠ p.1) (dedup_keys l')
  end.

Definition merge {A} (parts : list (list (string * A))) : list (string * A) :=
  dedup_keys (concat parts).

(** ** pandas: data frames *)

Inductive Cell :=
  | CTime (t : Timestamp)
  | CInt (dt : DType) (z : Z)
  | CFloat (dt : DType) (v : value).

#[global] Instance Cell_inhabited : Inhabited Cell := populate (CFloat float64 NaN).

Record DataFrame := {
  df_columns : list string;
  df_index : list Z;
  df_rows : list (list Cell)
}.

(** [RangeIndex(n)] *)
Definition range_index (n : nat) : list Z := Z.of_nat <$> seq 0 n.

Fixpoint position_of (name : string) (l : list string) : option nat :=
  match l with
  | [] => None
  | c :: l' => if decide (name = c) then Some 0%nat else S <$> position_of name l'
  end.

Definition col_position (name : string) (df : DataFrame) : result nat :=
  from_option KeyError (position_of name (df_columns df)).

(** [df[name]] *)
Definition df_column (name : string) (df : DataFrame) : result (list Cell) :=
  p ← col_position name df;
  Ok ((λ r : list Cell, r !!! p) <$> df_rows df).

(** [col.dt.year.astype("int16")] and [col.dt.month.astype("int8")]: the
    [dt] accessor exists on datetime columns only. *)
Definition dt_year_int16 (col : list Cell) : result (list Cell) :=
  mapM (λ c, match c with
             | CTime t => Ok (CInt int16 (astype_int16 (ts_year t)))
             | _ => Raise AttributeError
             end) col.

Definition dt_month_int8 (col : list Cell) : result (list Cell) :=
  mapM (λ c, match c with
             | CTime t => Ok (CInt int8 (astype_int8 (ts_month t)))
             | _ => Raise AttributeError
             end) col.

(** [df[name] = col]: replaces the column of that name, or appends a new
    last column. *)
Definition df_setitem (name : string) (col : list Cell) (df : DataFrame)
  : DataFrame :=
  match position_of name (df_columns df) with
  | Some p =>
      {| df_columns := df_columns df;
         df_index := df_index df;
         df_rows := zip_with (λ (r : list Cell) c, <[p := c]> r) (df_rows df) col |}
  | None =>
      {| df_columns := df_columns df ++ [name];
         df_index := df_index df;
         df_rows := zip_with (λ (r : list Cell) c, r ++ [c]) (df_rows df) col |}
  end.

(** [df[names]] *)
Definition df_select (names : list string) (df : DataFrame) : result DataFrame :=
  ps ← mapM (λ n, col_position n df) names;
  Ok {| df_columns := names;
        df_index := df_index df;
        df_rows := (λ r : list Cell, (λ p, r !!! p) <$> ps) <$> df_rows df |}.

(** [df.drop(columns=[name])] *)
Definition df_drop (name : string) (df : DataFrame) : result DataFrame :=
  _ ← col_position name df;
  let keep := positions_where (λ c, c ≠ name) (df_columns df) in
  Ok {| df_columns := filter (λ c, c ≠ name) (df_columns df);
        df_index := df_index df;
        df_rows := (λ r : list Cell, (λ p, r !!! p) <$> keep) <$> df_rows df |}.

(** [pd.concat(dfs, ignore_index=True)] for frames with the same columns;
    an empty list of frames raises ValueError. *)
Definition df_concat (dfs : list DataFrame) : result DataFrame :=
  match dfs with
  | [] => Raise ValueError
  | df :: _ =>
      let rows := concat (df_rows <$> dfs) in
      Ok {| df_columns := df_columns df;
            df_index := range_index (length rows);
            df_rows := rows |}
  end.

(** Order of sort keys: within a dtype the natural order, NaN last. *)
Definition cell_leb (a b : Cell) : bool :=
  match a, b with
  | CTime s, CTime t => ts_leb s t
  | CTime _, _ => true
  | CInt _ _, CTime _ => false
  | CInt _ x, CInt _ y => bool_decide (x ≤ y)
  | CInt _ _, CFloat _ _ => true
  | CFloat _ x, CFloat _ y => value_leb x y
  | CFloat _ _, _ => false
  end.

Fixpoint lex_leb (a b : list Cell) : bool :=
  match a, b with
  | [], _ => true
  | _ :: _, [] => false
  | x :: a', y :: b' =>
      if negb (cell_leb y x) then true
      else if negb (cell_leb x y) then false
      else lex_leb a' b'
  end.

(** The sort key of a row: its cells in the key columns. *)
Definition row_key (ps : list nat) (r : list Cell) : list Cell :=
  (λ p, r !!! p) <$> ps.

(** [df.sort_values(by)]: a stable sort of the rows, each one keeping its
    index label. *)
Definition df_sort_values (by_ : list string) (df : DataFrame) : result DataFrame :=
  ps ← mapM (λ n, col_position n df) by_;
  let sorted := stable_sort
                  (λ a b : Z * list Cell, lex_leb (row_key ps a.2) (row_key ps b.2))
                  (zip (df_index df) (df_rows df)) in
  Ok {| df_columns := df_columns df;
        df_index := sorted.*1;
        df_rows := sorted.*2 |}.

(** [df.reset_index(drop=True)] *)
Definition df_reset_index (df : DataFrame) : DataFrame :=
  {| df_columns := df_columns df;
     df_index := range_index (length (df_rows df));
     df_rows := df_rows df |}.

(** *** From datasets to frames *)

Definition coord_cells (c : Coord) : list Cell :=
  match c with
  | TimeIndex ts => CTime <$> ts
  | FloatIndex xs => (λ x, CFloat float64 (Some x)) <$> xs
  end.

(** [ds.to_dataframe().reset_index()] for a dataset of series: one row per
    label of the time axis, the label first.  A dataset without variables
    has no dimension and no index, and xarray raises ValueError. *)
Definition series_to_dataframe (vars : list (string * Series)) : result DataFrame :=
  match vars with
  | [] => Raise ValueError
  | (_, s) :: _ =>
      index ← from_option ValueError (se_index s);
      let labels := coord_cells index in
      Ok {| df_columns := se_tdim s :: keys vars;
            df_index := range_index (length labels);
            df_rows :=
              (λ p : nat * Cell,
                 p.2 :: ((λ v : string * Series,
                            CFloat (se_dtype v.2) (se_values v.2 p.1)) <$> vars))
              <$> enumerate labels |}
  end.

(** [ds.sel(time=slice(f"{y0}-01-01", f"{y1}-12-31"))], on a time index in
    chronological order as [sel_years]. *)
Definition ds_sel_years (y0 y1 : Z) (ds : Dataset) : result Dataset :=
  ts ← time_index (tdim ds) (coords ds);
  Ok {| coords := update_key "time"
                    (λ _, TimeIndex (filter (in_year_slice y0 y1) ts)) (coords ds);
        tdim := tdim ds;
        data_vars := prod_map id (isel_time (positions_where (in_year_slice y0 y1) ts))
                     <$> data_vars ds |}.

(** [ds[names]] for a list of data variables.  The result keeps the
    coordinates of the dimensions of the variables it selects: all three, or
    none when [names] is empty.  As in [getitem], the names are looked up
    among the data variables only. *)
Definition ds_subset (names : list string) (ds : Dataset) : result Dataset :=
  vars ← mapM (λ n, v ← from_option KeyError (assoc n (data_vars ds)); Ok (n, v)) names;
  Ok {| coords := if decide (names = []) then [] else coords ds;
        tdim := tdim ds;
        data_vars := dedup_keys vars |}.

(** [ds.to_dataframe().reset_index()] for a gridded dataset: one row per
    (time, latitude, longitude), the labels first.  A dataset without
    dimensions has no index, and xarray raises ValueError. *)
Definition to_dataframe (ds : Dataset) : result DataFrame :=
  tc ← from_option ValueError (assoc (tdim ds) (coords ds));
  yc ← from_option ValueError (assoc "latitude" (coords ds));
  xc ← from_option ValueError (assoc "longitude" (coords ds));
  let rows :=
    t ← enumerate (coord_cells tc);
    y ← enumerate (coord_cells yc);
    x ← enumerate (coord_cells xc);
    [ [t.2; y.2; x.2] ++
      ((λ v : string * DataVar, CFloat (dv_dtype v.2) (dv_values v.2 t.1 y.1 x.1))
       <$> data_vars ds) ] in
  Ok {| df_columns := [tdim ds; "latitude"; "longitude"] ++ keys (data_vars ds);
        df_index := range_index (length rows);
        df_rows := rows |}.

(** ** The global aggregator *)

Definition stats_of (ds : Dataset) (col : string) : result (list (string * Series)) :=
  var ← getitem col ds;
  mean ← reduce_space nanmean var;
  median ← reduce_space nanmedian var;
  min ← reduce_space nanmin var;
  max ← reduce_space nanmax var;
  Ok [(col +:+ "_mean", mean); (col +:+ "_median", median);
      (col +:+ "_min", min); (col +:+ "_max", max)].

Definition compute_global_monthly_stats (ds : Dataset) (columns : list string)
  : result DataFrame :=
  stats_list ← mapM (stats_of ds) columns;
  let ds_stats := merge stats_list in
  pdf ← series_to_dataframe ds_stats;
  time ← df_column "time" pdf;
  year ← dt_year_int16 time;
  let pdf := df_setitem "year" year pdf in
  time ← df_column "time" pdf;
  month ← dt_month_int8 time;
  let pdf := df_setitem "month" month pdf in
  pdf ← df_drop "time" pdf;
  let stat_cols := filter (λ c, c ∉ ["year"; "month"]) (df_columns pdf) in
  df_select (["year"; "month"] ++ stat_cols) pdf.

(** ** The spatial windower *)

(** One turn of the loop: the frame of one calendar year. *)
Definition year_frame (ds : Dataset) (columns : list string) (year : Z)
  : result DataFrame :=
  ds_year ← ds_sel_years year year ds;
  ds_computed ← ds_subset columns ds_year;
  pdf ← to_dataframe ds_computed;
  time ← df_column "time" pdf;
  y ← dt_year_int16 time;
  let pdf := df_setitem "year" y pdf in
  time ← df_column "time" pdf;
  m ← dt_month_int8 time;
  let pdf := df_setitem "month" m pdf in
  df_select (["latitude"; "longitude"; "year"; "month"] ++ columns) pdf.

Definition compute_spatial_anomalies_recent
    (ds : Dataset) (columns : list string) (start_year end_year : Z)
  : result DataFrame :=
  dfs ← mapM (year_frame ds columns) (seqZ start_year (end_year + 1 - start_year));
  result ← df_concat dfs;
  result ← df_sort_values ["latitude"; "longitude"; "year"; "month"] result;
  Ok (df_reset_index result).

(** ** Files *)

(** A path, as pathlib splits it: directory, stem and suffix of the name. *)
Record Path := {
  parent : string;
  stem : string;
  suffix : string
}.

Definition path_name (p : Path) : string :=
  parent p +:+ "/" +:+ stem p +:+ suffix p.

(** What a file holds: a payload, or a ZIP archive of named payloads. *)
Inductive Payload :=
  | NetCDF (ds : Dataset)
  | Parquet (columns : list string) (rows : list (list Cell))
  | Bytes (s : string).

Inductive Content :=
  | Plain (p : Payload)
  | ZipArchive (entries : list (string * Payload)).

Record File := {
  f_content : Content;
  f_mtime : Z
}.

(** A request to the climate data store. *)
Record Request := {
  rq_dataset : string;
  rq_product_type : string;
  rq_variable : string;
  rq_year : list string;
  rq_month : list string;
  rq_time : string;
  rq_format : string
}.

(** The world a stage runs in: the files with their modification times,
    the directories, the clock, the two remote services and the log of the
    requests sent to them. *)
Record World := {
  files : gmap string File;
  dirs : gset string;
  now : Z;
  cds : Request → result Content;
  http : string → result Content;
  retrieved : list Request;
  fetched : list string
}.

Definition path_exists (p : Path) (w : World) : bool :=
  bool_decide (is_Some (files w !! path_name p)).

(** Writing a file stamps it with the current time; the clock moves on. *)
Definition write_file (p : Path) (c : Content) (w : World) : World :=
  {| files := <[path_name p := {| f_content := c; f_mtime := now w |}]> (files w);
     dirs := dirs w;
     now := now w + 1;
     cds := cds w;
     http := http w;
     retrieved := retrieved w;
     fetched := fetched w |}.

(** [path.mkdir(parents=True, exist_ok=True)] *)
Definition mkdir (d : string) (w : World) : World :=
  {| files := files w;
     dirs := {[ d ]} ∪ dirs w;
     now := now w;
     cds := cds w;
     http := http w;
     retrieved := retrieved w;
     fetched := fetched w |}.

(** [s.endswith(suf)] *)
Definition ends_with (suf s : string) : bool :=
  bool_decide (String.length suf ≤ String.length s)%nat &&
  String.eqb (String.substring (String.length s - String.length suf) (String.length suf) s) suf.

Definition extract_netcdf_from_zip (zip_path : Path) (w : World)
  : result (Path * World) :=
  match files w !! path_name zip_path with
  | None => Raise FileNotFoundError
  | Some f =>
      match f_content f with
      | ZipArchive entries =>
          match filter (λ e, ends_with ".nc" e.1 = true) entries with
          | [] => Raise ValueError
          | (_, payload) :: _ =>
              let extracted_path :=
                {| parent := parent zip_path;
                   stem := stem zip_path +:+ "_extracted";
                   suffix := ".nc" |} in
              if path_exists extracted_path w then Ok (extracted_path, w)
              else Ok (extracted_path, write_file extracted_path (Plain payload) w)
          end
      | _ => Ok (zip_path, w)
      end
  end.

(** [client.retrieve(name, request, target)]: the answer of the data store
    is written to the target. *)
Definition retrieve (rq : Request) (target : Path) (w : World) : result World :=
  payload ← cds w rq;
  let w := write_file target payload w in
  Ok {| files := files w; dirs := dirs w; now := now w; cds := cds w;
        http := http w; retrieved := retrieved w ++ [rq]; fetched := fetched w |}.

(** [output_dir / f'era5_{file_suffix}_{start_year}_{end_year}_monthly.nc']
    and its companion [..._monthly_extracted.nc]. *)
Definition monthly_out_file (output_dir file_suffix : string)
    (start_year end_year : Z) : Path :=
  {| parent := output_dir;
     stem := "era5_" +:+ file_suffix +:+ "_" +:+ pretty start_year +:+ "_"
             +:+ pretty end_year +:+ "_monthly";
     suffix := ".nc" |}.

Definition monthly_extracted_file (output_dir file_suffix : string)
    (start_year end_year : Z) : Path :=
  {| parent := output_dir;
     stem := "era5_" +:+ file_suffix +:+ "_" +:+ pretty start_year +:+ "_"
             +:+ pretty end_year +:+ "_monthly_extracted";
     suffix := ".nc" |}.

Definition download_monthly_variable
    (output_dir : string) (start_year end_year : Z)
    (dataset_name variable file_suffix product_type : string) (w : World)
  : result (Path * World) :=
  let out_file := monthly_out_file output_dir file_suffix start_year end_year in
  let extracted_file :=
    monthly_extracted_file output_dir file_suffix start_year end_year in
  if path_exists extracted_file w then Ok (extracted_file, w)
  else if path_exists out_file w then extract_netcdf_from_zip out_file w
  else
    let years := pretty <$> seqZ start_year (end_year + 1 - start_year) in
    w ← retrieve {| rq_dataset := dataset_name;
                    rq_product_type := product_type;
                    rq_variable := variable;
                    rq_year := years;
                    rq_month := ["01"; "02"; "03"; "04"; "05"; "06";
                                 "07"; "08"; "09"; "10"; "11"; "12"];
                    rq_time := "00:00";
                    rq_format := "netcdf" |} out_file w;
    extract_netcdf_from_zip out_file w.

Definition world_geojson_url : string :=
  "https://public.opendatasoft.com/explore/dataset/country_shapes/download/?format=geojson".

Definition world_geojson_file (out_dir : string) : Path :=
  {| parent := out_dir; stem := "world_countries"; suffix := ".geojson" |}.

Definition download_world_geojson (out_dir : string) (w : World)
  : result (Path * World) :=
  let output := world_geojson_file out_dir in
  if path_exists output w then Ok (output, w)
  else
    content ← http w world_geojson_url;
    let w := write_file output content w in
    Ok (output,
        {| files := files w; dirs := dirs w; now := now w; cds := cds w;
           http := http w; retrieved := retrieved w;
           fetched := fetched w ++ [world_geojson_url] |}).

(** [df.to_parquet(path, index=False)] after creating the directory.  The
    report that the source prints is not modelled. *)
Definition save_parquet_pandas (df : DataFrame) (path : Path) (w : World) : World :=
  let w := mkdir (parent path) w in
  write_file path (Plain (Parquet (df_columns df) (df_rows df))) w.

(** ** The grid normalizer *)

Definition open_dataset (path : Path) (w : World) : result Dataset :=
  match files w !! path_name path with
  | None => Raise FileNotFoundError
  | Some f =>
      match f_content f with
      | Plain (NetCDF ds) => Ok ds
      | _ => Raise ValueError
      end
  end.

Definition load_and_clean (path : Path) (w : World) : result Dataset :=
  ds ← open_dataset path w;
  ds ← standardize_time ds;
  ds ← correct_longitude ds;
  Ok (kelvin_to_celsius ds).

(** ** The pipeline *)

Definition main (w : World) : result World :=
  let raw_data_dir := "raw" in
  let processed_data_dir := "processed" in
  let start_year := 1991 in
  let end_year := 2025 in
  let baseline_start := 1991 in
  let baseline_end := 2020 in
  let spatial_year_start := 2024 in
  let spatial_year_end := 2024 in
  let w := mkdir raw_data_dir w in
  let w := mkdir processed_data_dir w in
  '(tmean_nc, w) ← download_monthly_variable raw_data_dir start_year end_year
      "reanalysis-era5-land-monthly-means" "2m_temperature" "tmean"
      "monthly_averaged_reanalysis" w;
  ds_monthly_raw ← load_and_clean tmean_nc w;
  ds_monthly ← monthly_anomaly_from_monthly ds_monthly_raw baseline_start baseline_end;
  df_global ← compute_global_monthly_stats ds_monthly ["t2m_mean_c"; "t2m_anomaly_c"];
  let global_pq :=
    {| parent := processed_data_dir;
       stem := "global_monthly_stats_" +:+ pretty start_year +:+ "_" +:+ pretty end_year;
       suffix := ".parquet" |} in
  let w := save_parquet_pandas df_global global_pq w in
  df_spatial ← compute_spatial_anomalies_recent ds_monthly
      ["t2m_mean_c"; "t2m_anomaly_c"] spatial_year_start spatial_year_end;
  let spatial_pq :=
    {| parent := processed_data_dir;
       stem := "spatial_anomalies_" +:+ pretty spatial_year_start +:+ "_"
               +:+ pretty spatial_year_end;
       suffix := ".parquet" |} in
  let w := save_parquet_pandas df_spatial spatial_pq w in
  Ok w.

(** ** The climatology as the specification words it *)

(** The climatology value of calendar month [m] at the cell [(j, k)]: the
    mean of the variable over the time steps that lie in the inclusive
    baseline slice, from January 1 of [baseline_start] through December 31
    of [baseline_end], and fall in month [m]. *)
Definition baseline_climatology (ts : list Timestamp) (v : DataVar)
    (baseline_start baseline_end : Z) (m : Z) (j k : nat) : value :=
  nanmean ((λ i, dv_values v i j k) <$>
           positions_where
             (λ t, in_year_slice baseline_start baseline_end t ∧ ts_month t = m) ts).

(** The anomaly array that the engine builds for a series with the time
    index [ts]. *)
Definition anomaly_values (ts : list Timestamp) (v : DataVar)
    (baseline_start baseline_end : Z) : nat → nat → nat → value :=
  let base := filter (in_year_slice baseline_start baseline_end) ts in
  let pos := positions_where (in_year_slice baseline_start baseline_end) ts in
  let months := unique_sorted (ts_month <$> base) in
  let coord := unique_sorted (ts_month <$> ts) in
  λ i j k,
    vsub (dv_values v i j k)
      match index_of (coord !!! (((λ t, default 0%nat (index_of (ts_month t) coord)) <$> ts) !!! i))
                     months with
      | Some p =>
          nanmean ((λ i', dv_values v (pos !!! i') j k) <$>
                   positions_where (λ t, ts_month t = months !!! p) base)
      | None => NaN
      end.

(** ** Names and positions used in the statements *)

(** The endings of the four statistics columns of a variable. *)
Definition stat_suffixes : list string := ["_mean"; "_median"; "_min"; "_max"].

(** The statistics columns of the requested variables, in order. *)
Definition stat_columns (columns : list string) : list string :=
  c ← columns; (λ s, c +:+ s) <$> stat_suffixes.

(** The coordinates of the dataset are those of its three dimensions, and
    possibly coordinates called "year" or "month" (the anomalies carry the
    coordinate "month" of their grouping).  Any other coordinate, such as
    "number" or "expver", gives a column of its own in the frame of the
    global aggregator, which line 227 keeps; a column "year" or "month" is
    overwritten (lines 223-224). *)
Definition index_coords (ds : Dataset) : Prop :=
  ∀ c, c ∈ keys (coords ds) →
       c ∈ [tdim ds; "latitude"; "longitude"; "year"; "month"].

(** The positions (time, latitude, longitude) of a grid over three axes,
    with their labels, the time axis varying slowest. *)
Definition grid3 {A B C} (ta : list A) (ya : list B) (xa : list C)
  : list ((nat * A) * (nat * B) * (nat * C)) :=
  t ← enumerate ta; y ← enumerate ya; x ← enumerate xa; [(t, y, x)].

(** The rows that one turn of the loop of the spatial windower appends. *)
Definition year_rows (ds : Dataset) (columns : list string) (year : Z)
  : list (list Cell) :=
  match year_frame ds columns year with
  | Ok df => df_rows df
  | Raise _ => []
  end.

(** The order of the final sort: by the cells of the first four columns
    (latitude, longitude, year, month), lexicographically. *)
Definition by_cell_year_month (r1 r2 : list Cell) : bool :=
  lex_leb (row_key [0; 1; 2; 3]%nat r1) (row_key [0; 1; 2; 3]%nat r2).

(** The rows whose column "year" (the third one) holds [year]: the slice
    [df[df.year == year]] of a table of the spatial windower. *)
Definition row_in_year (year : Z) (r : list Cell) : Prop :=
  match r !! 2%nat with
  | Some (CInt _ z) => z = year
  | _ => False
  end.

#[global] Instance row_in_year_dec year r : Decision (row_in_year year r).
Proof.
  unfold row_in_year. destruct (r !! 2%nat) as [[| |]|]; apply _.
Defined.

(** Is the value observed and equal to [q]? *)
Definition value_is (q : Q) (v : value) : bool :=
  match v with
  | Some x => Qeq_bool x q
  | None => false
  end.

(** ** Paths, values and rows used in the further statements *)


(** [zip_path.parent / (zip_path.stem + '_extracted.nc')] *)
Definition extracted_path_of (zip_path : Path) : Path :=
  {| parent := parent zip_path;
     stem := stem zip_path +:+ "_extracted";
     suffix := ".nc" |}.

(** Equality of values: both are missing, or both are observed and equal
    as rationals. *)
Definition value_eq (a b : value) : Prop :=
  match a, b with
  | Some x, Some y => (x == y)%Q
  | None, None => True
  | _, _ => False
  end.

(** A time index in chronological order (pandas: monotonic increasing).
    Selecting a slice of labels, as the engine and the windower do, needs
    it. *)
Definition chronological (ts : list Timestamp) : Prop :=
  Sorted (λ a b, ts_leb a b = true) ts.

(** A name that the dataset cannot resolve: it has neither a data variable
    nor a coordinate nor a dimension of that name, and the name holds no dot
    (xarray reads "a.b" as the attribute "b" of its variable "a", and the
    name of a dimension without coordinate as its range of positions). *)
Definition unknown_name (ds : Dataset) (name : string) : Prop :=
  (name ∉ keys (data_vars ds))
  ∧ (name ∉ keys (coords ds))
  ∧ (name ∉ [tdim ds; "latitude"; "longitude"])
  ∧ ("."%char ∉ String.list_ascii_of_string name).

(** The values of a variable over the grid at one time step, row by row. *)
Definition grid_values (v : DataVar) (nlat nlon : nat) (i : nat) : list value :=
  (λ c : nat * nat, dv_values v i c.1 c.2) <$> grid_cells nlat nlon.

(** What the four statistics of one time step have to do with each other:
    all are missing, or all are observed, mean and median lying between the
    minimum and the maximum. *)
Definition stats_consistent (mean median min max : value) : Prop :=
  match mean, median, min, max with
  | Some a, Some md, Some lo, Some hi => (lo <= a <= hi ∧ lo <= md <= hi)%Q
  | None, None, None, None => True
  | _, _, _, _ => False
  end.

(** The time steps of a series whose year lies in a window, each with the
    position that it has in the series; and the grid that they span with
    the latitudes and the longitudes. *)
Definition window_steps (start_year end_year : Z) (ts : list Timestamp)
  : list (nat * Timestamp) :=
  filter (λ p, start_year ≤ ts_year p.2 ≤ end_year) (enumerate ts).

Definition window_grid (start_year end_year : Z) (ts : list Timestamp)
    (lats lons : list Q) : list ((nat * Timestamp) * (nat * Q) * (nat * Q)) :=
  t ← window_steps start_year end_year ts;
  y ← enumerate lats; x ← enumerate lons; [(t, y, x)].

(** The row of the spatial table for one time step and one cell: latitude,
    longitude, year, month, and the values of the requested variables
    there. *)
Definition spatial_row (ds : Dataset) (columns : list string)
    (q : (nat * Timestamp) * (nat * Q) * (nat * Q)) : list Cell :=
  [CFloat float64 (Some q.1.2.2); CFloat float64 (Some q.2.2);
   CInt int16 (ts_year q.1.1.2); CInt int8 (ts_month q.1.1.2)]
  ++ omap (λ c, (λ v, CFloat (dv_dtype v) (dv_values v q.1.1.1 q.1.2.1 q.2.1))
                <$> assoc c (data_vars ds)) columns.

(** * Example data *)

Definition month_start (y m : Z) : Timestamp :=
  {| ts_year := y; ts_month := m; ts_day := 1; ts_nanos := 0 |}.

Definition constant_var (x : Q) (units : string) : DataVar :=
  {| dv_values := λ _ _ _, Some x;
     dv_dtype := float32;
     dv_attrs := {[ "units" := units ]} |}.

(** A variable whose unit is written with the Kelvin sign. *)
Definition kelvin_sign_var : DataVar := constant_var 280 kelvin_sign.

(** The double before 360: it prints as 359.99999999999994. *)
Definition below_360 : Q := (360 - 1 / 2 ^ 44)%Q.

(** A grid with two longitudes that double precision cannot tell apart
    after line 146. *)
Definition ds_close_longitudes : Dataset :=
  {| coords := [("time", TimeIndex [month_start 2024 1]);
                ("latitude", FloatIndex [10%Q]);
                ("longitude", FloatIndex [0%Q; below_360])];
     tdim := "time";
     data_vars := [("t2m", constant_var 280 "K")] |}.

(** A dataset whose time axis is already called "time" and that also has
    a coordinate "valid_time" (as readers of GRIB files produce it). *)
Definition ds_both_time_axes : Dataset :=
  {| coords := [("time", TimeIndex [month_start 1991 1]);
                ("valid_time", TimeIndex [month_start 1991 1]);
                ("latitude", FloatIndex [10%Q]);
                ("longitude", FloatIndex [170%Q])];
     tdim := "time";
     data_vars := [("t2m", constant_var 280 "K")] |}.

(** Two years of monthly fields on a 2 x 2 grid: 280 K throughout 1991 and
    290 K throughout 1992. *)
Definition two_years : list Timestamp :=
  (month_start 1991 <$> seqZ 1 12) ++ (month_start 1992 <$> seqZ 1 12).

Definition t2m_two_years : DataVar :=
  {| dv_values := λ i _ _, if decide (i < 12)%nat then Some 280%Q else Some 290%Q;
     dv_dtype := float32;
     dv_attrs := {[ "units" := "K" ]} |}.

Definition ds_two_years : Dataset :=
  {| coords := [("time", TimeIndex two_years);
                ("latitude", FloatIndex [10%Q; 20%Q]);
                ("longitude", FloatIndex [170%Q; 190%Q])];
     tdim := "time";
     data_vars := [("t2m", t2m_two_years)] |}.

(** The same grid with a field that has no value in any January. *)
Definition t2m_no_january : DataVar :=
  {| dv_values := λ i _ _,
       if decide (i = 0 ∨ i = 12)%nat then NaN
       else if decide (i < 12)%nat then Some 280%Q else Some 290%Q;
     dv_dtype := float32;
     dv_attrs := {[ "units" := "K" ]} |}.

Definition ds_no_january : Dataset :=
  {| coords := [("time", TimeIndex two_years);
                ("latitude", FloatIndex [10%Q; 20%Q]);
                ("longitude", FloatIndex [170%Q; 190%Q])];
     tdim := "time";
     data_vars := [("t2m", t2m_no_january)] |}.

(** A world without files, whose remote services do not answer. *)
Definition empty_world : World :=
  {| files := ∅;
     dirs := ∅;
     now := 0;
     cds := λ _, Raise HTTPError;
     http := λ _, Raise HTTPError;
     retrieved := [];
     fetched := [] |}.





(** A world with the directory "raw" and no file, whose data store
    answers every request with [answer] and whose web server answers every
    request with an empty document. *)
Definition answering_world (answer : Content) : World :=
  {| files := ∅;
     dirs := {[ "raw" ]};
     now := 0;
     cds := λ _, Ok answer;
     http := λ _, Ok (Plain (Bytes "{}"));
     retrieved := [];
     fetched := [] |}.

(** A world in which the country shapes have been downloaded. *)
Definition world_with_shapes : World :=
  write_file (world_geojson_file "raw") (Plain (Bytes "{}")) empty_world.

(** A file as the data store delivers it: the time axis is called
    "valid_time". *)
Definition ds_valid_time : Dataset :=
  {| coords := [("valid_time", TimeIndex two_years);
                ("latitude", FloatIndex [10%Q; 20%Q]);
                ("longitude", FloatIndex [170%Q; 190%Q])];
     tdim := "valid_time";
     data_vars := [("t2m", t2m_two_years)] |}.

(** A file whose time axis is called "date". *)
Definition ds_date : Dataset :=
  {| coords := [("date", TimeIndex two_years);
                ("latitude", FloatIndex [10%Q; 20%Q]);
                ("longitude", FloatIndex [170%Q; 190%Q])];
     tdim := "date";
     data_vars := [("t2m", t2m_two_years)] |}.

Definition world_with_raw_file : World :=
  write_file (monthly_out_file "raw" "tmean" 1991 2025)
    (Plain (NetCDF ds_valid_time)) empty_world.

(** The world after a run of the pipeline in that world. *)
Definition world_after_pipeline : World :=
  match main world_with_raw_file with
  | Ok w' => w'
  | Raise _ => world_with_raw_file
  end.

(** * Properties *)

(** ** Results *)

Lemma bind_Ok {A B} (f : A → result B) (a : A) : (Ok a ≫= f) = f a.
Proof. reflexivity. Qed.

(** ** Ordered dictionaries *)

Lemma assoc_cons_eq {A} (k : string) (a : A) (l : list (string * A)) :
  assoc k ((k, a) :: l) = Some a.
Proof. simpl. by rewrite decide_True. Qed.

Lemma assoc_filter {A} (k : string) (names : list string) (l : list (string * A)) :
  k ∈ names → assoc k (filter (λ p, p.1 ∈ names) l) = assoc k l.
Proof.
  intros Hk. induction l as [|[k' a] l IH]; [done|].
  rewrite filter_cons. simpl. destruct (decide (k = k')) as [->|Hne].
  - rewrite decide_True by done. apply assoc_cons_eq.
  - case_decide; simpl; [rewrite decide_False by done|]; apply IH.
Qed.

Lemma assoc_update_key {A} (k : string) (f : A → A) (l : list (string * A)) :
  assoc k (update_key k f l) = f <$> assoc k l.
Proof.
  induction l as [|[k' a] l IH]; [done|].
  unfold update_key in *. rewrite fmap_cons. simpl.
  destruct (decide (k' = k)) as [->|Hne]; simpl.
  - by rewrite !decide_True.
  - rewrite !decide_False by done. apply IH.
Qed.

Lemma assoc_update_key_ne {A} (k k' : string) (f : A → A) (l : list (string * A)) :
  k ≠ k' → assoc k (update_key k' f l) = assoc k l.
Proof.
  intros Hne. induction l as [|[k0 a] l IH]; [done|].
  unfold update_key in *. rewrite fmap_cons. simpl.
  destruct (decide (k0 = k')) as [->|Hne']; simpl.
  - rewrite !decide_False by done. apply IH.
  - destruct (decide (k = k0)); [done | apply IH].
Qed.

Lemma assoc_fmap {A B} (f : A → B) (k : string) (l : list (string * A)) :
  assoc k (prod_map id f <$> l) = f <$> assoc k l.
Proof.
  induction l as [|[k' a] l IH]; [done|]. rewrite fmap_cons. simpl.
  by case_decide.
Qed.

Lemma assoc_is_Some {A} (k : string) (l : list (string * A)) :
  k ∈ keys l → is_Some (assoc k l).
Proof.
  induction l as [|[k' a'] l IH]; simpl.
  - by intros ?%elem_of_nil.
  - intros [->|H]%elem_of_cons; [rewrite decide_True; eauto|].
    case_decide; eauto.
Qed.

(** ** The time axis (lines 137-141) *)

(** Without the alias "valid_time", an existing "time" is left alone. *)
Lemma standardize_time_keeps_time (ds : Dataset) :
  "valid_time" ∉ keys (coords ds) → "time" ∈ keys (coords ds) →
  standardize_time ds = Ok ds.
Proof.
  intros Hv Ht. unfold standardize_time.
  rewrite decide_False by done. rewrite decide_False by tauto. done.
Qed.

(** With both "valid_time" and "time", the rename is attempted and fails. *)
Lemma standardize_time_conflict (ds : Dataset) :
  "valid_time" ∈ keys (coords ds) → "time" ∈ keys (coords ds) →
  standardize_time ds = Raise ValueError.
Proof.
  intros Hv Ht. unfold standardize_time, rename.
  rewrite decide_True by done.
  rewrite decide_False by (intros Hn; apply Hn, elem_of_app; by left).
  rewrite decide_True by (apply elem_of_app; by left). done.
Qed.

(** C8 (failing input).  On a dataset that has both a coordinate "time"
    and the alias "valid_time", the normalizer does not leave the dataset
    as it is: it tries to rename "valid_time" to "time", and the rename
    raises ValueError, so that loading fails.  The branch for "date" has
    the guard that "time" is absent; the branch for "valid_time" has not. *)
Theorem C8_valid_time_renamed_despite_time :
  "time" ∈ keys (coords ds_both_time_axes) ∧
  standardize_time ds_both_time_axes = Raise ValueError ∧
  standardize_time ds_both_time_axes ≠ Ok ds_both_time_axes.
Proof.
  split; [|split].
  - cbn. constructor.
  - reflexivity.
  - discriminate.
Qed.

(** ** The first variable and the names of the outputs *)


(** ** Units (lines 151-155) *)

Lemma string_prefix_spec (s1 s2 : string) :
  String.prefix s1 s2 = true ↔ ∃ rest, s2 = s1 +:+ rest.
Proof.
  revert s2. induction s1 as [|a s1 IH]; intros s2.
  - destruct s2; simpl; split; eauto.
  - destruct s2 as [|b s2]; simpl.
    + split; [done | intros [rest H]; done].
    + destruct (ascii_dec a b) as [->|Hne].
      * rewrite IH. split; intros [rest H]; exists rest.
        -- by rewrite H.
        -- by injection H.
      * split; [done | intros [rest H]; injection H; congruence].
Qed.

Lemma starts_with_k_spec (u : string) :
  starts_with_k u = true ↔
  (∃ c rest, u = String c rest ∧ (c = "k"%char ∨ c = "K"%char))
  ∨ (∃ rest, u = kelvin_sign +:+ rest).
Proof.
  rewrite <- string_prefix_spec. destruct u as [|c rest].
  - simpl. split; [done | intros [(?&?&?&?)|?]; done].
  - unfold starts_with_k. rewrite orb_true_iff, bool_decide_eq_true. split.
    + intros [H|H]; [left; by exists c, rest | by right].
    + intros [(c'&rest'&Heq&H)|H]; [left; by simplify_eq | by right].
Qed.

Lemma is_kelvin_spec (v : DataVar) :
  is_kelvin v = true ↔
  ∃ u, dv_attrs v !! "units" = Some u ∧
       ((∃ c rest, u = String c rest ∧ (c = "k"%char ∨ c = "K"%char))
        ∨ (∃ rest, u = kelvin_sign +:+ rest)).
Proof.
  unfold is_kelvin. destruct (dv_attrs v !! "units") as [u|].
  - rewrite starts_with_k_spec. split.
    + intros H. by exists u.
    + intros (u'&Heq&H). by simplify_eq.
  - split; [done | intros (?&?&?); done].
Qed.

Lemma is_kelvin_celsius (v : DataVar) :
  dv_attrs v !! "units" = Some "C" → is_kelvin v = false.
Proof. unfold is_kelvin. by intros ->. Qed.

Lemma kelvin_to_celsius_var_converted (v : DataVar) :
  is_kelvin v = true →
  dv_attrs (kelvin_to_celsius_var v) !! "units" = Some "C" ∧
  ∀ i j k, dv_values (kelvin_to_celsius_var v) i j k
           = vsub (dv_values v i j k) (Some 273.15%Q).
Proof.
  intros H. unfold kelvin_to_celsius_var. rewrite H. simpl.
  split; [apply lookup_singleton_eq | done].
Qed.

Lemma kelvin_to_celsius_var_unchanged (v : DataVar) :
  is_kelvin v = false → kelvin_to_celsius_var v = v.
Proof. intros H. unfold kelvin_to_celsius_var. by rewrite H. Qed.

Lemma kelvin_to_celsius_var_idem (v : DataVar) :
  kelvin_to_celsius_var (kelvin_to_celsius_var v) = kelvin_to_celsius_var v.
Proof.
  destruct (is_kelvin v) eqn:H.
  - apply kelvin_to_celsius_var_unchanged, is_kelvin_celsius.
    by destruct (kelvin_to_celsius_var_converted v H).
  - rewrite (kelvin_to_celsius_var_unchanged v H).
    by apply kelvin_to_celsius_var_unchanged.
Qed.

(** Updating the entries of the keys [ks] one after the other, with a
    function that is idempotent, updates every entry whose key is in [ks]
    once. *)
Lemma foldl_update_key {A} (f : A → A) (ks : list string) (l : list (string * A)) :
  (∀ a, f (f a) = f a) →
  foldl (λ vars name, update_key name f vars) l ks
  = (λ p : string * A, if decide (p.1 ∈ ks) then (p.1, f p.2) else p) <$> l.
Proof.
  intros Hf. revert l. induction ks as [|k ks IH]; intros l; simpl.
  - symmetry. etrans; [|apply list_fmap_id]. apply list_fmap_ext.
    intros i p _. done.
  - rewrite IH. unfold update_key. rewrite <- list_fmap_compose.
    apply list_fmap_ext. intros i [k' a] _. simpl.
    destruct (decide (k' = k)) as [->|Hne]; simpl.
    + rewrite (decide_True (P := k ∈ k :: ks)) by left.
      case_decide; by rewrite ?Hf.
    + destruct (decide (k' ∈ ks)) as [Hin|Hnin].
      * rewrite decide_True by (by right). done.
      * rewrite decide_False; [done|]. by intros [?|?]%elem_of_cons.
Qed.

(** The loop converts every variable on its own. *)
Lemma kelvin_to_celsius_vars (ds : Dataset) :
  data_vars (kelvin_to_celsius ds)
  = prod_map id kelvin_to_celsius_var <$> data_vars ds.
Proof.
  unfold kelvin_to_celsius. simpl.
  rewrite foldl_update_key by apply kelvin_to_celsius_var_idem.
  apply list_fmap_ext. intros i [k a] Hi. simpl.
  rewrite decide_True; [done|].
  unfold keys. apply list_elem_of_fmap. exists (k, a). split; [done|].
  by eapply list_elem_of_lookup_2.
Qed.

Lemma kelvin_to_celsius_eq (ds : Dataset) :
  kelvin_to_celsius ds
  = {| coords := coords ds; tdim := tdim ds;
       data_vars := prod_map id kelvin_to_celsius_var <$> data_vars ds |}.
Proof.
  rewrite <- kelvin_to_celsius_vars. by destruct ds.
Qed.

(** C6, the claim as it stands fails: a variable whose unit begins with the
    Kelvin sign U+212A, which is neither "k" nor "K", is converted, because
    [lower()] turns that sign into "k".  Here the unit is the sign alone
    and the value 280 becomes 280 - 273.15, with the unit "C". *)
Lemma C6_counterexample :
  dv_attrs kelvin_sign_var !! "units" = Some kelvin_sign
  ∧ ¬ (∃ c rest, kelvin_sign = String c rest ∧ (c = "k"%char ∨ c = "K"%char))
  ∧ dv_values (kelvin_to_celsius_var kelvin_sign_var) 0 0 0
    = Some (280 - 273.15)%Q
  ∧ dv_attrs (kelvin_to_celsius_var kelvin_sign_var) !! "units" = Some "C".
Proof.
  split; [done|]. split; [|by split].
  intros (c&rest&Heq&[->| ->]); discriminate Heq.
Qed.

(** C6.  The unit conversion treats every data variable on its own; a
    variable is converted exactly when its attribute "units" begins with
    "k", with "K" or with the Kelvin sign U+212A, the three characters whose
    lower case is "k": then 273.15 is subtracted from every value and the
    unit becomes "C"; any other variable comes out identical.  Hence a
    variable whose unit is "C" is not touched, and converting twice is the
    same as converting once. *)
Theorem C6_kelvin_conversion_gated_and_idempotent (ds : Dataset) :
  data_vars (kelvin_to_celsius ds)
    = prod_map id kelvin_to_celsius_var <$> data_vars ds
  ∧ (∀ v, is_kelvin v = true ↔
          ∃ u, dv_attrs v !! "units" = Some u ∧
               ((∃ c rest, u = String c rest ∧ (c = "k"%char ∨ c = "K"%char))
                ∨ (∃ rest, u = kelvin_sign +:+ rest)))
  ∧ (∀ v, is_kelvin v = true →
          dv_attrs (kelvin_to_celsius_var v) !! "units" = Some "C" ∧
          ∀ i j k, dv_values (kelvin_to_celsius_var v) i j k
                   = vsub (dv_values v i j k) (Some 273.15%Q))
  ∧ (∀ v, is_kelvin v = false → kelvin_to_celsius_var v = v)
  ∧ (∀ v, dv_attrs v !! "units" = Some "C" → kelvin_to_celsius_var v = v)
  ∧ kelvin_to_celsius (kelvin_to_celsius ds) = kelvin_to_celsius ds.
Proof.
  split; [apply kelvin_to_celsius_vars|].
  split; [apply is_kelvin_spec|].
  split; [apply kelvin_to_celsius_var_converted|].
  split; [apply kelvin_to_celsius_var_unchanged|].
  split.
  - intros v Hv. by apply kelvin_to_celsius_var_unchanged, is_kelvin_celsius.
  - rewrite (kelvin_to_celsius_eq (kelvin_to_celsius ds)).
    rewrite (kelvin_to_celsius_eq ds). simpl. f_equal.
    rewrite <- list_fmap_compose. apply list_fmap_ext.
    intros i [k a] _. simpl. by rewrite kelvin_to_celsius_var_idem.
Qed.

(** ** Positions and selections *)

Lemma enumerate_snoc {A} (l : list A) (x : A) :
  enumerate (l ++ [x]) = enumerate l ++ [(length l, x)].
Proof.
  unfold enumerate. rewrite length_app. simpl.
  rewrite Nat.add_1_r, seq_S. simpl.
  rewrite zip_with_app by apply length_seq. done.
Qed.

Lemma positions_where_nil {A} (P : A → Prop) `{!∀ x, Decision (P x)} :
  positions_where P [] = [].
Proof. reflexivity. Qed.

Lemma positions_where_snoc {A} (P : A → Prop) `{!∀ x, Decision (P x)}
    (l : list A) (x : A) :
  positions_where P (l ++ [x])
  = positions_where P l ++ (if decide (P x) then [length l] else []).
Proof.
  unfold positions_where. rewrite enumerate_snoc, filter_app, fmap_app.
  f_equal. rewrite filter_cons, filter_nil. simpl. by case_decide.
Qed.

Lemma positions_where_length {A} (P : A → Prop) `{!∀ x, Decision (P x)}
    (l : list A) :
  length (positions_where P l) = length (filter P l).
Proof.
  induction l as [|x l IH] using rev_ind; [done|].
  rewrite positions_where_snoc, filter_app, !length_app, IH.
  rewrite filter_cons, filter_nil. by case_decide.
Qed.

Lemma positions_where_spec {A} (P : A → Prop) `{!∀ x, Decision (P x)}
    (l : list A) (i : nat) :
  i ∈ positions_where P l ↔ ∃ x, l !! i = Some x ∧ P x.
Proof.
  induction l as [|x l IH] using rev_ind.
  - rewrite positions_where_nil. split; [by intros ?%elem_of_nil|].
    by intros (x & ? & _).
  - rewrite positions_where_snoc, elem_of_app, IH. split.
    + intros [(y & Hy & HP)|Hi].
      * exists y. split; [|done]. by apply lookup_app_l_Some.
      * case_decide; [|by apply elem_of_nil in Hi].
        apply list_elem_of_singleton in Hi as ->. exists x. split; [|done].
        by rewrite lookup_app_r, Nat.sub_diag.
    + intros (y & Hy & HP). apply lookup_app_Some in Hy as [Hy|[Hge Hy]].
      * left. eauto.
      * right. apply list_lookup_singleton_Some in Hy as [H0 ->].
        rewrite decide_True by done. apply list_elem_of_singleton. lia.
Qed.

(** Selecting with [P] and then locating [Q] in the selection finds, once
    mapped back, the places of the original list where both hold. *)
Lemma positions_where_filter {A} (P Q : A → Prop)
    `{!∀ x, Decision (P x)} `{!∀ x, Decision (Q x)} (l : list A) :
  (λ i, positions_where P l !!! i) <$> positions_where Q (filter P l)
  = positions_where (λ x, P x ∧ Q x) l.
Proof.
  induction l as [|x l IH] using rev_ind; [done|].
  rewrite filter_app, filter_cons, filter_nil.
  rewrite (positions_where_snoc P), (positions_where_snoc (λ x, P x ∧ Q x)).
  destruct (decide (P x)) as [HP|HP].
  - rewrite positions_where_snoc, fmap_app. f_equal.
    + rewrite <- IH. apply list_fmap_ext. intros i p Hp.
      apply list_elem_of_lookup_2, positions_where_spec in Hp as (y & Hy & _).
      apply lookup_lt_Some in Hy. rewrite <- positions_where_length in Hy.
      by rewrite lookup_total_app_l.
    + destruct (decide (Q x)) as [HQ|HQ].
      * rewrite decide_True by done. simpl. f_equal.
        rewrite <- positions_where_length.
        by rewrite lookup_total_app_r, Nat.sub_diag.
      * rewrite decide_False by tauto. done.
  - rewrite !app_nil_r, decide_False by tauto. rewrite app_nil_r.
    rewrite <- IH. done.
Qed.

(** ** Distinct sorted labels and codes *)

Lemma elem_of_insert_unique (x y : Z) (l : list Z) :
  y ∈ insert_unique x l ↔ y = x ∨ y ∈ l.
Proof.
  induction l as [|z l IH]; simpl.
  - rewrite list_elem_of_singleton. split; [by left | by intros [?|?%elem_of_nil]].
  - repeat case_decide; rewrite ?elem_of_cons, ?IH; subst; tauto.
Qed.

Lemma elem_of_unique_sorted (y : Z) (l : list Z) :
  y ∈ unique_sorted l ↔ y ∈ l.
Proof.
  induction l as [|x l IH]; [done|]. simpl.
  rewrite elem_of_insert_unique, elem_of_cons, IH. done.
Qed.

Lemma index_of_Some (x : Z) (l : list Z) (p : nat) :
  index_of x l = Some p → l !! p = Some x.
Proof.
  revert p. induction l as [|y l IH]; intros p; simpl; [done|].
  case_decide as Hxy; [intros [= <-]; by subst|].
  destruct (index_of x l) as [q|]; simpl; [|done].
  intros [= <-]. simpl. by apply IH.
Qed.

Lemma index_of_None (x : Z) (l : list Z) :
  index_of x l = None → x ∉ l.
Proof.
  induction l as [|y l IH]; simpl; [intros _; apply not_elem_of_nil|].
  case_decide as Hxy; [done|].
  destruct (index_of x l) as [q|]; simpl; [done|].
  intros _ [?|?]%elem_of_cons; [done|]. by apply IH.
Qed.

Lemma index_of_elem (x : Z) (l : list Z) :
  x ∈ l → ∃ p, index_of x l = Some p.
Proof.
  intros Hin. destruct (index_of x l) as [p|] eqn:E; [eauto|].
  by apply index_of_None in E.
Qed.

(** ** The climatology engine *)

Lemma time_index_Ok (t : string) (cs : list (string * Coord)) (ts : list Timestamp) :
  t = "time" → assoc "time" cs = Some (TimeIndex ts) → time_index t cs = Ok ts.
Proof. intros -> H. unfold time_index. rewrite decide_True by done. by rewrite H. Qed.

(** The engine succeeds when the first variable has a datetime axis called
    "time" and the baseline slice is not empty. *)
Lemma monthly_anomaly_from_monthly_Ok (ds : Dataset) (bs be : Z)
    (name : string) (v : DataVar) (others : list (string * DataVar))
    (ts : list Timestamp) :
  data_vars ds = (name, v) :: others →
  tdim ds = "time" →
  assoc "time" (coords ds) = Some (TimeIndex ts) →
  filter (in_year_slice bs be) ts ≠ [] →
  monthly_anomaly_from_monthly ds bs be =
    Ok {| coords := filter (λ p, p.1 ∈ ["time"; "latitude"; "longitude"]) (coords ds);
          tdim := "time";
          data_vars :=
            [("t2m_mean_c", astype_float32 v);
             ("t2m_anomaly_c",
              {| dv_values := anomaly_values ts v bs be;
                 dv_dtype := float32;
                 dv_attrs := ∅ |})] |}.
Proof.
  intros Hvars Htdim Htime Hbase.
  assert (Hts : ts ≠ []) by (intros ->; by apply Hbase).
  unfold monthly_anomaly_from_monthly, getitem. rewrite Hvars, Htdim. simpl.
  rewrite decide_True by done. simpl.
  set (cs := filter _ (coords ds)).
  assert (Hcs : assoc "time" cs = Some (TimeIndex ts)).
  { unfold cs. rewrite <- Htime.
    apply assoc_filter.
    by left. }
  unfold sel_years. simpl. rewrite (time_index_Ok "time" cs ts) by done. simpl.
  unfold groupby_month_mean. simpl.
  rewrite (time_index_Ok "time" _ (filter (in_year_slice bs be) ts)); [|done|].
  2:{ rewrite assoc_update_key, Hcs. done. }
  simpl. rewrite decide_False by done. simpl.
  unfold groupby_month_sub. simpl.
  rewrite (time_index_Ok "time" cs ts) by done. simpl.
  rewrite decide_False by done. simpl. done.
Qed.

(** Every value of the anomaly array is the raw value minus the
    climatology of the month of its time step. *)
Lemma anomaly_values_spec (ts : list Timestamp) (v : DataVar) (bs be : Z)
    (i : nat) (t : Timestamp) (j k : nat) :
  ts !! i = Some t →
  anomaly_values ts v bs be i j k
  = vsub (dv_values v i j k) (baseline_climatology ts v bs be (ts_month t) j k).
Proof.
  intros Hi. unfold anomaly_values. f_equal.
  set (coord := unique_sorted (ts_month <$> ts)).
  set (base := filter (in_year_slice bs be) ts).
  set (months := unique_sorted (ts_month <$> base)).
  assert (∃ c, index_of (ts_month t) coord = Some c) as [c Hc].
  { apply index_of_elem, elem_of_unique_sorted, list_elem_of_fmap.
    exists t. split; [done|]. by eapply list_elem_of_lookup_2. }
  erewrite (list_lookup_total_correct _ i); last first.
  { rewrite list_lookup_fmap, Hi. simpl. by rewrite Hc. }
  simpl. rewrite (list_lookup_total_correct coord c (ts_month t))
    by (by apply index_of_Some).
  unfold baseline_climatology.
  destruct (index_of (ts_month t) months) as [p|] eqn:Hp.
  - rewrite (list_lookup_total_correct months p (ts_month t))
      by (by apply index_of_Some).
    f_equal.
    rewrite <- (positions_where_filter (in_year_slice bs be)
                 (λ t', ts_month t' = ts_month t) ts).
    by rewrite <- list_fmap_compose.
  - apply index_of_None in Hp.
    assert (Hnil : positions_where
              (λ t', in_year_slice bs be t' ∧ ts_month t' = ts_month t) ts = []).
    { apply elem_of_nil_inv. intros q (t' & Hq & Hin & Hm)%positions_where_spec.
      apply Hp, elem_of_unique_sorted, list_elem_of_fmap. exists t'.
      split; [done|]. apply list_elem_of_filter. split; [done|].
      by eapply list_elem_of_lookup_2. }
    rewrite Hnil. done.
Qed.

(** C1.  For a series whose first variable [v] has the datetime axis
    "time", in chronological order, and whose baseline slice holds at least
    one time step, the
    engine returns a dataset whose field "t2m_mean_c" has the values of
    [v], and whose field "t2m_anomaly_c" has, at every time step of the
    whole series and every cell, the raw value minus the climatology value
    of the calendar month of that time step; the climatology being the mean
    per calendar month over the inclusive baseline slice. *)
Theorem C1_anomaly_is_value_minus_monthly_climatology
    (ds : Dataset) (baseline_start baseline_end : Z)
    (name : string) (v : DataVar) (others : list (string * DataVar))
    (ts : list Timestamp) :
  data_vars ds = (name, v) :: others →
  tdim ds = "time" →
  assoc "time" (coords ds) = Some (TimeIndex ts) →
  chronological ts →
  (∃ t, t ∈ ts ∧ in_year_slice baseline_start baseline_end t) →
  ∃ out mean anom,
    monthly_anomaly_from_monthly ds baseline_start baseline_end = Ok out
    ∧ data_vars out = [("t2m_mean_c", mean); ("t2m_anomaly_c", anom)]
    ∧ assoc "time" (coords out) = Some (TimeIndex ts)
    ∧ (∀ i j k, dv_values mean i j k = dv_values v i j k)
    ∧ ∀ i t j k, ts !! i = Some t →
        dv_values anom i j k
        = vsub (dv_values v i j k)
               (baseline_climatology ts v baseline_start baseline_end
                  (ts_month t) j k).
Proof.
  intros Hvars Htdim Htime _ (t0 & Hin & Hslice).
  eexists _, _, _. split.
  { eapply monthly_anomaly_from_monthly_Ok; [done..|].
    intros Hnil. assert (t0 ∈ filter (in_year_slice baseline_start baseline_end) ts) as H
      by (by apply list_elem_of_filter).
    rewrite Hnil in H. by apply elem_of_nil in H. }
  simpl. split; [done|]. split.
  { rewrite <- Htime.
    apply assoc_filter. by left. }
  split; [done|].
  intros i t j k Hi. by apply anomaly_values_spec.
Qed.

Lemma two_years_chronological : chronological two_years.
Proof. unfold chronological, two_years. simpl. repeat constructor. Qed.

Lemma C1_witness :
  ∃ out mean anom,
    monthly_anomaly_from_monthly ds_two_years 1991 1991 = Ok out
    ∧ data_vars out = [("t2m_mean_c", mean); ("t2m_anomaly_c", anom)]
    ∧ assoc "time" (coords out) = Some (TimeIndex two_years)
    ∧ (∀ i j k, dv_values mean i j k = dv_values t2m_two_years i j k)
    ∧ ∀ i t j k, two_years !! i = Some t →
        dv_values anom i j k
        = vsub (dv_values t2m_two_years i j k)
               (baseline_climatology two_years t2m_two_years 1991 1991
                  (ts_month t) j k).
Proof.
  apply (C1_anomaly_is_value_minus_monthly_climatology
           ds_two_years 1991 1991 "t2m" t2m_two_years [] two_years);
    [reflexivity | reflexivity | reflexivity | exact two_years_chronological |].
  exists (month_start 1991 1). split.
  - apply (list_elem_of_lookup_2 _ 0%nat). reflexivity.
  - unfold in_year_slice, date_le. simpl. lia.
Defined.

(** An empty baseline slice makes the grouping fail. *)
Lemma monthly_anomaly_from_monthly_empty_baseline (ds : Dataset) (bs be : Z)
    (name : string) (v : DataVar) (others : list (string * DataVar))
    (ts : list Timestamp) :
  data_vars ds = (name, v) :: others →
  tdim ds = "time" →
  assoc "time" (coords ds) = Some (TimeIndex ts) →
  filter (in_year_slice bs be) ts = [] →
  monthly_anomaly_from_monthly ds bs be = Raise ValueError.
Proof.
  intros Hvars Htdim Htime Hbase.
  unfold monthly_anomaly_from_monthly, getitem. rewrite Hvars, Htdim. simpl.
  rewrite decide_True by done. simpl.
  set (cs := filter _ (coords ds)).
  assert (Hcs : assoc "time" cs = Some (TimeIndex ts)).
  { unfold cs. rewrite <- Htime. apply assoc_filter. by left. }
  unfold sel_years. simpl. rewrite (time_index_Ok "time" cs ts) by done. simpl.
  unfold groupby_month_mean. simpl.
  rewrite (time_index_Ok "time" _ (filter (in_year_slice bs be) ts)); [|done|].
  2:{ rewrite assoc_update_key, Hcs. done. }
  simpl. rewrite decide_True by done. done.
Qed.

(** C7 (counterexample).  No time step of the series 1991-1992 lies in the
    baseline 1980-1985, and the engine does not return a dataset of missing
    anomalies: it raises ValueError. *)
Lemma C7_counterexample :
  (∀ t, t ∈ two_years → ¬ in_year_slice 1980 1985 t)
  ∧ monthly_anomaly_from_monthly ds_two_years 1980 1985 = Raise ValueError
  ∧ ¬ ∃ out, monthly_anomaly_from_monthly ds_two_years 1980 1985 = Ok out.
Proof.
  assert (H : monthly_anomaly_from_monthly ds_two_years 1980 1985 = Raise ValueError)
    by reflexivity.
  split; [|split; [done|]].
  - intros t Ht Hs. assert (Hf : t ∈ filter (in_year_slice 1980 1985) two_years)
      by (by apply list_elem_of_filter).
    vm_compute in Hf. by apply elem_of_nil in Hf.
  - intros [out Hout]. rewrite H in Hout. discriminate.
Qed.

(** C7 (amended).  When no time step of a series in chronological order
    lies in the baseline slice, the climatology cannot be computed: grouping
    the empty baseline subset by calendar month raises ValueError, and the
    engine returns no dataset. *)
Theorem C7_empty_baseline_raises
    (ds : Dataset) (baseline_start baseline_end : Z)
    (name : string) (v : DataVar) (others : list (string * DataVar))
    (ts : list Timestamp) :
  data_vars ds = (name, v) :: others →
  tdim ds = "time" →
  assoc "time" (coords ds) = Some (TimeIndex ts) →
  chronological ts →
  (∀ t, t ∈ ts → ¬ in_year_slice baseline_start baseline_end t) →
  monthly_anomaly_from_monthly ds baseline_start baseline_end = Raise ValueError.
Proof.
  intros Hvars Htdim Htime _ Hempty.
  eapply monthly_anomaly_from_monthly_empty_baseline; [done..|].
  apply elem_of_nil_inv. intros t [Hs Ht]%list_elem_of_filter. by eapply Hempty.
Qed.

Lemma C7_witness :
  monthly_anomaly_from_monthly ds_two_years 1980 1985 = Raise ValueError.
Proof.
  apply (C7_empty_baseline_raises ds_two_years 1980 1985 "t2m" t2m_two_years [] two_years);
    [reflexivity | reflexivity | reflexivity | exact two_years_chronological |].
  intros t Ht Hs.
  assert (Hf : t ∈ filter (in_year_slice 1980 1985) two_years)
    by (by apply list_elem_of_filter).
  vm_compute in Hf. by apply elem_of_nil in Hf.
Defined.

(** ** Means of anomalies *)

Lemma observed_cons_Some (x : Q) (l : list value) :
  observed (Some x :: l) = x :: observed l.
Proof. reflexivity. Qed.

Lemma observed_cons_None (l : list value) :
  observed (None :: l) = observed l.
Proof. reflexivity. Qed.

Lemma observed_centered (c : Q) (l : list value) :
  observed ((λ x, vsub x (Some c)) <$> l) = (λ x, (x - c)%Q) <$> observed l.
Proof.
  induction l as [|[x|] l IH]; [done| |].
  - rewrite fmap_cons. simpl vsub.
    rewrite !observed_cons_Some, fmap_cons. by f_equal.
  - rewrite fmap_cons. simpl vsub. by rewrite !observed_cons_None.
Qed.

Lemma Qsum_centered (c : Q) (xs : list Q) :
  (Qsum ((λ x, x - c) <$> xs) == Qsum xs - inject_Z (Z.of_nat (length xs)) * c)%Q.
Proof.
  induction xs as [|x xs IH].
  - simpl. ring.
  - rewrite fmap_cons. unfold Qsum in *. simpl foldr. rewrite IH.
    simpl length. rewrite Nat2Z.inj_succ, <- Z.add_1_r, inject_Z_plus. ring.
Qed.

(** The mean of the deviations from the mean is zero, whenever at least
    one value is observed. *)
Lemma nanmean_centered (l : list value) :
  observed l ≠ [] →
  ∃ q, nanmean ((λ x, vsub x (nanmean l)) <$> l) = Some q ∧ (q == 0)%Q.
Proof.
  intros Hobs.
  destruct (observed l) as [|x xs] eqn:E; [done|].
  set (n := inject_Z (Z.of_nat (length (x :: xs)))).
  set (c := (Qsum (x :: xs) / n)%Q).
  assert (Hm : nanmean l = Some c) by (unfold nanmean; by rewrite E).
  rewrite Hm. unfold nanmean. rewrite observed_centered, E.
  exists (Qsum ((λ y, y - c) <$> x :: xs)
          / inject_Z (Z.of_nat (length ((λ y, y - c) <$> x :: xs))))%Q.
  split; [reflexivity|].
  rewrite Qsum_centered, length_fmap. fold n. unfold c.
  assert (Hn : ¬ (n == 0)%Q).
  { unfold n. simpl length. rewrite Nat2Z.inj_succ.
    unfold Qeq. simpl. lia. }
  field. done.
Qed.

(** C3, the claim as it stands fails: where the baseline holds no observed
    value for a calendar month, the anomalies of that month are missing and
    so is their mean.  The field here has no value in any January (the time
    steps 0 and 12 of the years 1991 and 1992): the check gives NaN for
    January at every cell, not zero. *)
Lemma C3_counterexample :
  ∃ out anom base check,
    monthly_anomaly_from_monthly ds_no_january 1991 1992 = Ok out
    ∧ getitem "t2m_anomaly_c" out = Ok anom
    ∧ sel_years 1991 1992 anom = Ok base
    ∧ groupby_month_mean base = Ok check
    ∧ ma_months check !! 0%nat = Some 1
    ∧ ∀ j k, ma_values check 0%nat j k = NaN.
Proof.
  eexists _, _, _, _. split; [reflexivity|]. split; [reflexivity|].
  split; [reflexivity|]. split; [reflexivity|]. split; [reflexivity|].
  intros j k. reflexivity.
Qed.

(** Without any observed value, the deviations from the mean are all
    missing, and so is their mean. *)
Lemma nanmean_unobserved (l : list value) :
  observed l = [] → nanmean ((λ x, vsub x (nanmean l)) <$> l) = NaN.
Proof.
  intros H.
  assert (Hm : nanmean l = None) by (unfold nanmean; by rewrite H).
  rewrite Hm.
  assert (E : observed ((λ x, vsub x None) <$> l) = []).
  { clear. induction l as [|[x|] l IH]; [done| |];
      rewrite fmap_cons; simpl vsub; by rewrite observed_cons_None. }
  unfold nanmean. by rewrite E.
Qed.

(** C3.  Take the anomaly field that the engine returns for a series in
    chronological order, restrict it to the baseline slice and average it
    per calendar month, with the very operations that compute the
    climatology.  For every calendar month [m] of the baseline and every
    cell [(j, k)]: with at least one observed baseline value of that month
    at the cell, that mean is zero (in exact arithmetic); without any, it is
    missing. *)
Theorem C3_baseline_mean_of_anomaly_is_zero
    (ds : Dataset) (baseline_start baseline_end : Z)
    (name : string) (v : DataVar) (others : list (string * DataVar))
    (ts : list Timestamp) (m : Z) (j k : nat) :
  data_vars ds = (name, v) :: others →
  tdim ds = "time" →
  assoc "time" (coords ds) = Some (TimeIndex ts) →
  chronological ts →
  (∃ t, t ∈ ts ∧ in_year_slice baseline_start baseline_end t ∧ ts_month t = m) →
  ∃ out anom base check g,
    monthly_anomaly_from_monthly ds baseline_start baseline_end = Ok out
    ∧ getitem "t2m_anomaly_c" out = Ok anom
    ∧ sel_years baseline_start baseline_end anom = Ok base
    ∧ groupby_month_mean base = Ok check
    ∧ ma_months check !! g = Some m
    ∧ ((∃ i t, ts !! i = Some t ∧ in_year_slice baseline_start baseline_end t
               ∧ ts_month t = m ∧ is_Some (dv_values v i j k)) →
       ∃ q, ma_values check g j k = Some q ∧ (q == 0)%Q)
    ∧ ((∀ i t, ts !! i = Some t → in_year_slice baseline_start baseline_end t →
               ts_month t = m → dv_values v i j k = NaN) →
       ma_values check g j k = NaN).
Proof.
  intros Hvars Htdim Htime _ (t0 & Ht0 & Hs0 & Hm0).
  set (bs := baseline_start) in *. set (be := baseline_end) in *.
  assert (Hin0 : t0 ∈ filter (in_year_slice bs be) ts).
  { by apply list_elem_of_filter. }
  assert (Hbase : filter (in_year_slice bs be) ts ≠ []) by (by eapply elem_of_not_nil).
  set (months := unique_sorted (ts_month <$> filter (in_year_slice bs be) ts)).
  assert (∃ g, index_of m months = Some g) as [g Hg].
  { apply index_of_elem, elem_of_unique_sorted, list_elem_of_fmap. by exists t0. }
  set (vals := (λ i, dv_values v i j k) <$>
               positions_where (λ t, in_year_slice bs be t ∧ ts_month t = m) ts).
  eexists _, _, _, _, g.
  split; [by eapply monthly_anomaly_from_monthly_Ok|].
  unfold getitem. simpl. split; [reflexivity|].
  assert (Hcs : assoc "time"
            (filter (λ p : string * Coord, p.1 ∈ ["time"; "latitude"; "longitude"])
               (filter (λ p : string * Coord, p.1 ∈ ["time"; "latitude"; "longitude"])
                  (coords ds))) = Some (TimeIndex ts)).
  { rewrite <- Htime. rewrite !assoc_filter; [done|by left..]. }
  unfold sel_years. simpl. rewrite (time_index_Ok "time" _ ts) by done. simpl.
  split; [reflexivity|].
  unfold groupby_month_mean. simpl.
  rewrite (time_index_Ok "time" _ (filter (in_year_slice bs be) ts)); [|done|].
  2:{ rewrite assoc_update_key, Hcs. done. }
  simpl. rewrite decide_False by done.
  split; [reflexivity|]. simpl. fold months.
  split; [by apply index_of_Some|].
  rewrite (list_lookup_total_correct months g m) by (by apply index_of_Some).
  assert (Hlist :
    (λ i, anomaly_values ts v bs be (positions_where (in_year_slice bs be) ts !!! i) j k)
    <$> positions_where (λ t, ts_month t = m) (filter (in_year_slice bs be) ts)
    = (λ x, vsub x (nanmean vals)) <$> vals).
  { transitivity ((λ i, anomaly_values ts v bs be i j k) <$>
                  ((λ i, positions_where (in_year_slice bs be) ts !!! i) <$>
                   positions_where (λ t, ts_month t = m)
                     (filter (in_year_slice bs be) ts))).
    { by rewrite <- list_fmap_compose. }
    rewrite (positions_where_filter (in_year_slice bs be) (λ t, ts_month t = m) ts).
    unfold vals. rewrite <- list_fmap_compose.
    apply list_fmap_ext. intros p i Hp. simpl.
    apply list_elem_of_lookup_2, positions_where_spec in Hp as (t & Ht & _ & Hm).
    rewrite (anomaly_values_spec ts v bs be i t j k Ht). rewrite Hm. done. }
  split.
  - intros (i0 & t1 & Hi0 & Hs1 & Hm1 & [x Hx]).
    assert (Hobs : observed vals ≠ []).
    { assert (Hel : Some x ∈ vals).
      { unfold vals. apply list_elem_of_fmap. exists i0. split; [done|].
        apply positions_where_spec. by exists t1. }
      intros Hnil. assert (Hx' : x ∈ observed vals).
      { unfold observed. apply list_elem_of_omap. by exists (Some x). }
      rewrite Hnil in Hx'. by apply elem_of_nil in Hx'. }
    destruct (nanmean_centered vals Hobs) as (q & Hq & Hq0).
    exists q. split; [|done]. rewrite <- Hq. f_equal. exact Hlist.
  - intros Hnone.
    assert (Hobs : observed vals = []).
    { apply elem_of_nil_inv. intros x Hx. unfold observed in Hx.
      apply list_elem_of_omap in Hx as (o & Ho & Hox). simpl in Hox. subst o.
      unfold vals in Ho. apply list_elem_of_fmap in Ho as (i & Hi & Hp).
      apply positions_where_spec in Hp as (t & Ht & Hs & Hm).
      rewrite (Hnone i t Ht Hs Hm) in Hi. discriminate. }
    rewrite <- (nanmean_unobserved vals Hobs). f_equal. exact Hlist.
Qed.

Lemma C3_witness :
  ∃ out anom base check g q,
    monthly_anomaly_from_monthly ds_two_years 1991 1992 = Ok out
    ∧ getitem "t2m_anomaly_c" out = Ok anom
    ∧ sel_years 1991 1992 anom = Ok base
    ∧ groupby_month_mean base = Ok check
    ∧ ma_months check !! g = Some 1
    ∧ ma_values check g 0%nat 0%nat = Some q
    ∧ (q == 0)%Q.
Proof.
  destruct (C3_baseline_mean_of_anomaly_is_zero
              ds_two_years 1991 1992 "t2m" t2m_two_years [] two_years 1 0%nat 0%nat)
    as (out & anom & base & check & g & H1 & H2 & H3 & H4 & H5 & Hobserved & _);
    [reflexivity | reflexivity | reflexivity | exact two_years_chronological | |].
  - exists (month_start 1991 1). split; [|split; [|reflexivity]].
    + apply (list_elem_of_lookup_2 _ 0%nat). reflexivity.
    + unfold in_year_slice, date_le. simpl. lia.
  - destruct Hobserved as (q & Hq & Hq0).
    + exists 0%nat, (month_start 1991 1).
      split; [reflexivity|]. split; [|split; [reflexivity|by eexists]].
      unfold in_year_slice, date_le. simpl. lia.
    + by exists out, anom, base, check, g, q.
Defined.

(** ** Stable sorting *)

Section stable_sort.
Context {A : Type} (leb : A → A → bool).
Hypothesis leb_total : ∀ a b, leb a b = true ∨ leb b a = true.
Hypothesis leb_trans : ∀ a b c, leb a b = true → leb b c = true → leb a c = true.

Local Abbreviation le := (λ a b : A, leb a b = true).

Lemma insert_sorted_perm (x : A) (l : list A) : insert_sorted leb x l ≡ₚ x :: l.
Proof.
  induction l as [|y l IH]; simpl; [done|].
  destruct (leb x y); [done|]. rewrite IH. apply Permutation_swap.
Qed.

Lemma stable_sort_perm (l : list A) : stable_sort leb l ≡ₚ l.
Proof.
  induction l as [|x l IH]; simpl; [done|].
  unfold stable_sort in *. simpl. rewrite insert_sorted_perm. by f_equiv.
Qed.

Lemma stable_sort_length (l : list A) : length (stable_sort leb l) = length l.
Proof. by rewrite stable_sort_perm. Qed.

Lemma insert_sorted_sorted (x : A) (l : list A) :
  StronglySorted le l → StronglySorted le (insert_sorted leb x l).
Proof.
  induction 1 as [|y l Hl IH Hy]; simpl.
  - repeat constructor.
  - destruct (leb x y) eqn:Hxy.
    + constructor; [by constructor|]. constructor; [done|].
      eapply Forall_impl; [exact Hy|]. intros z Hz. by eapply leb_trans.
    + constructor; [done|]. rewrite insert_sorted_perm.
      constructor; [|done]. destruct (leb_total x y); [congruence | done].
Qed.

Lemma stable_sort_sorted (l : list A) : StronglySorted le (stable_sort leb l).
Proof.
  induction l as [|x l IH]; [constructor|].
  unfold stable_sort in *. simpl. by apply insert_sorted_sorted.
Qed.

(** A stable sort commutes with selections. *)
Lemma filter_insert_sorted (P : A → Prop) `{!∀ x, Decision (P x)}
    (x : A) (l : list A) :
  StronglySorted le l →
  filter P (insert_sorted leb x l)
  = if decide (P x) then insert_sorted leb x (filter P l) else filter P l.
Proof.
  induction 1 as [|y l Hl IH Hy]; simpl.
  - rewrite filter_cons, filter_nil. by case_decide.
  - destruct (leb x y) eqn:Hxy.
    + rewrite filter_cons. case_decide as HPx; [|done].
      destruct (filter P (y :: l)) as [|z l'] eqn:E; [done|]. simpl.
      assert (Hz : z ∈ y :: l).
      { assert (Hin : z ∈ filter P (y :: l)) by (rewrite E; left).
        by apply list_elem_of_filter in Hin as [_ ?]. }
      assert (Hxz : leb x z = true).
      { apply elem_of_cons in Hz as [->|Hz]; [done|].
        eapply leb_trans; [exact Hxy|]. by eapply Forall_forall in Hy. }
      by rewrite Hxz.
    + rewrite !filter_cons, IH. destruct (decide (P y)), (decide (P x)); simpl;
        rewrite ?Hxy; done.
Qed.

Lemma filter_stable_sort (P : A → Prop) `{!∀ x, Decision (P x)} (l : list A) :
  filter P (stable_sort leb l) = stable_sort leb (filter P l).
Proof.
  induction l as [|x l IH]; [done|].
  unfold stable_sort in *. simpl.
  rewrite filter_insert_sorted by apply stable_sort_sorted.
  rewrite filter_cons. case_decide; simpl; by rewrite IH.
Qed.
End stable_sort.

Lemma StronglySorted_fmap_2 {A B} (R : relation B) (f : A → B) (l : list A) :
  StronglySorted (λ a b, R (f a) (f b)) l → StronglySorted R (f <$> l).
Proof.
  induction 1 as [|x l Hl IH Hx]; simpl; constructor; [done|].
  by apply Forall_fmap.
Qed.

Lemma elem_of_enumerate {A} (l : list A) (i : nat) (x : A) :
  (i, x) ∈ enumerate l ↔ l !! i = Some x.
Proof.
  induction l as [|y l IH] using rev_ind.
  - split; [by intros ?%elem_of_nil | done].
  - rewrite enumerate_snoc, elem_of_app, IH, list_elem_of_singleton. split.
    + intros [H|[= -> ->]]; [by apply lookup_app_l_Some|].
      by rewrite lookup_app_r, Nat.sub_diag.
    + intros [H|[Hge H]]%lookup_app_Some; [by left|right].
      apply list_lookup_singleton_Some in H as [H0 ->]. f_equal. lia.
Qed.

Lemma enumerate_fst {A} (l : list A) : (enumerate l).*1 = seq 0 (length l).
Proof. unfold enumerate. apply fst_zip. by rewrite length_seq. Qed.

Lemma enumerate_snd {A} (l : list A) : (enumerate l).*2 = l.
Proof. unfold enumerate. apply snd_zip. by rewrite length_seq. Qed.

(** ** Longitudes (lines 143-149) *)

Local Open Scope Q_scope.

Lemma Qfloor_bounds (y : Q) :
  inject_Z (Qfloor y) <= y ∧ y < inject_Z (Qfloor y) + 1.
Proof.
  split; [apply Qfloor_le|].
  change 1 with (inject_Z 1). rewrite <- inject_Z_plus. apply Qlt_floor.
Qed.

(** The normalized longitude differs from the original by a whole number
    of turns. *)
Lemma wrap_longitude_turns (L : Q) :
  wrap_longitude L == L - 360 * inject_Z (Qfloor ((L + 180) / 360)).
Proof. unfold wrap_longitude, Qmod. ring. Qed.

Lemma wrap_longitude_range (L : Q) :
  -180 <= wrap_longitude L ∧ wrap_longitude L < 180.
Proof.
  rewrite wrap_longitude_turns.
  destruct (Qfloor_bounds ((L + 180) / 360)) as [H1 H2].
  set (f := inject_Z (Qfloor ((L + 180) / 360))) in *.
  assert (E : 360 * ((L + 180) / 360) == L + 180) by field.
  assert (H1' : 360 * f <= L + 180).
  { apply (Qmult_le_l _ _ 360) in H1; [|reflexivity]. by rewrite E in H1. }
  assert (H2' : L + 180 < 360 * (f + 1)).
  { apply (Qmult_lt_l _ _ 360) in H2; [|reflexivity]. by rewrite E in H2. }
  split; lra.
Qed.

Lemma wrap_longitude_180 : wrap_longitude 180 == -180.
Proof. reflexivity. Qed.

Lemma wrap_longitude_0 : wrap_longitude 0 == 0.
Proof. reflexivity. Qed.

Lemma inject_Z_small (z : Z) : -1 < inject_Z z → inject_Z z < 1 → z = 0%Z.
Proof.
  change (-1) with (inject_Z (-1)). change 1 with (inject_Z 1).
  rewrite <- !Zlt_Qlt. lia.
Qed.

(** On [0, 360) the normalization introduces no duplicate. *)
Lemma wrap_longitude_inj (a b : Q) :
  0 <= a < 360 → 0 <= b < 360 → wrap_longitude a == wrap_longitude b → a == b.
Proof.
  intros [Ha1 Ha2] [Hb1 Hb2]. rewrite !wrap_longitude_turns.
  set (za := Qfloor ((a + 180) / 360)). set (zb := Qfloor ((b + 180) / 360)).
  intros H.
  assert (Hz : inject_Z (za - zb) == (a - b) / 360).
  { unfold Z.sub. rewrite inject_Z_plus, inject_Z_opp. field_simplify_eq. lra. }
  assert (Hd : -1 < (a - b) / 360 ∧ (a - b) / 360 < 1).
  { split.
    - apply Qlt_shift_div_l; [reflexivity | lra].
    - apply Qlt_shift_div_r; [reflexivity | lra]. }
  assert (Heq : (za - zb)%Z = 0%Z).
  { apply inject_Z_small; rewrite Hz; tauto. }
  assert (za = zb) as Hzz by lia. rewrite Hzz in H. lra.
Qed.

Lemma Qle_bool_total (a b : Q) : Qle_bool a b = true ∨ Qle_bool b a = true.
Proof. rewrite !Qle_bool_iff. destruct (Qlt_le_dec a b); [left | by right]. by apply Qlt_le_weak. Qed.

Lemma Qle_bool_trans (a b c : Q) :
  Qle_bool a b = true → Qle_bool b c = true → Qle_bool a c = true.
Proof. rewrite !Qle_bool_iff. apply Qle_trans. Qed.

Lemma argsort_perm (xs : list Q) : argsort xs ≡ₚ seq 0 (length xs).
Proof.
  unfold argsort. rewrite <- enumerate_fst. apply fmap_Permutation.
  apply stable_sort_perm.
Qed.

(** Reading the values at the sorted positions gives the sorted values. *)
Lemma argsort_values (xs : list Q) :
  (λ p, xs !!! p) <$> argsort xs
  = (stable_sort (λ p q : nat * Q, Qle_bool p.2 q.2) (enumerate xs)).*2.
Proof.
  unfold argsort. rewrite <- list_fmap_compose.
  apply list_fmap_ext. intros i [p x] Hi. simpl.
  apply list_elem_of_lookup_2 in Hi. rewrite stable_sort_perm in Hi.
  apply elem_of_enumerate in Hi. by apply list_lookup_total_correct.
Qed.

Lemma StronglySorted_strengthen {A B} (R R' : relation A) (f : A → B) (l : list A) :
  (∀ a b, a ∈ l → b ∈ l → R a b → f a ≠ f b → R' a b) →
  NoDup (f <$> l) → StronglySorted R l → StronglySorted R' l.
Proof.
  intros HR Hnd Hs. induction Hs as [|x l Hl IH Hx]; [constructor|].
  rewrite fmap_cons in Hnd. apply NoDup_cons in Hnd as [Hx' Hnd].
  constructor.
  - apply IH; [|done]. intros a b Ha Hb. apply HR; by right.
  - apply Forall_forall. intros y Hy. apply HR; [left | by right | |].
    + by eapply Forall_forall in Hx.
    + intros Hf. apply Hx'. rewrite Hf. apply list_elem_of_fmap. eauto.
Qed.

(** Sorting pairwise different values gives a strictly increasing list. *)
Lemma argsort_strictly_sorted (xs : list Q) :
  (∀ i j x y, xs !! i = Some x → xs !! j = Some y → x == y → i = j) →
  StronglySorted Qlt ((λ p, xs !!! p) <$> argsort xs).
Proof.
  intros Hdistinct. rewrite argsort_values.
  set (sp := stable_sort _ (enumerate xs)).
  apply (StronglySorted_fmap_2 Qlt snd).
  apply (StronglySorted_strengthen (λ a b : nat * Q, Qle_bool a.2 b.2 = true) _ fst).
  - intros [i x] [j y] Ha Hb Hle Hne. simpl in *.
    unfold sp in Ha, Hb. rewrite stable_sort_perm in Ha, Hb.
    apply elem_of_enumerate in Ha, Hb. apply Qle_bool_iff in Hle.
    apply Qle_lt_or_eq in Hle as [Hlt|Heq]; [done|].
    destruct Hne. by eapply Hdistinct.
  - unfold sp. rewrite stable_sort_perm, enumerate_fst. apply NoDup_seq.
  - apply stable_sort_sorted.
    + intros a b. apply Qle_bool_total.
    + intros a b c. apply Qle_bool_trans.
Qed.

Lemma correct_longitude_with_Ok (wrap : Q → Q) (ds : Dataset) (xs : list Q) :
  assoc "longitude" (coords ds) = Some (FloatIndex xs) →
  ∃ ds', correct_longitude_with wrap ds = Ok ds'
    ∧ tdim ds' = tdim ds
    ∧ assoc "longitude" (coords ds')
      = Some (FloatIndex ((λ p, wrap (xs !!! p)) <$> argsort (wrap <$> xs)))
    ∧ (∀ name, name ≠ "longitude" → assoc name (coords ds') = assoc name (coords ds))
    ∧ data_vars ds'
      = prod_map id (isel_longitude (argsort (wrap <$> xs))) <$> data_vars ds.
Proof.
  intros Hlon. unfold correct_longitude_with. rewrite Hlon.
  eexists. split; [reflexivity|]. simpl. split; [done|]. split; [|split; [|done]].
  - rewrite !assoc_update_key, Hlon. simpl. do 2 f_equal.
    apply list_fmap_ext. intros i p Hp. simpl.
    apply list_elem_of_lookup_2 in Hp. rewrite argsort_perm in Hp.
    apply elem_of_seq in Hp. rewrite length_fmap in Hp.
    apply list_lookup_total_fmap. lia.
  - intros name Hne. by rewrite !assoc_update_key_ne.
Qed.

Lemma correct_longitude_Ok (ds : Dataset) (xs : list Q) :
  assoc "longitude" (coords ds) = Some (FloatIndex xs) →
  ∃ ds', correct_longitude ds = Ok ds'
    ∧ tdim ds' = tdim ds
    ∧ assoc "longitude" (coords ds')
      = Some (FloatIndex ((λ p, wrap_longitude (xs !!! p)) <$> argsort (wrap_longitude <$> xs)))
    ∧ (∀ name, name ≠ "longitude" → assoc name (coords ds') = assoc name (coords ds))
    ∧ data_vars ds'
      = prod_map id (isel_longitude (argsort (wrap_longitude <$> xs))) <$> data_vars ds.
Proof. apply correct_longitude_with_Ok. Qed.

Lemma StronglySorted_impl {A} (R R' : relation A) (l : list A) :
  (∀ a b, R a b → R' a b) → StronglySorted R l → StronglySorted R' l.
Proof.
  intros HR. induction 1 as [|x l Hl IH Hx]; constructor; [done|].
  eapply Forall_impl; [exact Hx|]. intros y. apply HR.
Qed.

Lemma wrapped_at_positions (wrap : Q → Q) (xs : list Q) :
  (λ p, wrap (xs !!! p)) <$> argsort (wrap <$> xs)
  = (λ p, (wrap <$> xs) !!! p) <$> argsort (wrap <$> xs).
Proof.
  apply list_fmap_ext. intros i p Hp. simpl. symmetry.
  apply list_elem_of_lookup_2 in Hp. rewrite argsort_perm in Hp.
  apply elem_of_seq in Hp. rewrite length_fmap in Hp.
  apply list_lookup_total_fmap. lia.
Qed.

(** Whatever line 146 computes, the sort puts the result in ascending
    order. *)
Lemma wrapped_longitudes_sorted (wrap : Q → Q) (xs : list Q) :
  StronglySorted Qle ((λ p, wrap (xs !!! p)) <$> argsort (wrap <$> xs)).
Proof.
  rewrite wrapped_at_positions, argsort_values.
  apply (StronglySorted_fmap_2 Qle snd).
  eapply StronglySorted_impl; last first.
  - apply stable_sort_sorted.
    + intros a b. apply Qle_bool_total.
    + intros a b c. apply Qle_bool_trans.
  - intros a b. apply Qle_bool_iff.
Qed.

(** The order is strict when the results are pairwise different. *)
Lemma wrapped_longitudes_strictly_sorted (wrap : Q → Q) (xs : list Q) :
  (∀ i j x y, xs !! i = Some x → xs !! j = Some y → wrap x == wrap y → i = j) →
  StronglySorted Qlt ((λ p, wrap (xs !!! p)) <$> argsort (wrap <$> xs)).
Proof.
  intros Hdistinct. rewrite wrapped_at_positions.
  apply argsort_strictly_sorted. intros i j x' y' Hi Hj Heq.
  apply list_lookup_fmap_Some in Hi as (x & -> & Hx).
  apply list_lookup_fmap_Some in Hj as (y & -> & Hy).
  by apply (Hdistinct i j x y Hx Hy).
Qed.

Lemma isel_longitude_values (perm : list nat) (vars : list (string * DataVar))
    (name : string) (v : DataVar) :
  assoc name vars = Some v →
  ∃ v', assoc name (prod_map id (isel_longitude perm) <$> vars) = Some v'
        ∧ ∀ i j k, dv_values v' i j k = dv_values v i j (perm !!! k).
Proof. intros H. rewrite assoc_fmap, H. simpl. by eexists. Qed.

(** C2, the claim as it stands fails: the program computes line 146 in
    double precision, where two different longitudes of [0, 360) can get the
    same normalized value.  0.0 and 359.99999999999994, the double before
    360, both become 0.0: the sum 359.99999999999994 + 180 lies halfway
    between two doubles and is rounded to 540.0.  The grid with these two
    longitudes comes out with the longitude 0.0 twice, so that its
    coordinate is not strictly increasing.  In exact arithmetic the second
    longitude becomes -2^-44. *)
Lemma C2_counterexample :
  (0 <= 0 < 360 ∧ 0 <= below_360 < 360 ∧ ¬ 0 == below_360)
  ∧ (round_double 0 == 0 ∧ round_double below_360 == below_360)
  ∧ wrap_longitude_double 0 = 0
  ∧ wrap_longitude_double below_360 = 0
  ∧ wrap_longitude below_360 == - (1 / 2 ^ 44)
  ∧ ∃ ds',
      correct_longitude_with wrap_longitude_double ds_close_longitudes = Ok ds'
      ∧ assoc "longitude" (coords ds') = Some (FloatIndex [0; 0])
      ∧ ¬ StronglySorted Qlt [0; 0].
Proof.
  split; [by vm_compute|]. split; [by vm_compute|].
  split; [by vm_compute|]. split; [by vm_compute|]. split; [by vm_compute|].
  eexists. split; [reflexivity|]. split; [by vm_compute|].
  intros H. apply StronglySorted_inv in H as [_ H].
  apply Forall_cons in H as [H _]. by vm_compute in H.
Qed.

(** C2.  In exact arithmetic every longitude of [0, 360) is mapped to
    ((L + 180) mod 360) - 180, which lies in [-180, 180); 180 becomes -180
    and 0 stays 0; different longitudes stay different; and when the
    longitudes of a dataset lie in [0, 360) and are pairwise different, the
    normalizer returns the dataset with its longitude coordinate strictly
    increasing, the new coordinate and the values of every data variable
    being reindexed by one and the same permutation of the positions.  In
    double precision 180 still becomes -180 and 0 stays 0; and in whatever
    arithmetic line 146 is computed ([wrap], so in double precision with
    [wrap_longitude_double]), for any longitudes the normalizer returns the
    dataset with its longitude coordinate in ascending order, reindexed with
    the values of every data variable by one permutation; that order is
    strict when the normalized longitudes are pairwise different. *)
Theorem C2_longitude_wrapped_and_sorted (ds : Dataset) (xs : list Q) :
  assoc "longitude" (coords ds) = Some (FloatIndex xs) →
  (∀ x, x ∈ xs → 0 <= x < 360) →
  (∀ i j x y, xs !! i = Some x → xs !! j = Some y → x == y → i = j) →
  (∀ L, wrap_longitude L = Qmod (L + 180) 360 - 180)
  ∧ (∀ L, 0 <= L < 360 → -180 <= wrap_longitude L ∧ wrap_longitude L < 180)
  ∧ wrap_longitude 180 == -180
  ∧ wrap_longitude 0 == 0
  ∧ (∀ a b, 0 <= a < 360 → 0 <= b < 360 →
            wrap_longitude a == wrap_longitude b → a == b)
  ∧ (∃ ds' perm,
      correct_longitude ds = Ok ds'
      ∧ perm ≡ₚ seq 0 (length xs)
      ∧ assoc "longitude" (coords ds')
        = Some (FloatIndex ((λ p, wrap_longitude (xs !!! p)) <$> perm))
      ∧ StronglySorted Qlt ((λ p, wrap_longitude (xs !!! p)) <$> perm)
      ∧ keys (data_vars ds') = keys (data_vars ds)
      ∧ ∀ name v, assoc name (data_vars ds) = Some v →
          ∃ v', assoc name (data_vars ds') = Some v'
            ∧ ∀ i j k, dv_values v' i j k = dv_values v i j (perm !!! k))
  ∧ wrap_longitude_double 180 == -180
  ∧ wrap_longitude_double 0 == 0
  ∧ (∀ wrap : Q → Q, ∃ ds' perm,
      correct_longitude_with wrap ds = Ok ds'
      ∧ perm ≡ₚ seq 0 (length xs)
      ∧ assoc "longitude" (coords ds')
        = Some (FloatIndex ((λ p, wrap (xs !!! p)) <$> perm))
      ∧ StronglySorted Qle ((λ p, wrap (xs !!! p)) <$> perm)
      ∧ ((∀ i j x y, xs !! i = Some x → xs !! j = Some y →
                     wrap x == wrap y → i = j) →
         StronglySorted Qlt ((λ p, wrap (xs !!! p)) <$> perm))
      ∧ keys (data_vars ds') = keys (data_vars ds)
      ∧ ∀ name v, assoc name (data_vars ds) = Some v →
          ∃ v', assoc name (data_vars ds') = Some v'
            ∧ ∀ i j k, dv_values v' i j k = dv_values v i j (perm !!! k)).
Proof.
  intros Hlon Hrange Hdistinct.
  split; [done|]. split; [intros L _; apply wrap_longitude_range|].
  split; [apply wrap_longitude_180|]. split; [apply wrap_longitude_0|].
  split; [apply wrap_longitude_inj|].
  split; [|split; [by vm_compute|split; [by vm_compute|]]].
  - destruct (correct_longitude_Ok ds xs Hlon) as (ds' & Hok & _ & Hcoord & _ & Hvars).
    exists ds', (argsort (wrap_longitude <$> xs)).
    split; [done|]. split; [by rewrite argsort_perm, length_fmap|].
    split; [done|]. split; [|split].
    + apply wrapped_longitudes_strictly_sorted. intros i j x y Hx Hy Heq.
      apply (Hdistinct i j x y Hx Hy).
      apply wrap_longitude_inj; [apply Hrange..|done];
        by eapply list_elem_of_lookup_2.
    + rewrite Hvars. unfold keys. rewrite <- list_fmap_compose.
      apply list_fmap_ext. by intros i [??] _.
    + intros name v Hv. rewrite Hvars. by apply isel_longitude_values.
  - intros wrap.
    destruct (correct_longitude_with_Ok wrap ds xs Hlon)
      as (ds' & Hok & _ & Hcoord & _ & Hvars).
    exists ds', (argsort (wrap <$> xs)).
    split; [done|]. split; [by rewrite argsort_perm, length_fmap|].
    split; [done|]. split; [apply wrapped_longitudes_sorted|].
    split; [apply wrapped_longitudes_strictly_sorted|]. split.
    + rewrite Hvars. unfold keys. rewrite <- list_fmap_compose.
      apply list_fmap_ext. by intros i [??] _.
    + intros name v Hv. rewrite Hvars. by apply isel_longitude_values.
Qed.

Lemma C2_witness :
  (∀ L, wrap_longitude L = Qmod (L + 180) 360 - 180)
  ∧ (∀ L, 0 <= L < 360 → -180 <= wrap_longitude L ∧ wrap_longitude L < 180)
  ∧ wrap_longitude 180 == -180
  ∧ wrap_longitude 0 == 0
  ∧ (∀ a b, 0 <= a < 360 → 0 <= b < 360 →
            wrap_longitude a == wrap_longitude b → a == b)
  ∧ (∃ ds' perm,
      correct_longitude ds_two_years = Ok ds'
      ∧ perm ≡ₚ seq 0 (length [170; 190])
      ∧ assoc "longitude" (coords ds')
        = Some (FloatIndex ((λ p, wrap_longitude ([170; 190] !!! p)) <$> perm))
      ∧ StronglySorted Qlt ((λ p, wrap_longitude ([170; 190] !!! p)) <$> perm)
      ∧ keys (data_vars ds') = keys (data_vars ds_two_years)
      ∧ ∀ name v, assoc name (data_vars ds_two_years) = Some v →
          ∃ v', assoc name (data_vars ds') = Some v'
            ∧ ∀ i j k, dv_values v' i j k = dv_values v i j (perm !!! k))
  ∧ wrap_longitude_double 180 == -180
  ∧ wrap_longitude_double 0 == 0
  ∧ (∀ wrap : Q → Q, ∃ ds' perm,
      correct_longitude_with wrap ds_two_years = Ok ds'
      ∧ perm ≡ₚ seq 0 (length [170; 190])
      ∧ assoc "longitude" (coords ds')
        = Some (FloatIndex ((λ p, wrap ([170; 190] !!! p)) <$> perm))
      ∧ StronglySorted Qle ((λ p, wrap ([170; 190] !!! p)) <$> perm)
      ∧ ((∀ i j x y, [170; 190] !! i = Some x → [170; 190] !! j = Some y →
                     wrap x == wrap y → i = j) →
         StronglySorted Qlt ((λ p, wrap ([170; 190] !!! p)) <$> perm))
      ∧ keys (data_vars ds') = keys (data_vars ds_two_years)
      ∧ ∀ name v, assoc name (data_vars ds_two_years) = Some v →
          ∃ v', assoc name (data_vars ds') = Some v'
            ∧ ∀ i j k, dv_values v' i j k = dv_values v i j (perm !!! k)).
Proof.
  apply (C2_longitude_wrapped_and_sorted ds_two_years [170; 190]).
  - reflexivity.
  - intros x Hx. apply list_elem_of_In in Hx. simpl in Hx.
    destruct Hx as [<-|[<-|[]]]; lra.
  - intros [|[|i]] [|[|j]] x y Hi Hj Hxy; simpl in Hi, Hj; simplify_eq; try done;
      exfalso; lra.
Defined.

Local Close Scope Q_scope.

(** ** Files: which stages reuse an existing target *)

Lemma path_exists_true (p : Path) (w : World) :
  path_exists p w = true ↔ is_Some (files w !! path_name p).
Proof. unfold path_exists. apply bool_decide_eq_true. Qed.



(** Writing stamps the target with the time of the write. *)
Lemma write_file_target (p : Path) (c : Content) (w : World) :
  files (write_file p c w) !! path_name p
  = Some {| f_content := c; f_mtime := now w |}.
Proof. simpl. apply lookup_insert_eq. Qed.


Lemma save_parquet_pandas_target (df : DataFrame) (path : Path) (w : World) :
  files (save_parquet_pandas df path w) !! path_name path
  = Some {| f_content := Plain (Parquet (df_columns df) (df_rows df));
            f_mtime := now w |}.
Proof. unfold save_parquet_pandas. by rewrite write_file_target. Qed.




(** The pipeline has no check either: whenever it runs to its end, both
    tables have just been written, whether or not they existed before. *)
Lemma main_writes_tables_anew (w w' : World) :
  main w = Ok w' →
  ∃ columns rows,
    files w' !! path_name {| parent := "processed";
                             stem := "spatial_anomalies_2024_2024";
                             suffix := ".parquet" |}
    = Some {| f_content := Plain (Parquet columns rows); f_mtime := now w' - 1 |}.
Proof.
  unfold main. intros Hmain.
  destruct (download_monthly_variable _ _ _ _ _ _ _ _) as [[tmean_nc w1]|];
    [|discriminate]. rewrite bind_Ok in Hmain.
  destruct (load_and_clean tmean_nc w1) as [raw|]; [|discriminate].
  rewrite bind_Ok in Hmain.
  destruct (monthly_anomaly_from_monthly raw 1991 2020) as [ds|]; [|discriminate].
  rewrite bind_Ok in Hmain.
  destruct (compute_global_monthly_stats ds _) as [df_global|]; [|discriminate].
  rewrite bind_Ok in Hmain.
  destruct (compute_spatial_anomalies_recent ds _ 2024 2024) as [df_spatial|];
    [|discriminate].
  rewrite bind_Ok in Hmain. injection Hmain as <-.
  exists (df_columns df_spatial), (df_rows df_spatial).
  change ("spatial_anomalies_" +:+ pretty 2024 +:+ "_" +:+ pretty 2024)
    with "spatial_anomalies_2024_2024".
  rewrite save_parquet_pandas_target. do 2 f_equal.
  unfold save_parquet_pandas at 1. simpl. lia.
Qed.


(** ** Names of the statistics columns *)

Lemma list_ascii_of_string_app (s1 s2 : string) :
  String.list_ascii_of_string (s1 +:+ s2)
  = String.list_ascii_of_string s1 ++ String.list_ascii_of_string s2.
Proof. induction s1 as [|c s1 IH]; simpl; [done | by rewrite IH]. Qed.

Lemma list_ascii_of_string_inj (s1 s2 : string) :
  String.list_ascii_of_string s1 = String.list_ascii_of_string s2 → s1 = s2.
Proof.
  intros H. rewrite <- (String.string_of_list_ascii_of_string s1),
    <- (String.string_of_list_ascii_of_string s2). by rewrite H.
Qed.

(** The last three characters of a string that ends with [m]. *)
Lemma ending_of_app (l m : list ascii) :
  (3 ≤ length m)%nat → take 3 (reverse (l ++ m)) = take 3 (reverse m).
Proof.
  intros Hm. rewrite reverse_app. apply take_app_le. by rewrite length_reverse.
Qed.

Lemma stat_suffix_ending (c1 c2 s1 s2 : string) :
  s1 ∈ stat_suffixes ++ ["time"; "year"; "month"; "latitude"; "longitude"] →
  s2 ∈ stat_suffixes ++ ["time"; "year"; "month"; "latitude"; "longitude"] →
  c1 +:+ s1 = c2 +:+ s2 →
  take 3 (reverse (String.list_ascii_of_string s1)) = take 3 (reverse (String.list_ascii_of_string s2)).
Proof.
  intros H1 H2 Heq. apply (f_equal String.list_ascii_of_string) in Heq.
  rewrite !list_ascii_of_string_app in Heq.
  assert (Hlen : ∀ s, s ∈ stat_suffixes ++ ["time"; "year"; "month"; "latitude"; "longitude"] →
                 (3 ≤ length (String.list_ascii_of_string s))%nat).
  { intros s Hs. apply list_elem_of_In in Hs. simpl in Hs.
    repeat (destruct Hs as [<-|Hs]; [simpl; lia|]). done. }
  transitivity (take 3 (reverse (String.list_ascii_of_string c1
                                 ++ String.list_ascii_of_string s1))).
  { symmetry. apply ending_of_app. by apply Hlen. }
  rewrite Heq. apply ending_of_app. by apply Hlen.
Qed.

Lemma stat_suffixes_NoDup : NoDup stat_suffixes.
Proof.
  unfold stat_suffixes.
  repeat (apply NoDup_cons; split;
          [intros Hx; apply list_elem_of_In in Hx; simpl in Hx; intuition discriminate|]).
  apply NoDup_nil_2.
Qed.

(** A statistics column determines its variable and its statistic. *)
Lemma stat_name_inj (c1 c2 s1 s2 : string) :
  s1 ∈ stat_suffixes → s2 ∈ stat_suffixes →
  c1 +:+ s1 = c2 +:+ s2 → c1 = c2 ∧ s1 = s2.
Proof.
  intros H1 H2 Heq.
  assert (Hs : s1 = s2).
  { pose proof (stat_suffix_ending c1 c2 s1 s2) as He.
    apply list_elem_of_In in H1, H2. simpl in H1, H2.
    destruct H1 as [<-|[<-|[<-|[<-|[]]]]], H2 as [<-|[<-|[<-|[<-|[]]]]];
      try done; exfalso;
      (assert (Hd : take 3 (reverse (String.list_ascii_of_string _))
                    = take 3 (reverse (String.list_ascii_of_string _)))
         by (apply He; [| |exact Heq]; apply list_elem_of_In; simpl; tauto));
      vm_compute in Hd; discriminate. }
  subst s2. split; [|done].
  apply (f_equal String.list_ascii_of_string) in Heq.
  rewrite !list_ascii_of_string_app in Heq.
  apply app_inv_tail in Heq. by apply list_ascii_of_string_inj.
Qed.

(** No statistics column is called like a coordinate or like the two
    calendar columns. *)
Lemma stat_name_not_reserved (c s r : string) :
  s ∈ stat_suffixes → r ∈ ["time"; "year"; "month"; "latitude"; "longitude"] →
  c +:+ s ≠ r.
Proof.
  intros H1 H2 Heq.
  pose proof (stat_suffix_ending c "" s r) as He.
  apply list_elem_of_In in H1, H2. simpl in H1, H2.
  destruct H1 as [<-|[<-|[<-|[<-|[]]]]], H2 as [<-|[<-|[<-|[<-|[<-|[]]]]]];
    (assert (Hd : take 3 (reverse (String.list_ascii_of_string _))
                  = take 3 (reverse (String.list_ascii_of_string _)))
       by (apply He; [| |exact Heq]; apply list_elem_of_In; simpl; tauto));
    vm_compute in Hd; discriminate.
Qed.

Lemma stat_columns_NoDup (columns : list string) :
  NoDup columns → NoDup (stat_columns columns).
Proof.
  intros Hnd. unfold stat_columns. apply NoDup_bind; [| |done].
  - intros c1 c2 n _ _ (s1 & -> & Hs1)%list_elem_of_fmap (s2 & Heq & Hs2)%list_elem_of_fmap.
    by destruct (stat_name_inj c1 c2 s1 s2).
  - intros c _. apply NoDup_fmap_2_strong; [|apply stat_suffixes_NoDup].
    intros s1 s2 Hs1 Hs2 Heq. by destruct (stat_name_inj c c s1 s2).
Qed.

Lemma stat_columns_not_reserved (columns : list string) (r : string) :
  r ∈ ["time"; "year"; "month"; "latitude"; "longitude"] → r ∉ stat_columns columns.
Proof.
  intros Hr (c & (s & -> & Hs)%list_elem_of_fmap & _)%list_elem_of_bind.
  by eapply stat_name_not_reserved.
Qed.

Lemma stat_columns_length (columns : list string) :
  length (stat_columns columns) = (4 * length columns)%nat.
Proof.
  unfold stat_columns. induction columns as [|c l IH]; [done|].
  rewrite bind_cons, length_app, IH. simpl. lia.
Qed.

(** ** Lists, positions and frames *)

Lemma mapM_Ok_fmap {A B} (f : A → result B) (g : A → B) (l : list A) :
  (∀ x, x ∈ l → f x = Ok (g x)) → mapM f l = Ok (g <$> l).
Proof.
  induction l as [|x l IH]; intros H; simpl; [done|].
  rewrite (H x) by left. simpl. rewrite IH; [done|]. intros y Hy. apply H. by right.
Qed.

Lemma mapM_Ok_Forall2 {A B} (f : A → result B) (P : A → B → Prop) (l : list A) :
  (∀ x, x ∈ l → ∃ y, f x = Ok y ∧ P x y) →
  ∃ ys, mapM f l = Ok ys ∧ Forall2 P l ys.
Proof.
  induction l as [|x l IH]; intros H; simpl.
  - exists []. split; [done | constructor].
  - destruct (H x) as (y & Hy & HP); [left|].
    destruct IH as (ys & Hys & HF); [intros z Hz; apply H; by right|].
    exists (y :: ys). rewrite Hy. simpl. rewrite Hys. split; [done | by constructor].
Qed.

Lemma enumerate_fmap {A B} (f : A → B) (l : list A) :
  enumerate (f <$> l) = prod_map id f <$> enumerate l.
Proof.
  induction l as [|x l IH] using rev_ind; [done|].
  rewrite fmap_app. simpl. rewrite !enumerate_snoc, fmap_app, IH, length_fmap. done.
Qed.

Lemma enumerate_length {A} (l : list A) : length (enumerate l) = length l.
Proof. rewrite <- (length_fmap fst), enumerate_fst. apply length_seq. Qed.

Lemma enumerate_lookup {A} (l : list A) (i : nat) (x : A) :
  l !! i = Some x → enumerate l !! i = Some (i, x).
Proof.
  intros Hi. unfold enumerate. apply lookup_zip_with_Some.
  exists i, x. split; [done|]. split; [|done].
  apply lookup_seq. split; [done|]. by eapply lookup_lt_Some.
Qed.

Lemma filter_all {A} (P : A → Prop) `{!∀ x, Decision (P x)} (l : list A) :
  (∀ x, x ∈ l → P x) → filter P l = l.
Proof.
  induction l as [|x l IH]; intros Hall; [done|].
  rewrite filter_cons, decide_True by (apply Hall; left).
  f_equal. apply IH. intros y Hy. apply Hall. by right.
Qed.

Lemma zip_with_fmap_both {A B C D} (f : B → C → D) (g : A → B) (h : A → C)
    (l : list A) :
  zip_with f (g <$> l) (h <$> l) = (λ x, f (g x) (h x)) <$> l.
Proof. induction l as [|x l IH]; [done|]. rewrite !fmap_cons. simpl. by f_equal. Qed.

Lemma lookup_total_seq {A} `{!Inhabited A} (l : list A) (k m : nat) :
  (k + m ≤ length l)%nat → (λ p, l !!! p) <$> seq k m = take m (drop k l).
Proof.
  revert l k. induction m as [|m IH]; intros l k Hlen; [done|].
  simpl. destruct (drop k l) as [|x l'] eqn:E.
  { apply (f_equal length) in E. rewrite length_drop in E. simpl in E. lia. }
  simpl. f_equal.
  - apply list_lookup_total_correct. rewrite <- (Nat.add_0_r k), <- lookup_drop.
    by rewrite E.
  - rewrite IH by lia. f_equal.
    by rewrite <- Nat.add_1_r, <- drop_drop, E.
Qed.

Lemma position_of_None (name : string) (l : list string) :
  name ∉ l → position_of name l = None.
Proof.
  induction l as [|c l IH]; simpl; [done|]. intros Hn.
  rewrite decide_False by (intros ->; apply Hn; left).
  rewrite IH; [done|]. intros ?. apply Hn. by right.
Qed.

Lemma position_of_app_r (name : string) (l1 l2 : list string) :
  name ∉ l1 →
  position_of name (l1 ++ l2) = (λ p, length l1 + p)%nat <$> position_of name l2.
Proof.
  induction l1 as [|c l IH]; simpl; intros Hn.
  - by destruct (position_of name l2).
  - rewrite decide_False by (intros ->; apply Hn; left).
    rewrite IH by (intros ?; apply Hn; by right).
    by destruct (position_of name l2).
Qed.

Lemma position_of_lookup (l : list string) (q : nat) (name : string) :
  NoDup l → l !! q = Some name → position_of name l = Some q.
Proof.
  revert q. induction l as [|c l IH]; intros q Hnd Hq; [done|].
  apply NoDup_cons in Hnd as [Hc Hnd]. destruct q as [|q]; simpl in *.
  - simplify_eq. by rewrite decide_True.
  - rewrite decide_False.
    + by rewrite (IH q).
    + intros ->. apply Hc. by eapply list_elem_of_lookup_2.
Qed.

Lemma position_of_app_l (name : string) (l1 l2 : list string) (p : nat) :
  position_of name l1 = Some p → position_of name (l1 ++ l2) = Some p.
Proof.
  revert p. induction l1 as [|c l IH]; intros p; simpl; [done|].
  case_decide; [done|]. destruct (position_of name l) as [q|]; simpl; [|done].
  intros [= <-]. by rewrite (IH q).
Qed.

Lemma col_position_Some (name : string) (df : DataFrame) (p : nat) :
  position_of name (df_columns df) = Some p → col_position name df = Ok p.
Proof. unfold col_position. by intros ->. Qed.

(** The positions of the columns of a list without repetition. *)
Lemma mapM_position_of_self (names rest : list string) (df : DataFrame) :
  NoDup names → df_columns df = names ++ rest →
  mapM (λ n, col_position n df) names = Ok (seq 0 (length names)).
Proof.
  intros Hnd Hcols.
  assert (H : ∀ l k, names = take k names ++ l →
              mapM (λ n, col_position n df) l = Ok (seq k (length l))).
  { induction l as [|c l IH]; intros k Hk; [done|].
    assert (Hc : names !! k = Some c).
    { rewrite Hk at 1. destruct (decide (k ≤ length names)%nat).
      - rewrite lookup_app_r; rewrite length_take_le by lia; [|lia].
        by rewrite Nat.sub_diag.
      - rewrite take_ge in Hk by lia.
        apply (f_equal length) in Hk. rewrite length_app in Hk. simpl in Hk. lia. }
    cbn. rewrite (col_position_Some c df k); last first.
    { rewrite Hcols. apply position_of_app_l. by apply position_of_lookup. }
    simpl. rewrite (IH (S k)); [done|].
    rewrite (take_S_r _ _ c) by done. rewrite <- app_assoc. done. }
  apply (H names 0%nat). done.
Qed.

Lemma positions_where_cons {A} (P : A → Prop) `{!∀ x, Decision (P x)}
    (x : A) (l : list A) :
  positions_where P (x :: l)
  = (if decide (P x) then [0%nat] else []) ++ (S <$> positions_where P l).
Proof.
  unfold positions_where, enumerate. simpl. rewrite filter_cons. simpl.
  assert (Hshift : ∀ k, (filter (λ p : nat * A, P p.2) (zip (seq (S k) (length l)) l)).*1
              = S <$> (filter (λ p : nat * A, P p.2) (zip (seq k (length l)) l)).*1).
  { induction l as [|y l IH]; intros k; simpl; [done|].
    rewrite !filter_cons. simpl. case_decide; simpl; by rewrite IH. }
  case_decide; simpl; by rewrite Hshift.
Qed.

Lemma positions_where_all {A} (P : A → Prop) `{!∀ x, Decision (P x)} (l : list A) :
  Forall P l → positions_where P l = seq 0 (length l).
Proof.
  induction 1 as [|x l Hx Hl IH]; [done|].
  rewrite positions_where_cons, decide_True by done. simpl.
  by rewrite IH, fmap_S_seq.
Qed.

Lemma dt_year_int16_times {X} (g : X → Timestamp) (xs : list X) :
  dt_year_int16 ((λ x, CTime (g x)) <$> xs)
  = Ok ((λ x, CInt int16 (astype_int16 (ts_year (g x)))) <$> xs).
Proof.
  unfold dt_year_int16. rewrite <- (list_fmap_id xs) at 2.
  rewrite (mapM_Ok_fmap _ (λ c, match c with
                                | CTime t => CInt int16 (astype_int16 (ts_year t))
                                | _ => c end)).
  - by rewrite <- !list_fmap_compose.
  - by intros c (x & -> & _)%list_elem_of_fmap.
Qed.

Lemma dt_month_int8_times {X} (g : X → Timestamp) (xs : list X) :
  dt_month_int8 ((λ x, CTime (g x)) <$> xs)
  = Ok ((λ x, CInt int8 (astype_int8 (ts_month (g x)))) <$> xs).
Proof.
  unfold dt_month_int8. rewrite <- (list_fmap_id xs) at 2.
  rewrite (mapM_Ok_fmap _ (λ c, match c with
                                | CTime t => CInt int8 (astype_int8 (ts_month t))
                                | _ => c end)).
  - by rewrite <- !list_fmap_compose.
  - by intros c (x & -> & _)%list_elem_of_fmap.
Qed.

(** Within the range of pandas the casts of year and month are exact. *)
Lemma valid_timestamp_casts (t : Timestamp) :
  valid_timestamp t →
  astype_int16 (ts_year t) = ts_year t ∧ astype_int8 (ts_month t) = ts_month t.
Proof.
  intros (Hy & Hm & _). unfold astype_int16, astype_int8, wrap_signed. simpl.
  split.
  - rewrite Z.mod_small by lia. lia.
  - rewrite Z.mod_small by lia. lia.
Qed.

Lemma df_column_fmap {X} (name : string) (cols : list string) (idx : list Z)
    (R : X → list Cell) (xs : list X) (p : nat) :
  position_of name cols = Some p →
  df_column name {| df_columns := cols; df_index := idx; df_rows := R <$> xs |}
  = Ok ((λ x, R x !!! p) <$> xs).
Proof.
  intros Hp. unfold df_column. rewrite (col_position_Some name _ p) by done.
  simpl. by rewrite <- list_fmap_compose.
Qed.

Lemma df_setitem_new_fmap {X} (name : string) (cols : list string) (idx : list Z)
    (R : X → list Cell) (c : X → Cell) (xs : list X) :
  position_of name cols = None →
  df_setitem name (c <$> xs)
    {| df_columns := cols; df_index := idx; df_rows := R <$> xs |}
  = {| df_columns := cols ++ [name]; df_index := idx;
       df_rows := (λ x, R x ++ [c x]) <$> xs |}.
Proof.
  intros Hp. unfold df_setitem. simpl. rewrite Hp. f_equal.
  exact (zip_with_fmap_both (λ (r : list Cell) c0, r ++ [c0]) R c xs).
Qed.

Lemma df_drop_head_fmap {X} (name : string) (rest : list string) (idx : list Z)
    (h : X → Cell) (T : X → list Cell) (xs : list X) :
  name ∉ rest → (∀ x, length (T x) = length rest) →
  df_drop name {| df_columns := name :: rest; df_index := idx;
                  df_rows := (λ x, h x :: T x) <$> xs |}
  = Ok {| df_columns := rest; df_index := idx; df_rows := T <$> xs |}.
Proof.
  intros Hn Hlen. unfold df_drop.
  rewrite (col_position_Some name _ 0%nat) by (simpl; by rewrite decide_True).
  simpl. f_equal. f_equal.
  - rewrite filter_cons, decide_False by (by intros []).
    apply filter_all. intros c Hc ->. done.
  - rewrite <- list_fmap_compose. apply list_fmap_ext. intros i x _. simpl.
    rewrite positions_where_cons, decide_False by (by intros []). simpl.
    rewrite positions_where_all.
    + rewrite <- list_fmap_compose.
      transitivity ((λ p, T x !!! p) <$> seq 0 (length rest));
        [by apply list_fmap_ext|].
      rewrite <- (Hlen x), lookup_total_seq by lia.
      by rewrite drop_0, firstn_all.
    + apply Forall_forall. intros c Hc ->. done.
Qed.

Lemma df_select_fmap {X} (names : list string) (ps : list nat)
    (cols : list string) (idx : list Z) (R : X → list Cell) (xs : list X) :
  mapM (λ n, col_position n
               {| df_columns := cols; df_index := idx; df_rows := R <$> xs |}) names
  = Ok ps →
  df_select names {| df_columns := cols; df_index := idx; df_rows := R <$> xs |}
  = Ok {| df_columns := names; df_index := idx;
          df_rows := (λ x, (λ p, R x !!! p) <$> ps) <$> xs |}.
Proof.
  intros Hps. unfold df_select. rewrite Hps. simpl.
  by rewrite <- list_fmap_compose.
Qed.

Lemma dedup_keys_NoDup {A} (l : list (string * A)) :
  NoDup (keys l) → dedup_keys l = l.
Proof.
  induction l as [|[k a] l IH]; [done|]. unfold keys. rewrite fmap_cons.
  intros [Hk Hnd]%NoDup_cons. simpl. f_equal. rewrite IH by done.
  apply filter_all. intros [k' a'] Hin Heq. simpl in *. subst k'.
  apply Hk. apply list_elem_of_fmap. by exists (k, a').
Qed.

(** ** The global aggregator *)

Lemma stats_of_Ok (ds : Dataset) (col : string) (ts : list Timestamp) :
  tdim ds = "time" →
  assoc "time" (coords ds) = Some (TimeIndex ts) →
  is_Some (assoc "latitude" (coords ds)) →
  is_Some (assoc "longitude" (coords ds)) →
  col ∈ keys (data_vars ds) →
  ∃ entries, stats_of ds col = Ok entries
    ∧ keys entries = (λ s, col +:+ s) <$> stat_suffixes
    ∧ Forall (λ e : string * Series,
                se_tdim e.2 = "time" ∧ se_index e.2 = Some (TimeIndex ts)) entries.
Proof.
  intros Htdim Htime [lat Hlat] [lon Hlon] [v Hv]%assoc_is_Some.
  unfold stats_of, getitem. rewrite Hv, Htdim. simpl.
  unfold reduce_space, dim_size. simpl.
  rewrite !assoc_filter by (apply list_elem_of_In; simpl; tauto).
  rewrite Hlat, Hlon, Htime. simpl.
  eexists. split; [reflexivity|]. split; [reflexivity|].
  repeat constructor.
Qed.

Lemma stats_list_Ok (ds : Dataset) (columns : list string) (ts : list Timestamp) :
  tdim ds = "time" →
  assoc "time" (coords ds) = Some (TimeIndex ts) →
  is_Some (assoc "latitude" (coords ds)) →
  is_Some (assoc "longitude" (coords ds)) →
  (∀ c, c ∈ columns → c ∈ keys (data_vars ds)) →
  ∃ stats_list, mapM (stats_of ds) columns = Ok stats_list
    ∧ keys (concat stats_list) = stat_columns columns
    ∧ Forall (λ e : string * Series,
                se_tdim e.2 = "time" ∧ se_index e.2 = Some (TimeIndex ts))
             (concat stats_list).
Proof.
  intros Htdim Htime Hlat Hlon Hcols.
  destruct (mapM_Ok_Forall2 (stats_of ds)
              (λ c entries, keys entries = (λ s, c +:+ s) <$> stat_suffixes
                 ∧ Forall (λ e : string * Series,
                     se_tdim e.2 = "time" ∧ se_index e.2 = Some (TimeIndex ts)) entries)
              columns) as (ys & Hys & HF).
  { intros c Hc. apply stats_of_Ok; auto. }
  exists ys. split; [done|]. clear Hys Hcols.
  induction HF as [|c entries columns ys [Hk Hs] HF [IH1 IH2]]; [by split|].
  simpl. split.
  - unfold keys in *. rewrite fmap_app, Hk, IH1. reflexivity.
  - apply Forall_app. by split.
Qed.


(** ** The order of sort keys *)

Lemma ts_leb_total (a b : Timestamp) : ts_leb a b = true ∨ ts_leb b a = true.
Proof. unfold ts_leb. rewrite !bool_decide_eq_true. lia. Qed.

Lemma ts_leb_trans (a b c : Timestamp) :
  ts_leb a b = true → ts_leb b c = true → ts_leb a c = true.
Proof. unfold ts_leb. rewrite !bool_decide_eq_true. lia. Qed.

Lemma value_leb_total (a b : value) : value_leb a b = true ∨ value_leb b a = true.
Proof. destruct a, b; simpl; auto using Qle_bool_total. Qed.

Lemma value_leb_trans (a b c : value) :
  value_leb a b = true → value_leb b c = true → value_leb a c = true.
Proof. destruct a, b, c; simpl; try done. apply Qle_bool_trans. Qed.

Lemma cell_leb_total (a b : Cell) : cell_leb a b = true ∨ cell_leb b a = true.
Proof.
  destruct a, b; simpl; auto using ts_leb_total, value_leb_total.
  rewrite !bool_decide_eq_true. lia.
Qed.

Lemma cell_leb_trans (a b c : Cell) :
  cell_leb a b = true → cell_leb b c = true → cell_leb a c = true.
Proof.
  destruct a, b, c; simpl; try done;
    eauto using ts_leb_trans, value_leb_trans.
  rewrite !bool_decide_eq_true. lia.
Qed.

Lemma lex_leb_total (a b : list Cell) : lex_leb a b = true ∨ lex_leb b a = true.
Proof.
  revert b. induction a as [|x a IH]; intros [|y b]; simpl; auto.
  destruct (cell_leb_total x y) as [H|H]; rewrite H; simpl;
    destruct (cell_leb y x) eqn:E, (cell_leb x y) eqn:E'; simpl; auto; congruence.
Qed.

Lemma lex_leb_trans (a b c : list Cell) :
  lex_leb a b = true → lex_leb b c = true → lex_leb a c = true.
Proof.
  revert b c. induction a as [|x a IH]; intros [|y b] [|z c]; simpl; try done.
  destruct (cell_leb y x) eqn:Eyx, (cell_leb x y) eqn:Exy; simpl; try done;
    destruct (cell_leb z y) eqn:Ezy, (cell_leb y z) eqn:Eyz; simpl; try done;
    destruct (cell_leb z x) eqn:Ezx, (cell_leb x z) eqn:Exz; simpl; try done;
    try (intros; by eapply IH);
    try (pose proof (cell_leb_trans _ _ _ Exy Eyz); congruence);
    try (pose proof (cell_leb_trans _ _ _ Ezy Eyx); congruence);
    try (pose proof (cell_leb_trans _ _ _ Eyz Ezx); congruence);
    try (pose proof (cell_leb_trans _ _ _ Ezx Exy); congruence);
    try (pose proof (cell_leb_trans _ _ _ Eyx Exz); congruence);
    try (pose proof (cell_leb_trans _ _ _ Exz Ezy); congruence);
    try (destruct (cell_leb_total x y); congruence);
    try (destruct (cell_leb_total y z); congruence);
    try (destruct (cell_leb_total x z); congruence).
Qed.

(** A sort that only looks at the second components sorts them. *)
Lemma insert_sorted_snd {A B} (leb : B → B → bool) (x : A * B) (l : list (A * B)) :
  (insert_sorted (λ a b, leb a.2 b.2) x l).*2 = insert_sorted leb x.2 (l.*2).
Proof.
  induction l as [|y l IH]; [done|]. simpl.
  destruct (leb x.2 y.2); [done|]. rewrite fmap_cons. by f_equal.
Qed.

Lemma stable_sort_snd {A B} (leb : B → B → bool) (l : list (A * B)) :
  (stable_sort (λ a b, leb a.2 b.2) l).*2 = stable_sort leb (l.*2).
Proof.
  induction l as [|x l IH]; [done|]. unfold stable_sort in *. simpl.
  by rewrite insert_sorted_snd, IH.
Qed.

(** ** Products of axes *)

Lemma list_bind_singleton_fmap {A B} (f : A → B) (l : list A) :
  l ≫= (λ a, [f a]) = f <$> l.
Proof. induction l as [|x l IH]; [done|]. by rewrite bind_cons, IH. Qed.

Lemma list_bind_fmap_l {A B C} (f : A → B) (k : B → list C) (l : list A) :
  (f <$> l) ≫= k = l ≫= (λ a, k (f a)).
Proof.
  induction l as [|x l IH]; [done|]. by rewrite fmap_cons, !bind_cons, IH.
Qed.

Lemma list_fmap_bind_r {A B C} (f : B → C) (k : A → list B) (l : list A) :
  f <$> (l ≫= k) = l ≫= (λ a, f <$> k a).
Proof.
  induction l as [|x l IH]; [done|]. by rewrite !bind_cons, fmap_app, IH.
Qed.

Lemma list_bind_ext_in {A B} (k1 k2 : A → list B) (l : list A) :
  (∀ a, a ∈ l → k1 a = k2 a) → l ≫= k1 = l ≫= k2.
Proof.
  induction l as [|x l IH]; intros H; [done|].
  rewrite !bind_cons, (H x) by left. f_equal. apply IH. intros a Ha. apply H. by right.
Qed.

Lemma list_bind_length_const {A B} (k : A → list B) (l : list A) (m : nat) :
  (∀ a, length (k a) = m) → length (l ≫= k) = (length l * m)%nat.
Proof.
  intros Hk. induction l as [|x l IH]; [done|].
  rewrite bind_cons, length_app, Hk, IH. simpl. lia.
Qed.

Lemma grid3_length {A B C} (ta : list A) (ya : list B) (xa : list C) :
  length (grid3 ta ya xa) = (length ta * (length ya * length xa))%nat.
Proof.
  unfold grid3.
  rewrite (list_bind_length_const _ _ (length ya * length xa)%nat).
  - by rewrite enumerate_length.
  - intros t. rewrite (list_bind_length_const _ _ (length xa)).
    + by rewrite enumerate_length.
    + intros y. rewrite list_bind_singleton_fmap, length_fmap.
      apply enumerate_length.
Qed.

Lemma elem_of_grid3 {A B C} (ta : list A) (ya : list B) (xa : list C)
    (t : nat * A) (y : nat * B) (x : nat * C) :
  (t, y, x) ∈ grid3 ta ya xa → ta !! t.1 = Some t.2.
Proof.
  unfold grid3. intros (t' & Hin & Ht)%list_elem_of_bind.
  apply list_elem_of_bind in Hin as (y' & Hin & Hy).
  apply list_elem_of_bind in Hin as (x' & Hin & Hx).
  apply list_elem_of_singleton in Hin as [= -> -> ->].
  destruct t'. by apply elem_of_enumerate.
Qed.

Lemma mapM_position_of_mid (pre names rest : list string) (df : DataFrame) :
  NoDup names → (∀ c, c ∈ names → c ∉ pre) →
  df_columns df = pre ++ names ++ rest →
  mapM (λ n, col_position n df) names = Ok (seq (length pre) (length names)).
Proof.
  intros Hnd Hpre Hcols.
  assert (Hsuf : ∀ l k, names = take k names ++ l →
              mapM (λ n, col_position n df) l = Ok (seq (length pre + k) (length l))).
  { induction l as [|c l IH]; intros k Hk; [done|].
    assert (Hc : names !! k = Some c).
    { rewrite Hk at 1. destruct (decide (k ≤ length names)%nat).
      - rewrite lookup_app_r; rewrite length_take_le by lia; [|lia].
        by rewrite Nat.sub_diag.
      - rewrite take_ge in Hk by lia.
        apply (f_equal length) in Hk. rewrite length_app in Hk. simpl in Hk. lia. }
    cbn. rewrite (col_position_Some c df (length pre + k)); last first.
    { rewrite Hcols, position_of_app_r
        by (apply Hpre; by eapply list_elem_of_lookup_2).
      rewrite (position_of_app_l c names rest k) by (by apply position_of_lookup).
      done. }
    simpl. replace (S (length pre + k)) with (length pre + S k)%nat by lia.
    rewrite (IH (S k)); [done|].
    rewrite (take_S_r _ _ c) by done. rewrite <- app_assoc. done. }
  rewrite <- (Nat.add_0_r (length pre)). apply (Hsuf names 0%nat). done.
Qed.

(** The rows of [to_dataframe], over the grid of the three axes. *)
Lemma to_dataframe_rows {A B C} (f : A → Cell) (g : B → Cell) (h : C → Cell)
    (ta : list A) (ya : list B) (xa : list C) (V : nat → nat → nat → list Cell) :
  (t ← enumerate (f <$> ta); y ← enumerate (g <$> ya); x ← enumerate (h <$> xa);
   [[t.2; y.2; x.2] ++ V t.1 y.1 x.1])
  = (λ q : (nat * A) * (nat * B) * (nat * C),
       [f q.1.1.2; g q.1.2.2; h q.2.2] ++ V q.1.1.1 q.1.2.1 q.2.1)
    <$> grid3 ta ya xa.
Proof.
  unfold grid3. rewrite !enumerate_fmap, list_bind_fmap_l, list_fmap_bind_r.
  apply list_bind_ext_in. intros t _.
  rewrite list_bind_fmap_l, list_fmap_bind_r.
  apply list_bind_ext_in. intros y _.
  rewrite list_bind_fmap_l, list_fmap_bind_r.
  apply list_bind_ext_in. intros x _. done.
Qed.

Lemma to_dataframe_rows_vars {A B C} (f : A → Cell) (g : B → Cell) (h : C → Cell)
    (ta : list A) (ya : list B) (xa : list C) (vars : list (string * DataVar)) :
  (t ← enumerate (f <$> ta); y ← enumerate (g <$> ya); x ← enumerate (h <$> xa);
   [[t.2; y.2; x.2] ++
    ((λ v : string * DataVar, CFloat (dv_dtype v.2) (dv_values v.2 t.1 y.1 x.1))
     <$> vars)])
  = (λ q : (nat * A) * (nat * B) * (nat * C),
       [f q.1.1.2; g q.1.2.2; h q.2.2] ++
       ((λ v : string * DataVar,
           CFloat (dv_dtype v.2) (dv_values v.2 q.1.1.1 q.1.2.1 q.2.1)) <$> vars))
    <$> grid3 ta ya xa.
Proof.
  exact (to_dataframe_rows f g h ta ya xa
           (λ i j k, (λ v : string * DataVar,
                        CFloat (dv_dtype v.2) (dv_values v.2 i j k)) <$> vars)).
Qed.

(** ** The spatial windower *)

Lemma in_year_slice_year (y : Z) (t : Timestamp) :
  in_year_slice y y t → ts_year t = y.
Proof. unfold in_year_slice, date_le, ts_date. lia. Qed.

Lemma in_year_slice_iff (y0 y1 : Z) (t : Timestamp) :
  valid_timestamp t → in_year_slice y0 y1 t ↔ y0 ≤ ts_year t ≤ y1.
Proof. unfold valid_timestamp, in_year_slice, date_le, ts_date. lia. Qed.

(** The frame of one year: a row per time step of that year and per cell,
    made of latitude, longitude, year, month and the requested values. *)
Lemma year_frame_Ok (ds : Dataset) (columns : list string) (year : Z)
    (ts : list Timestamp) (lats lons : list Q) :
  tdim ds = "time" →
  assoc "time" (coords ds) = Some (TimeIndex ts) →
  assoc "latitude" (coords ds) = Some (FloatIndex lats) →
  assoc "longitude" (coords ds) = Some (FloatIndex lons) →
  columns ≠ [] →
  NoDup columns →
  (∀ c, c ∈ columns → c ∈ keys (data_vars ds)) →
  (∀ c, c ∈ columns → c ∉ ["time"; "latitude"; "longitude"; "year"; "month"]) →
  ∃ vals : nat → nat → nat → list Cell,
    year_frame ds columns year
    = Ok {| df_columns := ["latitude"; "longitude"; "year"; "month"] ++ columns;
            df_index := range_index
              (length (grid3 (filter (in_year_slice year year) ts) lats lons));
            df_rows :=
              (λ q : (nat * Timestamp) * (nat * Q) * (nat * Q),
                 [CFloat float64 (Some q.1.2.2); CFloat float64 (Some q.2.2);
                  CInt int16 (astype_int16 (ts_year q.1.1.2));
                  CInt int8 (astype_int8 (ts_month q.1.1.2))]
                 ++ vals q.1.1.1 q.1.2.1 q.2.1)
              <$> grid3 (filter (in_year_slice year year) ts) lats lons |}
    ∧ ∀ i j k, length (vals i j k) = length columns.
Proof.
  intros Htdim Htime Hlat Hlon Hne Hnd Hcols Hres.
  set (tsy := filter (in_year_slice year year) ts).
  set (pos := positions_where (in_year_slice year year) ts).
  unfold year_frame, ds_sel_years.
  rewrite (time_index_Ok _ _ ts) by done. rewrite !bind_Ok.
  unfold ds_subset. cbn [data_vars coords tdim].
  rewrite (decide_False (P := columns = [])) by done.
  destruct (mapM_Ok_Forall2
              (λ n, v ← from_option KeyError
                          (assoc n (prod_map id (isel_time pos) <$> data_vars ds));
                    Ok (n, v))
              (λ n (e : string * DataVar), e.1 = n) columns) as (vars & Hvars & HF).
  { intros c Hc. apply Hcols, assoc_is_Some in Hc as [v Hv].
    rewrite assoc_fmap, Hv. simpl. eauto. }
  fold pos. rewrite Hvars, bind_Ok.
  assert (Hkeys : keys vars = columns).
  { clear Hvars Hne. unfold keys. induction HF as [|c e l l' He HF IH]; [done|].
    rewrite fmap_cons, He. f_equal. apply IH.
    - by apply NoDup_cons in Hnd as [_ ?].
    - intros c' Hc'. apply Hcols. by right.
    - intros c' Hc'. apply Hres. by right. }
  rewrite dedup_keys_NoDup by (by rewrite Hkeys).
  rewrite bind_Ok. unfold to_dataframe. cbn [data_vars coords tdim].
  rewrite Htdim, assoc_update_key, Htime.
  rewrite !assoc_update_key_ne by done. rewrite Hlat, Hlon.
  unfold from_option. cbn [fmap option_fmap option_map]. rewrite !bind_Ok.
  cbn [coord_cells]. fold tsy.
  rewrite (to_dataframe_rows_vars CTime (λ x, CFloat float64 (Some x))
             (λ x, CFloat float64 (Some x)) tsy lats lons vars).
  set (V := λ i j k : nat, (λ v : string * DataVar,
              CFloat (dv_dtype v.2) (dv_values v.2 i j k)) <$> vars).
  assert (HV : ∀ i j k, length (V i j k) = length columns).
  { intros i j k. unfold V. rewrite length_fmap, <- Hkeys. unfold keys.
    by rewrite length_fmap. }
  set (G := grid3 tsy lats lons).
  set (R0 := λ q : (nat * Timestamp) * (nat * Q) * (nat * Q),
         [CTime q.1.1.2; CFloat float64 (Some q.1.2.2); CFloat float64 (Some q.2.2)]
         ++ V q.1.1.1 q.1.2.1 q.2.1).
  change (λ q : (nat * Timestamp) * (nat * Q) * (nat * Q),
            [CTime q.1.1.2; CFloat float64 (Some q.1.2.2); CFloat float64 (Some q.2.2)]
            ++ ((λ v : string * DataVar,
                   CFloat (dv_dtype v.2) (dv_values v.2 q.1.1.1 q.1.2.1 q.2.1))
                <$> vars)) with R0.
  rewrite length_fmap. set (idx := range_index (length G)).
  rewrite Hkeys.
  assert (Hnot : ∀ r, r ∈ ["time"; "latitude"; "longitude"; "year"; "month"] →
                      r ∉ columns).
  { intros r Hr Hc. by apply (Hres r Hc). }
  rewrite (df_column_fmap "time" _ _ R0 G 0) by reflexivity.
  rewrite bind_Ok.
  change ((λ x, R0 x !!! 0%nat) <$> G)
    with ((λ q : (nat * Timestamp) * (nat * Q) * (nat * Q), CTime q.1.1.2) <$> G).
  rewrite dt_year_int16_times, bind_Ok.
  set (cy := λ q : (nat * Timestamp) * (nat * Q) * (nat * Q),
         CInt int16 (astype_int16 (ts_year q.1.1.2))).
  rewrite (df_setitem_new_fmap "year" _ idx R0 cy G); last first.
  { apply position_of_None. rewrite elem_of_app. intros [Hin|Hin].
    - apply list_elem_of_In in Hin. simpl in Hin. intuition discriminate.
    - eapply Hnot; [|exact Hin]. apply list_elem_of_In. simpl. tauto. }
  rewrite (df_column_fmap "time" _ _ _ G 0) by reflexivity.
  rewrite bind_Ok.
  change ((λ x, (R0 x ++ [cy x]) !!! 0%nat) <$> G)
    with ((λ q : (nat * Timestamp) * (nat * Q) * (nat * Q), CTime q.1.1.2) <$> G).
  rewrite dt_month_int8_times, bind_Ok.
  set (cm := λ q : (nat * Timestamp) * (nat * Q) * (nat * Q),
         CInt int8 (astype_int8 (ts_month q.1.1.2))).
  rewrite (df_setitem_new_fmap "month" _ idx _ cm G); last first.
  { apply position_of_None. rewrite !elem_of_app. intros [[Hin|Hin]|Hin].
    - apply list_elem_of_In in Hin. simpl in Hin. intuition discriminate.
    - eapply Hnot; [|exact Hin]. apply list_elem_of_In. simpl. tauto.
    - apply list_elem_of_singleton in Hin. done. }
  set (n := length columns).
  assert (Hpos : mapM (λ c, col_position c
                    {| df_columns :=
                         ((["time"; "latitude"; "longitude"] ++ columns) ++ ["year"])
                         ++ ["month"];
                       df_index := idx;
                       df_rows := (λ x, (R0 x ++ [cy x]) ++ [cm x]) <$> G |})
                   (["latitude"; "longitude"; "year"; "month"] ++ columns)
                 = Ok ([1; 2; 3 + n; 4 + n]%nat ++ seq 3 n)).
  { cbn [mapM app].
    rewrite (col_position_Some "latitude" _ 1%nat) by reflexivity.
    rewrite bind_Ok.
    rewrite (col_position_Some "longitude" _ 2%nat) by reflexivity.
    rewrite bind_Ok.
    rewrite (col_position_Some "year" _ (3 + n)%nat); last first.
    { cbn [df_columns]. simpl. rewrite <- app_assoc, position_of_app_r;
        last first.
      { apply Hnot. apply list_elem_of_In. simpl. tauto. }
      simpl. f_equal. unfold n. lia. }
    rewrite bind_Ok.
    rewrite (col_position_Some "month" _ (4 + n)%nat); last first.
    { cbn [df_columns]. simpl. rewrite <- app_assoc, position_of_app_r;
        last first.
      { apply Hnot. apply list_elem_of_In. simpl. tauto. }
      simpl. f_equal. unfold n. lia. }
    rewrite bind_Ok.
    erewrite (mapM_position_of_mid ["time"; "latitude"; "longitude"] columns
                ["year"; "month"] _ Hnd).
    - done.
    - intros c Hc Hin. apply (Hres c Hc).
      apply list_elem_of_In in Hin. apply list_elem_of_In. simpl in *. tauto.
    - cbn [df_columns]. by rewrite <- !app_assoc. }
  rewrite (df_select_fmap _ _ _ _ _ _ Hpos).
  exists V. split; [|done]. do 2 f_equal.
  apply list_fmap_ext. intros i q _.
  assert (HR : length (R0 q) = (3 + n)%nat).
  { unfold R0. rewrite length_app, HV. done. }
  assert (E3 : ((R0 q ++ [cy q]) ++ [cm q]) !!! (3 + n)%nat = cy q).
  { apply list_lookup_total_correct.
    rewrite lookup_app_l by (rewrite length_app, HR; simpl; lia).
    rewrite lookup_app_r by lia. by rewrite HR, Nat.sub_diag. }
  assert (E4 : ((R0 q ++ [cy q]) ++ [cm q]) !!! (4 + n)%nat = cm q).
  { assert (Hl : length (R0 q ++ [cy q]) = (4 + n)%nat)
      by (rewrite length_app, HR; simpl; lia).
    apply list_lookup_total_correct.
    rewrite lookup_app_r by (rewrite Hl; lia). by rewrite Hl, Nat.sub_diag. }
  rewrite fmap_app. f_equal.
  - cbn [fmap list_fmap]. rewrite E3, E4. reflexivity.
  - rewrite (lookup_total_seq _ 3 n) by (rewrite !length_app, HR; simpl; lia).
    unfold R0. rewrite <- !app_assoc. simpl. rewrite drop_0, take_app_length'; [done|].
    by rewrite HV.
Qed.

Lemma year_frame_facts (ds : Dataset) (columns : list string) (year : Z)
    (ts : list Timestamp) (lats lons : list Q) :
  tdim ds = "time" →
  assoc "time" (coords ds) = Some (TimeIndex ts) →
  assoc "latitude" (coords ds) = Some (FloatIndex lats) →
  assoc "longitude" (coords ds) = Some (FloatIndex lons) →
  columns ≠ [] →
  NoDup columns →
  (∀ c, c ∈ columns → c ∈ keys (data_vars ds)) →
  (∀ c, c ∈ columns → c ∉ ["time"; "latitude"; "longitude"; "year"; "month"]) →
  Forall valid_timestamp ts →
  ∃ df, year_frame ds columns year = Ok df
    ∧ df_columns df = ["latitude"; "longitude"; "year"; "month"] ++ columns
    ∧ df_index df = range_index (length (df_rows df))
    ∧ length (df_rows df)
      = (length (filter (in_year_slice year year) ts) * (length lats * length lons))%nat
    ∧ Forall (λ r, r !! 2%nat = Some (CInt int16 year)) (df_rows df).
Proof.
  intros Htdim Htime Hlat Hlon Hne Hnd Hcols Hres Hvalid.
  destruct (year_frame_Ok ds columns year ts lats lons) as (vals & Hok & Hvals);
    [done..|].
  eexists. split; [exact Hok|]. cbn [df_columns df_index df_rows].
  split; [done|]. split; [by rewrite length_fmap|].
  split; [by rewrite length_fmap, grid3_length|].
  apply Forall_fmap, Forall_forall. intros [[t y] x] Hq. simpl.
  apply elem_of_grid3 in Hq. apply list_elem_of_lookup_2 in Hq.
  apply list_elem_of_filter in Hq as [Hs Hin].
  assert (Hv : valid_timestamp t.2) by (by eapply Forall_forall in Hvalid).
  destruct (valid_timestamp_casts _ Hv) as [-> _].
  by rewrite (in_year_slice_year year t.2 Hs).
Qed.

Lemma by_cell_year_month_total (a b : list Cell) :
  by_cell_year_month a b = true ∨ by_cell_year_month b a = true.
Proof. apply lex_leb_total. Qed.

Lemma by_cell_year_month_trans (a b c : list Cell) :
  by_cell_year_month a b = true → by_cell_year_month b c = true →
  by_cell_year_month a c = true.
Proof. apply lex_leb_trans. Qed.

Lemma range_index_length (n : nat) : length (range_index n) = n.
Proof. unfold range_index. by rewrite length_fmap, length_seq. Qed.

(** The table of the spatial windower: the rows of the years of the
    window, one year after the other, then sorted. *)
Lemma compute_spatial_anomalies_recent_Ok (ds : Dataset) (columns : list string)
    (start_year end_year : Z) (ts : list Timestamp) (lats lons : list Q) :
  tdim ds = "time" →
  assoc "time" (coords ds) = Some (TimeIndex ts) →
  assoc "latitude" (coords ds) = Some (FloatIndex lats) →
  assoc "longitude" (coords ds) = Some (FloatIndex lons) →
  columns ≠ [] →
  NoDup columns →
  (∀ c, c ∈ columns → c ∈ keys (data_vars ds)) →
  (∀ c, c ∈ columns → c ∉ ["time"; "latitude"; "longitude"; "year"; "month"]) →
  Forall valid_timestamp ts →
  start_year ≤ end_year →
  compute_spatial_anomalies_recent ds columns start_year end_year
  = Ok (let rows := stable_sort by_cell_year_month
                      (concat (year_rows ds columns
                               <$> seqZ start_year (end_year + 1 - start_year))) in
        {| df_columns := ["latitude"; "longitude"; "year"; "month"] ++ columns;
           df_index := range_index (length rows);
           df_rows := rows |}).
Proof.
  intros Htdim Htime Hlat Hlon Hne Hnd Hcols Hres Hvalid Hle.
  assert (Hframe : ∀ y, ∃ df, year_frame ds columns y = Ok df
            ∧ df_columns df = ["latitude"; "longitude"; "year"; "month"] ++ columns
            ∧ df_rows df = year_rows ds columns y).
  { intros y. destruct (year_frame_facts ds columns y ts lats lons)
      as (df & Hok & Hc & _); [done..|].
    exists df. split; [done|]. split; [done|]. unfold year_rows. by rewrite Hok. }
  set (years := seqZ start_year (end_year + 1 - start_year)).
  destruct (mapM_Ok_Forall2 (year_frame ds columns)
              (λ y df, df_columns df = ["latitude"; "longitude"; "year"; "month"] ++ columns
                       ∧ df_rows df = year_rows ds columns y) years)
    as (dfs & Hdfs & HF).
  { intros y _. destruct (Hframe y) as (df & ? & ? & ?). eauto. }
  unfold compute_spatial_anomalies_recent. fold years. rewrite Hdfs, bind_Ok.
  assert (Hrows : df_rows <$> dfs = year_rows ds columns <$> years).
  { clear Hdfs. induction HF as [|y df l l' [_ Hr] HF IH]; [done|].
    by rewrite !fmap_cons, Hr, IH. }
  assert (Hhead : ∃ df0 dfs', dfs = df0 :: dfs'
            ∧ df_columns df0 = ["latitude"; "longitude"; "year"; "month"] ++ columns).
  { unfold years in HF. rewrite seqZ_cons in HF by lia.
    inversion HF as [|? df0 ? dfs' [Hc _] _]; subst. eauto. }
  destruct Hhead as (df0 & dfs' & -> & Hc0).
  unfold df_concat. rewrite bind_Ok, Hrows, Hc0.
  set (rows := concat (year_rows ds columns <$> years)).
  unfold df_sort_values. cbn [df_columns df_index df_rows].
  change (mapM _ ["latitude"; "longitude"; "year"; "month"])
    with (Ok (A := list nat) [0; 1; 2; 3]%nat).
  rewrite !bind_Ok. unfold df_reset_index. cbn [df_columns df_index df_rows].
  change (λ a b : Z * list Cell,
            lex_leb (row_key [0; 1; 2; 3]%nat a.2) (row_key [0; 1; 2; 3]%nat b.2))
    with (λ a b : Z * list Cell, by_cell_year_month a.2 b.2).
  rewrite (stable_sort_snd by_cell_year_month (zip (range_index (length rows)) rows)).
  rewrite snd_zip by (by rewrite range_index_length).
  done.
Qed.

Lemma sum_list_fmap_add {A} (a b : A → nat) (l : list A) :
  sum_list ((λ y, a y + b y)%nat <$> l)
  = (sum_list (a <$> l) + sum_list (b <$> l))%nat.
Proof. induction l as [|x l IH]; [done|]. rewrite !fmap_cons. simpl. lia. Qed.

Lemma sum_list_indicator (c : Z) (l : list Z) :
  NoDup l →
  sum_list ((λ y, if decide (c = y) then 1 else 0)%nat <$> l)
  = (if decide (c ∈ l) then 1 else 0)%nat.
Proof.
  induction 1 as [|x l Hx Hnd IH]; [done|]. rewrite fmap_cons. simpl. rewrite IH.
  destruct (decide (c = x)) as [->|Hne].
  - rewrite (decide_False (P := x ∈ l)) by done.
    rewrite decide_True by left. done.
  - destruct (decide (c ∈ l)).
    + rewrite decide_True by (by right). done.
    + rewrite decide_False; [done|]. by intros [?|?]%elem_of_cons.
Qed.

(** The time steps of the years of a window, year by year, are the time
    steps whose year lies in the window. *)
Lemma years_count (ts : list Timestamp) (s n : Z) :
  Forall valid_timestamp ts →
  sum_list ((λ y, length (filter (in_year_slice y y) ts)) <$> seqZ s n)
  = length (filter (λ t, s ≤ ts_year t < s + n) ts).
Proof.
  induction 1 as [|t ts Ht Hts IH].
  - simpl. induction (seqZ s n) as [|y l IHl]; [done|]. by rewrite fmap_cons.
  - rewrite (list_fmap_ext _
       (λ y, (if decide (ts_year t = y) then 1 else 0)
             + length (filter (in_year_slice y y) ts))%nat (seqZ s n)).
    2:{ intros i y _. simpl. rewrite filter_cons.
        destruct (decide (in_year_slice y y t)) as [Hs|Hs].
        - rewrite decide_True by (by apply in_year_slice_year). done.
        - rewrite decide_False; [done|]. intros Hy. apply Hs.
          apply in_year_slice_iff; [done | lia]. }
    rewrite sum_list_fmap_add, IH, sum_list_indicator by apply NoDup_seqZ.
    rewrite filter_cons.
    destruct (decide (ts_year t ∈ seqZ s n)) as [Hin|Hin];
      rewrite elem_of_seqZ in Hin.
    + rewrite decide_True by done. done.
    + rewrite decide_False by done. done.
Qed.

Lemma filter_concat {A} (P : A → Prop) `{!∀ x, Decision (P x)} (ls : list (list A)) :
  filter P (concat ls) = concat (filter P <$> ls).
Proof.
  induction ls as [|l ls IH]; [done|]. simpl. by rewrite filter_app, IH.
Qed.

Lemma filter_none {A} (P : A → Prop) `{!∀ x, Decision (P x)} (l : list A) :
  (∀ x, x ∈ l → ¬ P x) → filter P l = [].
Proof.
  induction l as [|x l IH]; intros Hall; [done|].
  rewrite filter_cons, decide_False by (apply Hall; left).
  apply IH. intros y Hy. apply Hall. by right.
Qed.

Lemma concat_select {A} (y : Z) (a : Z → list A) (l : list Z) :
  NoDup l → y ∈ l →
  concat ((λ x, if decide (x = y) then a x else []) <$> l) = a y.
Proof.
  induction 1 as [|x l Hx Hnd IH]; [by intros ?%elem_of_nil|].
  rewrite fmap_cons. simpl. intros [->|Hin]%elem_of_cons.
  - rewrite decide_True by done.
    rewrite (list_fmap_ext _ (λ _, []) l).
    + clear. rewrite <- (app_nil_r (a x)) at 2. f_equal.
      induction l as [|z l IHl]; [done|]. by rewrite fmap_cons.
    + intros i z Hz. simpl. rewrite decide_False; [done|].
      intros ->. apply Hx. by eapply list_elem_of_lookup_2.
  - rewrite decide_False by (intros ->; done). simpl. by apply IH.
Qed.

(** C5.  For a dataset whose time index is in chronological order, at
    least one requested variable and a window [start_year, end_year] that
    is not empty, the
    spatial windower returns a table with, for every time step whose year
    lies in the window, one row per grid cell; the rows are sorted by
    (latitude, longitude, year, month) and the index is 0, 1, 2, ...; and the
    table of a single year of the window consists of the rows of that year
    in the table of the whole window, in the same order. *)
Theorem C5_spatial_window_rows_sorted_and_consistent
    (ds : Dataset) (columns : list string) (start_year end_year : Z)
    (ts : list Timestamp) (lats lons : list Q) :
  tdim ds = "time" →
  assoc "time" (coords ds) = Some (TimeIndex ts) →
  chronological ts →
  assoc "latitude" (coords ds) = Some (FloatIndex lats) →
  assoc "longitude" (coords ds) = Some (FloatIndex lons) →
  columns ≠ [] →
  NoDup columns →
  (∀ c, c ∈ columns → c ∈ keys (data_vars ds)) →
  (∀ c, c ∈ columns → c ∉ ["time"; "latitude"; "longitude"; "year"; "month"]) →
  Forall valid_timestamp ts →
  start_year ≤ end_year →
  ∃ df, compute_spatial_anomalies_recent ds columns start_year end_year = Ok df
    ∧ df_columns df = ["latitude"; "longitude"; "year"; "month"] ++ columns
    ∧ length (df_rows df)
      = (length lats * length lons
         * length (filter (λ t, (start_year ≤ ts_year t ≤ end_year)%Z) ts))%nat
    ∧ StronglySorted (λ r1 r2, by_cell_year_month r1 r2 = true) (df_rows df)
    ∧ df_index df = range_index (length (df_rows df))
    ∧ ∀ year, start_year ≤ year ≤ end_year →
        ∃ df_year,
          compute_spatial_anomalies_recent ds columns year year = Ok df_year
          ∧ df_rows df_year = filter (row_in_year year) (df_rows df).
Proof.
  intros Htdim Htime _ Hlat Hlon Hne0 Hnd Hcols Hres Hvalid Hle.
  eexists. split; [by eapply compute_spatial_anomalies_recent_Ok|].
  cbn [df_columns df_index df_rows].
  set (years := seqZ start_year (end_year + 1 - start_year)).
  assert (Hfacts : ∀ y,
            length (year_rows ds columns y)
            = (length (filter (in_year_slice y y) ts) * (length lats * length lons))%nat
            ∧ Forall (λ r, r !! 2%nat = Some (CInt int16 y)) (year_rows ds columns y)).
  { intros y. destruct (year_frame_facts ds columns y ts lats lons)
      as (df & Hok & _ & _ & Hl & Hy); [done..|].
    unfold year_rows. by rewrite Hok. }
  split; [done|]. split; [|split; [|split; [done|]]].
  - rewrite stable_sort_length, length_concat, <- list_fmap_compose.
    rewrite (list_fmap_ext _
               (λ y, length (filter (in_year_slice y y) ts)
                     * (length lats * length lons))%nat years)
      by (intros i y _; apply Hfacts).
    assert (Hmul : ∀ (f : Z → nat) (m : nat) (l : list Z),
              sum_list ((λ y, f y * m)%nat <$> l) = (sum_list (f <$> l) * m)%nat).
    { intros f m l. induction l as [|y l IH]; [done|]. rewrite !fmap_cons. simpl.
      rewrite IH. lia. }
    rewrite Hmul. unfold years. rewrite years_count by done.
    rewrite (list_filter_iff _ (λ t, start_year ≤ ts_year t ≤ end_year)) by (intros; lia).
    lia.
  - apply stable_sort_sorted.
    + apply by_cell_year_month_total.
    + apply by_cell_year_month_trans.
  - intros y Hy. eexists.
    split; [eapply compute_spatial_anomalies_recent_Ok; [done..|lia]|].
    cbn [df_rows]. replace (y + 1 - y) with 1 by lia.
    change (seqZ y 1) with [y]. rewrite fmap_cons, fmap_nil. simpl concat.
    rewrite app_nil_r.
    rewrite filter_stable_sort
      by (apply by_cell_year_month_total || apply by_cell_year_month_trans).
    f_equal. rewrite filter_concat, <- list_fmap_compose.
    rewrite (list_fmap_ext _
               (λ y', if decide (y' = y) then year_rows ds columns y' else []) years).
    + rewrite (concat_select y (year_rows ds columns) years); [done| |].
      * apply NoDup_seqZ.
      * apply elem_of_seqZ. lia.
    + intros i y' _. simpl. destruct (Hfacts y') as [_ Hall].
      destruct (decide (y' = y)) as [->|Hne].
      * apply filter_all. intros r Hr. eapply Forall_forall in Hall; [|done].
        unfold row_in_year. by rewrite Hall.
      * apply filter_none. intros r Hr. eapply Forall_forall in Hall; [|done].
        unfold row_in_year. rewrite Hall. done.
Qed.

Lemma two_years_valid : Forall valid_timestamp two_years.
Proof.
  unfold two_years. apply Forall_app. split;
    apply Forall_fmap, Forall_forall; intros m Hm%elem_of_seqZ;
    unfold valid_timestamp; simpl; lia.
Qed.

Lemma ds_two_years_index_coords : index_coords ds_two_years.
Proof.
  intros c Hc. apply list_elem_of_In in Hc. apply list_elem_of_In.
  simpl in *. tauto.
Qed.


Lemma C5_witness :
  ∃ df, compute_spatial_anomalies_recent ds_two_years ["t2m"] 1991 1992 = Ok df
    ∧ df_columns df = ["latitude"; "longitude"; "year"; "month"] ++ ["t2m"]
    ∧ length (df_rows df)
      = (length [10%Q; 20%Q] * length [170%Q; 190%Q]
         * length (filter (λ t, (1991 ≤ ts_year t ≤ 1992)%Z) two_years))%nat
    ∧ StronglySorted (λ r1 r2, by_cell_year_month r1 r2 = true) (df_rows df)
    ∧ df_index df = range_index (length (df_rows df))
    ∧ ∀ year, 1991 ≤ year ≤ 1992 →
        ∃ df_year,
          compute_spatial_anomalies_recent ds_two_years ["t2m"] year year = Ok df_year
          ∧ df_rows df_year = filter (row_in_year year) (df_rows df).
Proof.
  apply (C5_spatial_window_rows_sorted_and_consistent
           ds_two_years ["t2m"] 1991 1992 two_years [10%Q; 20%Q] [170%Q; 190%Q]).
  - reflexivity.
  - reflexivity.
  - exact two_years_chronological.
  - reflexivity.
  - reflexivity.
  - done.
  - apply NoDup_singleton.
  - intros c Hc. apply list_elem_of_singleton in Hc as ->. simpl. left.
  - intros c Hc Hin. apply list_elem_of_singleton in Hc as ->.
    apply list_elem_of_In in Hin. simpl in Hin. intuition discriminate.
  - apply two_years_valid.
  - lia.
Defined.

(** ** Names of files *)

Lemma string_app_assoc (s1 s2 s3 : string) :
  (s1 +:+ s2) +:+ s3 = s1 +:+ (s2 +:+ s3).
Proof.
  induction s1 as [|c s1 IH]; [done|].
  change (String c ((s1 +:+ s2) +:+ s3) = String c (s1 +:+ (s2 +:+ s3))).
  by rewrite IH.
Qed.


(** The companion that the extraction derives from the monthly file is the
    file that the download stage looks for first. *)
Lemma extracted_path_of_monthly (output_dir file_suffix : string) (start_year end_year : Z) :
  extracted_path_of (monthly_out_file output_dir file_suffix start_year end_year)
  = monthly_extracted_file output_dir file_suffix start_year end_year.
Proof.
  unfold extracted_path_of, monthly_out_file, monthly_extracted_file. simpl.
  f_equal. by rewrite !string_app_assoc.
Qed.

(** ** The extraction *)

(** The ways in which the extraction returns. *)
Lemma extract_netcdf_from_zip_Ok_inv (zip_path p : Path) (w w' : World) :
  extract_netcdf_from_zip zip_path w = Ok (p, w') →
  ∃ f, files w !! path_name zip_path = Some f ∧
    ((∃ pl, f_content f = Plain pl ∧ p = zip_path ∧ w' = w)
     ∨ (∃ entries n payload rest,
          f_content f = ZipArchive entries
          ∧ filter (λ e, ends_with ".nc" e.1 = true) entries = (n, payload) :: rest
          ∧ p = extracted_path_of zip_path
          ∧ ((path_exists p w = true ∧ w' = w)
             ∨ (path_exists p w = false ∧ w' = write_file p (Plain payload) w)))).
Proof.
  unfold extract_netcdf_from_zip.
  destruct (files w !! path_name zip_path) as [f|] eqn:Hf; [|done].
  intros H. exists f. split; [done|].
  destruct (f_content f) as [pl|entries] eqn:Hc.
  - left. exists pl. by simplify_eq.
  - right. destruct (filter _ entries) as [|[n payload] rest] eqn:Hflt; [done|].
    exists entries, n, payload, rest. split; [done|]. split; [done|].
    fold (extracted_path_of zip_path) in H.
    destruct (path_exists (extracted_path_of zip_path) w) eqn:He; simplify_eq.
    + split; [done|]. by left.
    + split; [done|]. by right.
Qed.


Lemma write_file_other (p : Path) (c : Content) (w : World) (k : string) :
  k ≠ path_name p → files (write_file p c w) !! k = files w !! k.
Proof. intros Hk. simpl. by rewrite lookup_insert_ne. Qed.







(** ** The download stages *)

Lemma download_monthly_variable_cold (output_dir : string) (start_year end_year : Z)
    (dataset_name variable file_suffix product_type : string) (w : World) :
  path_exists (monthly_extracted_file output_dir file_suffix start_year end_year) w = false →
  path_exists (monthly_out_file output_dir file_suffix start_year end_year) w = false →
  download_monthly_variable output_dir start_year end_year
    dataset_name variable file_suffix product_type w
  = (w1 ← retrieve {| rq_dataset := dataset_name;
                      rq_product_type := product_type;
                      rq_variable := variable;
                      rq_year := pretty <$> seqZ start_year (end_year + 1 - start_year);
                      rq_month := ["01"; "02"; "03"; "04"; "05"; "06";
                                   "07"; "08"; "09"; "10"; "11"; "12"];
                      rq_time := "00:00";
                      rq_format := "netcdf" |}
              (monthly_out_file output_dir file_suffix start_year end_year) w;
     extract_netcdf_from_zip
       (monthly_out_file output_dir file_suffix start_year end_year) w1).
Proof. intros He Ho. unfold download_monthly_variable. by rewrite He, Ho. Qed.

Lemma retrieve_Ok_inv (rq : Request) (target : Path) (w w1 : World) :
  retrieve rq target w = Ok w1 →
  ∃ payload, cds w rq = Ok payload
    ∧ files w1 = <[path_name target := {| f_content := payload; f_mtime := now w |}]> (files w)
    ∧ dirs w1 = dirs w ∧ now w1 = now w + 1
    ∧ retrieved w1 = retrieved w ++ [rq] ∧ fetched w1 = fetched w.
Proof.
  unfold retrieve. destruct (cds w rq) as [payload|]; [|done].
  rewrite bind_Ok. intros [= <-]. by exists payload.
Qed.




(** X4.  A first run, in an existing directory, with neither the monthly
    file nor its companion in place and a data store that answers with a
    NetCDF dataset: exactly one
    request is sent, for the given dataset, product type and variable, for
    the years from [start_year] through [end_year] (none at all when
    [end_year] is smaller, which the stage does not check), the twelve months
    and the time 00:00; the answer is stored in the monthly file, which is
    returned and opens as the dataset of the answer; no other file changes
    and the web server is not contacted. *)
Theorem X4_first_download_sends_one_request
    (output_dir : string) (start_year end_year : Z)
    (dataset_name variable file_suffix product_type : string)
    (w : World) (answer : Dataset) :
  output_dir ∈ dirs w →
  path_exists (monthly_extracted_file output_dir file_suffix start_year end_year) w = false →
  path_exists (monthly_out_file output_dir file_suffix start_year end_year) w = false →
  (∀ rq, cds w rq = Ok (Plain (NetCDF answer))) →
  ∃ w' rq,
    download_monthly_variable output_dir start_year end_year
      dataset_name variable file_suffix product_type w
    = Ok (monthly_out_file output_dir file_suffix start_year end_year, w')
    ∧ retrieved w' = retrieved w ++ [rq]
    ∧ rq_dataset rq = dataset_name
    ∧ rq_product_type rq = product_type
    ∧ rq_variable rq = variable
    ∧ rq_year rq = pretty <$> seqZ start_year (end_year + 1 - start_year)
    ∧ length (rq_year rq) = Z.to_nat (end_year + 1 - start_year)
    ∧ rq_month rq = ["01"; "02"; "03"; "04"; "05"; "06";
                     "07"; "08"; "09"; "10"; "11"; "12"]
    ∧ rq_time rq = "00:00"
    ∧ rq_format rq = "netcdf"
    ∧ open_dataset (monthly_out_file output_dir file_suffix start_year end_year) w'
      = Ok answer
    ∧ fetched w' = fetched w
    ∧ ∀ k, k ≠ path_name (monthly_out_file output_dir file_suffix start_year end_year) →
           files w' !! k = files w !! k.
Proof.
  intros _ He Ho Hcds.
  rewrite download_monthly_variable_cold by done.
  unfold retrieve. rewrite Hcds, !bind_Ok.
  unfold extract_netcdf_from_zip. cbn [files write_file].
  rewrite lookup_insert_eq. cbn [f_content].
  eexists _, _. split; [reflexivity|]. cbn [retrieved].
  split; [reflexivity|]. cbn [rq_dataset rq_product_type rq_variable rq_year
                              rq_month rq_time rq_format].
  repeat (split; [reflexivity|]).
  split; [by rewrite length_fmap, length_seqZ|].
  repeat (split; [reflexivity|]).
  split; [|split; [reflexivity|]].
  - unfold open_dataset. cbn [files]. by rewrite lookup_insert_eq.
  - intros k Hk. cbn [files]. by rewrite lookup_insert_ne.
Qed.

Lemma X4_witness :
  ∃ w' rq,
    download_monthly_variable "raw" 1991 2025
      "reanalysis-era5-land-monthly-means" "2m_temperature" "tmean"
      "monthly_averaged_reanalysis"
      (answering_world (Plain (NetCDF ds_two_years)))
    = Ok (monthly_out_file "raw" "tmean" 1991 2025, w')
    ∧ retrieved w' = retrieved (answering_world (Plain (NetCDF ds_two_years))) ++ [rq]
    ∧ rq_dataset rq = "reanalysis-era5-land-monthly-means"
    ∧ rq_product_type rq = "monthly_averaged_reanalysis"
    ∧ rq_variable rq = "2m_temperature"
    ∧ rq_year rq = pretty <$> seqZ 1991 (2025 + 1 - 1991)
    ∧ length (rq_year rq) = Z.to_nat (2025 + 1 - 1991)
    ∧ rq_month rq = ["01"; "02"; "03"; "04"; "05"; "06";
                     "07"; "08"; "09"; "10"; "11"; "12"]
    ∧ rq_time rq = "00:00"
    ∧ rq_format rq = "netcdf"
    ∧ open_dataset (monthly_out_file "raw" "tmean" 1991 2025) w' = Ok ds_two_years
    ∧ fetched w' = fetched (answering_world (Plain (NetCDF ds_two_years)))
    ∧ ∀ k, k ≠ path_name (monthly_out_file "raw" "tmean" 1991 2025) →
           files w' !! k = files (answering_world (Plain (NetCDF ds_two_years))) !! k.
Proof.
  apply (X4_first_download_sends_one_request "raw" 1991 2025
           "reanalysis-era5-land-monthly-means" "2m_temperature" "tmean"
           "monthly_averaged_reanalysis"
           (answering_world (Plain (NetCDF ds_two_years))) ds_two_years).
  - change ("raw" ∈ ({[ "raw" ]} : gset string)). by apply elem_of_singleton_2.
  - reflexivity.
  - reflexivity.
  - intros rq. reflexivity.
Defined.



(** X6.  The download of the country shapes: when it returns, the path is
    [out_dir / "world_countries.geojson"] and the file exists.  If the file
    was there before, nothing has changed; if not, a single request has been
    sent to the fixed address and its answer is the contents of the file,
    stamped with the current time.  The data store is not contacted, no
    other file changes, and a second run returns the same path and changes
    nothing. *)
Theorem X6_country_shapes_fetched_at_most_once
    (out_dir : string) (w w' : World) (p : Path) :
  download_world_geojson out_dir w = Ok (p, w') →
  p = world_geojson_file out_dir
  ∧ path_exists p w' = true
  ∧ (path_exists p w = true → w' = w)
  ∧ (path_exists p w = false →
     ∃ body, http w world_geojson_url = Ok body
       ∧ files w' !! path_name p = Some {| f_content := body; f_mtime := now w |}
       ∧ fetched w' = fetched w ++ [world_geojson_url])
  ∧ retrieved w' = retrieved w
  ∧ (∀ k, k ≠ path_name p → files w' !! k = files w !! k)
  ∧ download_world_geojson out_dir w' = Ok (p, w').
Proof.
  intros H.
  assert (Hagain : ∀ w0, path_exists (world_geojson_file out_dir) w0 = true →
            download_world_geojson out_dir w0 = Ok (world_geojson_file out_dir, w0)).
  { intros w0 H0. unfold download_world_geojson. by rewrite H0. }
  unfold download_world_geojson in H.
  destruct (path_exists (world_geojson_file out_dir) w) eqn:He.
  - injection H as <- <-. rewrite He. repeat split; try done. by apply Hagain.
  - destruct (http w world_geojson_url) as [body|] eqn:Hh; [|done].
    rewrite bind_Ok in H. injection H as <- Hw.
    assert (Hfiles : files w' = files (write_file (world_geojson_file out_dir) body w))
      by (by rewrite <- Hw).
    assert (Hfetched : fetched w' = fetched w ++ [world_geojson_url])
      by (by rewrite <- Hw).
    assert (Hretrieved : retrieved w' = retrieved w) by (by rewrite <- Hw).
    assert (Hex : path_exists (world_geojson_file out_dir) w' = true).
    { apply path_exists_true. rewrite Hfiles, write_file_target. by eexists. }
    split; [done|]. split; [done|]. split; [intros ?; congruence|]. split.
    { intros _. exists body. split; [done|]. split; [|done].
      rewrite Hfiles. apply write_file_target. }
    split; [done|]. split.
    { intros k Hk. rewrite Hfiles. by apply write_file_other. }
    by apply Hagain.
Qed.

Lemma X6_witness :
  world_geojson_file "raw" = world_geojson_file "raw"
  ∧ path_exists (world_geojson_file "raw")
      world_with_shapes = true
  ∧ (path_exists (world_geojson_file "raw")
       world_with_shapes = true →
     world_with_shapes
     = world_with_shapes)
  ∧ (path_exists (world_geojson_file "raw")
       world_with_shapes = false →
     ∃ body,
       http world_with_shapes
         world_geojson_url = Ok body
       ∧ files world_with_shapes
           !! path_name (world_geojson_file "raw")
         = Some {| f_content := body;
                   f_mtime := now (write_file (world_geojson_file "raw")
                                     (Plain (Bytes "{}")) empty_world) |}
       ∧ fetched world_with_shapes
         = fetched world_with_shapes
           ++ [world_geojson_url])
  ∧ retrieved world_with_shapes
    = retrieved world_with_shapes
  ∧ (∀ k, k ≠ path_name (world_geojson_file "raw") →
          files world_with_shapes !! k
          = files world_with_shapes !! k)
  ∧ download_world_geojson "raw"
      world_with_shapes
    = Ok (world_geojson_file "raw",
          world_with_shapes).
Proof.
  apply (X6_country_shapes_fetched_at_most_once "raw"
           world_with_shapes).
  reflexivity.
Defined.

(** ** Longitudes outside [0, 360) *)

Local Open Scope Q_scope.

Lemma Qfloor_unique (y : Q) (z : Z) :
  inject_Z z <= y → y < inject_Z z + 1 → Qfloor y = z.
Proof.
  intros H1 H2. destruct (Qfloor_bounds y) as [H3 H4].
  assert (Ha : inject_Z z < inject_Z (Qfloor y + 1)).
  { rewrite inject_Z_plus. change (inject_Z 1) with 1. lra. }
  assert (Hb : inject_Z (Qfloor y) < inject_Z (z + 1)).
  { rewrite inject_Z_plus. change (inject_Z 1) with 1. lra. }
  rewrite <- Zlt_Qlt in Ha, Hb. lia.
Qed.

(** The only number of [-180, 180) that differs from [L] by a whole number
    of turns is the normalized longitude. *)
Lemma wrap_longitude_unique (L r : Q) (n : Z) :
  -180 <= r → r < 180 → L == r + 360 * inject_Z n → wrap_longitude L == r.
Proof.
  intros H1 H2 HL. rewrite wrap_longitude_turns.
  assert (Hf : Qfloor ((L + 180) / 360) = n).
  { apply Qfloor_unique.
    - apply Qle_shift_div_l; [reflexivity | lra].
    - apply Qlt_shift_div_r; [reflexivity | lra]. }
  rewrite Hf. lra.
Qed.

Lemma wrap_longitude_fixes (L : Q) :
  -180 <= L → L < 180 → wrap_longitude L == L.
Proof.
  intros H1 H2. apply (wrap_longitude_unique L L 0); [done..|].
  change (inject_Z 0) with 0. ring.
Qed.

Lemma wrap_longitude_idem (L : Q) :
  wrap_longitude (wrap_longitude L) == wrap_longitude L.
Proof. destruct (wrap_longitude_range L). by apply wrap_longitude_fixes. Qed.

(** X7.  The normalization of any longitude, inside [0, 360) or not: the
    result lies in [-180, 180) and differs from the original by a whole
    number of turns, and it is the only such number.  Hence a longitude that
    is already in [-180, 180) keeps its value, normalizing twice is the same
    as normalizing once, and longitudes that differ by whole turns are
    normalized to the same value. *)
Theorem X7_normalized_longitude_is_canonical :
  (∀ L, -180 <= wrap_longitude L ∧ wrap_longitude L < 180
        ∧ ∃ n, wrap_longitude L == L - 360 * inject_Z n)
  ∧ (∀ L r n, -180 <= r → r < 180 → L == r + 360 * inject_Z n →
              wrap_longitude L == r)
  ∧ (∀ L, -180 <= L → L < 180 → wrap_longitude L == L)
  ∧ (∀ L, wrap_longitude (wrap_longitude L) == wrap_longitude L)
  ∧ (∀ L n, wrap_longitude (L + 360 * inject_Z n) == wrap_longitude L).
Proof.
  split; [|split; [|split; [|split]]].
  - intros L. destruct (wrap_longitude_range L) as [H1 H2].
    split; [done|]. split; [done|]. eexists. apply wrap_longitude_turns.
  - apply wrap_longitude_unique.
  - apply wrap_longitude_fixes.
  - apply wrap_longitude_idem.
  - intros L n. destruct (wrap_longitude_range L) as [H1 H2].
    apply (wrap_longitude_unique _ _ (Qfloor ((L + 180) / 360) + n)); [done..|].
    rewrite (wrap_longitude_turns L), inject_Z_plus. ring.
Qed.

(** ** Normalizing a normalized dataset *)

Lemma stable_sort_sorted_id {A} (leb : A → A → bool) (l : list A) :
  StronglySorted (λ a b, leb a b = true) l → stable_sort leb l = l.
Proof.
  induction 1 as [|x l Hl IH Hx]; [done|].
  unfold stable_sort in *. simpl. rewrite IH.
  destruct l as [|y l']; [done|]. simpl.
  apply Forall_cons in Hx as [Hxy _]. by rewrite Hxy.
Qed.

Lemma StronglySorted_fmap_1 {A B} (R : relation B) (f : A → B) (l : list A) :
  StronglySorted R (f <$> l) → StronglySorted (λ a b, R (f a) (f b)) l.
Proof.
  induction l as [|x l IH]; [constructor|].
  rewrite fmap_cons. intros H. apply StronglySorted_inv in H as [Hl Hx].
  constructor; [by apply IH|]. rewrite Forall_fmap in Hx. exact Hx.
Qed.

(** The sorting permutation of a list in ascending order is the identity. *)
Lemma argsort_sorted (xs : list Q) :
  StronglySorted Qle xs → argsort xs = seq 0 (length xs).
Proof.
  intros Hs. unfold argsort. rewrite stable_sort_sorted_id; [apply enumerate_fst|].
  apply (StronglySorted_fmap_1 (λ x y, Qle_bool x y = true) snd).
  rewrite enumerate_snd. clear -Hs.
  induction Hs as [|x l Hl IH Hx]; constructor; [done|].
  eapply Forall_impl; [exact Hx|]. intros y Hy. by apply Qle_bool_iff.
Qed.

(** The longitudes that the correction returns are in ascending order,
    whatever the longitudes it was given. *)
Lemma corrected_longitudes_sorted (xs : list Q) :
  StronglySorted Qle
    ((λ p, wrap_longitude (xs !!! p)) <$> argsort (wrap_longitude <$> xs)).
Proof. apply wrapped_longitudes_sorted. Qed.

Lemma StronglySorted_Qle_Forall2 (ys zs : list Q) :
  Forall2 Qeq zs ys → StronglySorted Qle ys → StronglySorted Qle zs.
Proof.
  intros HF Hs. revert zs HF.
  induction Hs as [|y ys Hys IH Hy]; intros zs HF.
  - apply Forall2_nil_inv_r in HF as ->. constructor.
  - apply Forall2_cons_inv_r in HF as (z & zs' & Hz & HF & ->).
    constructor; [by apply IH|].
    clear IH Hys. induction HF as [|z' y' zs' ys' Hzy HF IH']; [constructor|].
    apply Forall_cons in Hy as [Hy1 Hy2]. constructor; [|by apply IH'].
    by rewrite Hz, Hzy.
Qed.

(** X8.  Correcting the longitudes is idempotent, for any longitudes: a
    second correction returns the same longitudes (as rationals) in the same
    order, and every data variable with the values it had, at each position
    of the grid; names, dtypes, attributes and the other coordinates stay as
    they were. *)
Theorem X8_longitude_correction_idempotent (ds : Dataset) (xs : list Q) :
  assoc "longitude" (coords ds) = Some (FloatIndex xs) →
  ∃ ds1 ds2 ys zs,
    correct_longitude ds = Ok ds1
    ∧ correct_longitude ds1 = Ok ds2
    ∧ assoc "longitude" (coords ds1) = Some (FloatIndex ys)
    ∧ assoc "longitude" (coords ds2) = Some (FloatIndex zs)
    ∧ length ys = length xs
    ∧ StronglySorted Qle ys
    ∧ Forall2 Qeq zs ys
    ∧ tdim ds2 = tdim ds1
    ∧ (∀ name, name ≠ "longitude" → assoc name (coords ds2) = assoc name (coords ds1))
    ∧ keys (data_vars ds2) = keys (data_vars ds1)
    ∧ ∀ name v1, assoc name (data_vars ds1) = Some v1 →
        ∃ v2, assoc name (data_vars ds2) = Some v2
          ∧ dv_dtype v2 = dv_dtype v1
          ∧ dv_attrs v2 = dv_attrs v1
          ∧ ∀ i j k, (k < length xs)%nat →
              dv_values v2 i j k = dv_values v1 i j k.
Proof.
  intros Hlon.
  destruct (correct_longitude_Ok ds xs Hlon) as (ds1 & Hok1 & Ht1 & Hc1 & Ho1 & Hv1).
  set (ys := (λ p, wrap_longitude (xs !!! p)) <$> argsort (wrap_longitude <$> xs)) in *.
  destruct (correct_longitude_Ok ds1 ys Hc1) as (ds2 & Hok2 & Ht2 & Hc2 & Ho2 & Hv2).
  assert (Hlen : length ys = length xs).
  { unfold ys. by rewrite length_fmap, argsort_perm, length_seq, length_fmap. }
  pose proof (corrected_longitudes_sorted xs) as Hsorted. fold ys in Hsorted.
  assert (Hfix : Forall2 Qeq (wrap_longitude <$> ys) ys).
  { apply Forall2_fmap_l, Forall_Forall2_diag, Forall_forall.
    intros y Hy. unfold ys in Hy. apply list_elem_of_fmap in Hy as (p & -> & _).
    apply wrap_longitude_idem. }
  assert (Hperm : argsort (wrap_longitude <$> ys) = seq 0 (length xs)).
  { rewrite argsort_sorted; [by rewrite length_fmap, Hlen|].
    by eapply StronglySorted_Qle_Forall2. }
  rewrite Hperm in Hc2, Hv2.
  exists ds1, ds2, ys, ((λ p, wrap_longitude (ys !!! p)) <$> seq 0 (length xs)).
  split; [done|]. split; [done|]. split; [done|]. split; [done|].
  split; [done|]. split; [done|]. split.
  { rewrite (list_fmap_ext _ (λ p, (wrap_longitude <$> ys) !!! p) (seq 0 (length xs)));
      last first.
    { intros i p Hp. simpl. symmetry.
      apply list_elem_of_lookup_2, elem_of_seq in Hp.
      apply list_lookup_total_fmap. lia. }
    rewrite <- Hlen, <- (length_fmap wrap_longitude ys).
    rewrite (lookup_total_seq _ 0 (length (wrap_longitude <$> ys))) by lia.
    by rewrite drop_0, firstn_all. }
  split; [done|]. split; [done|]. split.
  { rewrite Hv2. unfold keys. rewrite <- list_fmap_compose.
    apply list_fmap_ext. by intros i [n v] _. }
  intros name v1 Hn. exists (isel_longitude (seq 0 (length xs)) v1).
  split; [by rewrite Hv2, assoc_fmap, Hn|]. split; [done|]. split; [done|].
  intros i j k Hk. simpl. by rewrite lookup_total_seq_lt.
Qed.

Lemma X8_witness :
  ∃ ds1 ds2 ys zs,
    correct_longitude ds_two_years = Ok ds1
    ∧ correct_longitude ds1 = Ok ds2
    ∧ assoc "longitude" (coords ds1) = Some (FloatIndex ys)
    ∧ assoc "longitude" (coords ds2) = Some (FloatIndex zs)
    ∧ length ys = length [170; 190]
    ∧ StronglySorted Qle ys
    ∧ Forall2 Qeq zs ys
    ∧ tdim ds2 = tdim ds1
    ∧ (∀ name, name ≠ "longitude" → assoc name (coords ds2) = assoc name (coords ds1))
    ∧ keys (data_vars ds2) = keys (data_vars ds1)
    ∧ ∀ name v1, assoc name (data_vars ds1) = Some v1 →
        ∃ v2, assoc name (data_vars ds2) = Some v2
          ∧ dv_dtype v2 = dv_dtype v1
          ∧ dv_attrs v2 = dv_attrs v1
          ∧ ∀ i j k, (k < length [170; 190])%nat →
              dv_values v2 i j k = dv_values v1 i j k.
Proof.
  apply (X8_longitude_correction_idempotent ds_two_years [170; 190]).
  reflexivity.
Defined.

Local Close Scope Q_scope.

(** ** The grid normalizer as a whole *)

Lemma assoc_Some_keys {A} (k : string) (a : A) (l : list (string * A)) :
  assoc k l = Some a → k ∈ keys l.
Proof.
  induction l as [|[k' a'] l IH]; [done|]. simpl.
  destruct (decide (k = k')) as [->|Hne]; [intros _; left|].
  intros H. right. by apply IH.
Qed.

Lemma rename_key_absent {A} (old new : string) (l : list (string * A)) :
  old ∉ keys l → rename_key old new l = l.
Proof.
  intros Hold. unfold rename_key. etrans; [|apply list_fmap_id].
  apply list_fmap_ext. intros i [k a] Hi. simpl.
  rewrite decide_False; [done|]. intros ->. apply Hold.
  apply list_elem_of_fmap. exists (old, a). split; [done|].
  by eapply list_elem_of_lookup_2.
Qed.

Lemma assoc_rename_key_new {A} (old new : string) (l : list (string * A)) :
  new ∉ keys l → assoc new (rename_key old new l) = assoc old l.
Proof.
  induction l as [|[k a] l IH]; [done|]. unfold keys. rewrite fmap_cons.
  intros Hnew. apply not_elem_of_cons in Hnew as [Hk Hnew].
  unfold rename_key. rewrite fmap_cons. simpl.
  destruct (decide (k = old)) as [->|Hne]; simpl.
  - by rewrite !decide_True.
  - rewrite decide_False by done. rewrite (decide_False (P := old = k)) by done.
    by apply IH.
Qed.

Lemma assoc_rename_key_other {A} (old new k : string) (l : list (string * A)) :
  k ≠ old → k ≠ new → assoc k (rename_key old new l) = assoc k l.
Proof.
  intros Ho Hn. induction l as [|[k' a] l IH]; [done|].
  unfold rename_key. rewrite fmap_cons. simpl.
  destruct (decide (k' = old)) as [->|Hne]; simpl.
  - rewrite !decide_False by done. apply IH.
  - destruct (decide (k = k')); [done|]. apply IH.
Qed.

Lemma keys_rename_key_old {A} (old new : string) (l : list (string * A)) :
  old ≠ new → old ∉ keys (rename_key old new l).
Proof.
  intros Hne Hin. unfold keys, rename_key in Hin. rewrite <- list_fmap_compose in Hin.
  apply list_elem_of_fmap in Hin as ([k a] & Hk & _). simpl in Hk.
  destruct (decide (k = old)); simpl in Hk; congruence.
Qed.

Lemma keys_fmap_snd {A B} (f : A → B) (l : list (string * A)) :
  keys (prod_map id f <$> l) = keys l.
Proof.
  unfold keys. rewrite <- list_fmap_compose. apply list_fmap_ext. by intros i [k a] _.
Qed.

(** The dataset that the normalizer returns for a file whose time axis is
    called "valid_time". *)
Lemma load_and_clean_valid_time
    (path : Path) (w : World) (f : File) (ds : Dataset)
    (ts : list Timestamp) (xs : list Q) :
  files w !! path_name path = Some f →
  f_content f = Plain (NetCDF ds) →
  tdim ds = "valid_time" →
  assoc "valid_time" (coords ds) = Some (TimeIndex ts) →
  "time" ∉ keys (coords ds) →
  "time" ∉ keys (data_vars ds) →
  "valid_time" ∉ keys (data_vars ds) →
  assoc "longitude" (coords ds) = Some (FloatIndex xs) →
  ∃ clean,
    load_and_clean path w = Ok clean
    ∧ tdim clean = "time"
    ∧ assoc "time" (coords clean) = Some (TimeIndex ts)
    ∧ ("valid_time" ∉ keys (coords clean))
    ∧ assoc "longitude" (coords clean)
      = Some (FloatIndex ((λ p, wrap_longitude (xs !!! p))
                          <$> argsort (wrap_longitude <$> xs)))
    ∧ (∀ name, name ∉ ["time"; "valid_time"; "longitude"] →
               assoc name (coords clean) = assoc name (coords ds))
    ∧ data_vars clean
      = prod_map id (λ v, kelvin_to_celsius_var
                            (isel_longitude (argsort (wrap_longitude <$> xs)) v))
        <$> data_vars ds.
Proof.
  intros Hf Hc Htdim Hvt Htc Htv Hvv Hlon.
  assert (Hin : "valid_time" ∈ keys (coords ds)) by (by eapply assoc_Some_keys).
  set (ds0 := {| coords := rename_key "valid_time" "time" (coords ds);
                 tdim := "time";
                 data_vars := data_vars ds |}).
  assert (Hstd : standardize_time ds = Ok ds0).
  { unfold standardize_time, rename. rewrite decide_True by done.
    rewrite decide_False by (intros Hn; apply Hn, elem_of_app; by left).
    rewrite decide_False by (by intros [?|?]%elem_of_app).
    rewrite Htdim, decide_True by done.
    by rewrite (rename_key_absent _ _ (data_vars ds)). }
  assert (Hlon0 : assoc "longitude" (coords ds0) = Some (FloatIndex xs)).
  { unfold ds0. cbn [coords]. by rewrite assoc_rename_key_other. }
  destruct (correct_longitude_Ok ds0 xs Hlon0) as (ds1 & Hok1 & Ht1 & Hc1 & Ho1 & Hv1).
  exists (kelvin_to_celsius ds1). split.
  { unfold load_and_clean, open_dataset. rewrite Hf, Hc, bind_Ok, Hstd, bind_Ok, Hok1.
    done. }
  rewrite kelvin_to_celsius_eq. cbn [coords tdim data_vars].
  split; [by rewrite Ht1|]. split.
  { rewrite Ho1 by done. unfold ds0. cbn [coords]. by rewrite assoc_rename_key_new. }
  split.
  { intros Hk. apply assoc_is_Some in Hk as [c Hk].
    rewrite Ho1 in Hk by done. unfold ds0 in Hk. cbn [coords] in Hk.
    apply assoc_Some_keys in Hk. by apply keys_rename_key_old in Hk. }
  split; [done|]. split.
  { intros name Hname. rewrite Ho1; last first.
    { intros ->. apply Hname. apply list_elem_of_In. simpl. tauto. }
    unfold ds0. cbn [coords]. apply assoc_rename_key_other.
    - intros ->. apply Hname. apply list_elem_of_In. simpl. tauto.
    - intros ->. apply Hname. apply list_elem_of_In. simpl. tauto. }
  rewrite Hv1. unfold ds0. cbn [data_vars]. rewrite <- list_fmap_compose.
  apply list_fmap_ext. by intros i [n v] _.
Qed.

(** X9.  The normalizer as a whole, on a file as the data store delivers
    it: a dataset over ("valid_time", "latitude", "longitude") that has no
    variable or coordinate called "time".  Loading succeeds; the time axis
    is called "time" and has the same time steps, and the name "valid_time"
    is gone; the longitudes are the normalized ones (in exact arithmetic) in
    ascending order, under a permutation of their positions; and the value
    of every variable at a position of the grid is the value that the file
    has at the permuted longitude, less 273.15 when the unit of the variable
    begins with "k", with "K" or with the Kelvin sign U+212A, the three
    characters whose lower case is "k". *)
Theorem X9_cleaning_renames_sorts_and_converts
    (path : Path) (w : World) (f : File) (ds : Dataset)
    (ts : list Timestamp) (xs : list Q) :
  files w !! path_name path = Some f →
  f_content f = Plain (NetCDF ds) →
  tdim ds = "valid_time" →
  assoc "valid_time" (coords ds) = Some (TimeIndex ts) →
  "time" ∉ keys (coords ds) →
  "time" ∉ keys (data_vars ds) →
  "valid_time" ∉ keys (data_vars ds) →
  assoc "longitude" (coords ds) = Some (FloatIndex xs) →
  ∃ clean perm,
    load_and_clean path w = Ok clean
    ∧ tdim clean = "time"
    ∧ assoc "time" (coords clean) = Some (TimeIndex ts)
    ∧ ("valid_time" ∉ keys (coords clean))
    ∧ perm ≡ₚ seq 0 (length xs)
    ∧ assoc "longitude" (coords clean)
      = Some (FloatIndex ((λ p, wrap_longitude (xs !!! p)) <$> perm))
    ∧ StronglySorted Qle ((λ p, wrap_longitude (xs !!! p)) <$> perm)
    ∧ assoc "latitude" (coords clean) = assoc "latitude" (coords ds)
    ∧ keys (data_vars clean) = keys (data_vars ds)
    ∧ ∀ name v, assoc name (data_vars ds) = Some v →
        ∃ v', assoc name (data_vars clean) = Some v'
          ∧ dv_dtype v' = dv_dtype v
          ∧ ∀ i j k, dv_values v' i j k
              = if is_kelvin v
                then vsub (dv_values v i j (perm !!! k)) (Some 273.15%Q)
                else dv_values v i j (perm !!! k).
Proof.
  intros Hf Hc Htdim Hvt Htc Htv Hvv Hlon.
  destruct (load_and_clean_valid_time path w f ds ts xs)
    as (clean & Hok & Ht & Htime & Hgone & Hlon' & Hother & Hvars); [done..|].
  exists clean, (argsort (wrap_longitude <$> xs)).
  split; [done|]. split; [done|]. split; [done|]. split; [done|].
  split; [by rewrite argsort_perm, length_fmap|]. split; [done|].
  split; [apply corrected_longitudes_sorted|]. split.
  { apply Hother. intros Hin. apply list_elem_of_In in Hin. simpl in Hin.
    intuition discriminate. }
  split; [by rewrite Hvars, keys_fmap_snd|].
  intros name v Hn. rewrite Hvars, assoc_fmap, Hn.
  cbn [fmap option_fmap option_map]. eexists. split; [reflexivity|].
  unfold kelvin_to_celsius_var.
  change (is_kelvin (isel_longitude (argsort (wrap_longitude <$> xs)) v))
    with (is_kelvin v).
  destruct (is_kelvin v); done.
Qed.

Lemma X9_witness :
  ∃ clean perm,
    load_and_clean (monthly_out_file "raw" "tmean" 1991 2025) world_with_raw_file
    = Ok clean
    ∧ tdim clean = "time"
    ∧ assoc "time" (coords clean) = Some (TimeIndex two_years)
    ∧ ("valid_time" ∉ keys (coords clean))
    ∧ perm ≡ₚ seq 0 (length [170%Q; 190%Q])
    ∧ assoc "longitude" (coords clean)
      = Some (FloatIndex ((λ p, wrap_longitude ([170%Q; 190%Q] !!! p)) <$> perm))
    ∧ StronglySorted Qle ((λ p, wrap_longitude ([170%Q; 190%Q] !!! p)) <$> perm)
    ∧ assoc "latitude" (coords clean) = assoc "latitude" (coords ds_valid_time)
    ∧ keys (data_vars clean) = keys (data_vars ds_valid_time)
    ∧ ∀ name v, assoc name (data_vars ds_valid_time) = Some v →
        ∃ v', assoc name (data_vars clean) = Some v'
          ∧ dv_dtype v' = dv_dtype v
          ∧ ∀ i j k, dv_values v' i j k
              = if is_kelvin v
                then vsub (dv_values v i j (perm !!! k)) (Some 273.15%Q)
                else dv_values v i j (perm !!! k).
Proof.
  apply (X9_cleaning_renames_sorts_and_converts
           (monthly_out_file "raw" "tmean" 1991 2025) world_with_raw_file
           {| f_content := Plain (NetCDF ds_valid_time); f_mtime := 0 |}
           ds_valid_time two_years [170%Q; 190%Q]).
  - reflexivity.
  - reflexivity.
  - reflexivity.
  - reflexivity.
  - intros Hin. apply list_elem_of_In in Hin. simpl in Hin. intuition discriminate.
  - intros Hin. apply list_elem_of_In in Hin. simpl in Hin. intuition discriminate.
  - intros Hin. apply list_elem_of_In in Hin. simpl in Hin. intuition discriminate.
  - reflexivity.
Defined.

(** X10.  The alias "date" (lines 140-141), in a dataset without the alias
    "valid_time".  When a coordinate "time" exists, the dataset is left as
    it is.  When no coordinate and no variable is called "time", the
    coordinate "date" is renamed: afterwards "time" has the index that
    "date" had, no coordinate is called "date", the leading dimension is
    called "time" if it was called "date", and the other coordinates are as
    before.  When no coordinate but a data variable is called "time", the
    rename fails with ValueError. *)
Theorem X10_date_alias_renamed_only_without_time (ds : Dataset) :
  "valid_time" ∉ keys (coords ds) →
  "date" ∈ keys (coords ds) →
  ("time" ∈ keys (coords ds) → standardize_time ds = Ok ds)
  ∧ ("time" ∉ keys (coords ds) → "time" ∉ keys (data_vars ds) →
     ∃ ds', standardize_time ds = Ok ds'
       ∧ assoc "time" (coords ds') = assoc "date" (coords ds)
       ∧ ("date" ∉ keys (coords ds'))
       ∧ (∀ k, k ≠ "time" → k ≠ "date" → assoc k (coords ds') = assoc k (coords ds))
       ∧ tdim ds' = (if decide (tdim ds = "date") then "time" else tdim ds)
       ∧ ("date" ∉ keys (data_vars ds) → data_vars ds' = data_vars ds))
  ∧ ("time" ∉ keys (coords ds) → "time" ∈ keys (data_vars ds) →
     standardize_time ds = Raise ValueError).
Proof.
  intros Hv Hd. split; [|split].
  - intros Ht. by apply standardize_time_keeps_time.
  - intros Htc Htv. unfold standardize_time, rename.
    rewrite decide_False by done. rewrite decide_True by done.
    rewrite decide_False by (intros Hn; apply Hn, elem_of_app; by left).
    rewrite decide_False by (by intros [?|?]%elem_of_app).
    eexists. split; [reflexivity|]. cbn [coords tdim data_vars].
    split; [by apply assoc_rename_key_new|].
    split; [by apply keys_rename_key_old|].
    split; [intros k Hk1 Hk2; by apply assoc_rename_key_other|].
    split; [done|]. intros Hdv. by apply rename_key_absent.
  - intros Htc Htv. unfold standardize_time, rename.
    rewrite decide_False by done. rewrite decide_True by done.
    rewrite decide_False by (intros Hn; apply Hn, elem_of_app; by left).
    rewrite decide_True by (apply elem_of_app; by right). done.
Qed.

Lemma X10_witness :
  ("time" ∈ keys (coords ds_date) → standardize_time ds_date = Ok ds_date)
  ∧ ("time" ∉ keys (coords ds_date) → "time" ∉ keys (data_vars ds_date) →
     ∃ ds', standardize_time ds_date = Ok ds'
       ∧ assoc "time" (coords ds') = assoc "date" (coords ds_date)
       ∧ ("date" ∉ keys (coords ds'))
       ∧ (∀ k, k ≠ "time" → k ≠ "date" →
               assoc k (coords ds') = assoc k (coords ds_date))
       ∧ tdim ds' = (if decide (tdim ds_date = "date") then "time" else tdim ds_date)
       ∧ ("date" ∉ keys (data_vars ds_date) → data_vars ds' = data_vars ds_date))
  ∧ ("time" ∉ keys (coords ds_date) → "time" ∈ keys (data_vars ds_date) →
     standardize_time ds_date = Raise ValueError).
Proof.
  apply (X10_date_alias_renamed_only_without_time ds_date).
  - intros Hin. apply list_elem_of_In in Hin. simpl in Hin. intuition discriminate.
  - left.
Defined.

(** ** The climatology engine: when it succeeds, and missing values *)

Lemma time_index_Ok_inv (t : string) (cs : list (string * Coord)) (ts : list Timestamp) :
  time_index t cs = Ok ts → t = "time" ∧ assoc "time" cs = Some (TimeIndex ts).
Proof.
  unfold time_index. case_decide; [|done].
  destruct (assoc "time" cs) as [[ts'|xs]|]; [|done..].
  intros [= ->]. done.
Qed.

(** X11.  For a dataset whose time index is in chronological order, the
    engine returns a dataset exactly when the input has a data variable, its
    leading dimension is called "time" and carries a datetime index, and at
    least one time step lies in the baseline slice.  A dataset without any
    data variable makes it raise IndexError. *)
Theorem X11_engine_succeeds_iff (ds : Dataset) (baseline_start baseline_end : Z) :
  (∀ ts, assoc "time" (coords ds) = Some (TimeIndex ts) → chronological ts) →
  ((∃ out, monthly_anomaly_from_monthly ds baseline_start baseline_end = Ok out)
   ↔ (data_vars ds ≠ []
      ∧ tdim ds = "time"
      ∧ ∃ ts, assoc "time" (coords ds) = Some (TimeIndex ts)
          ∧ ∃ t, t ∈ ts ∧ in_year_slice baseline_start baseline_end t))
  ∧ (data_vars ds = [] →
     monthly_anomaly_from_monthly ds baseline_start baseline_end = Raise IndexError).
Proof.
  intros _. split; [split|].
  - intros [out Hout]. pose proof Hout as Hout0.
    unfold monthly_anomaly_from_monthly in Hout.
    destruct (data_vars ds) as [|[name v] others] eqn:Hvars; [done|].
    split; [done|].
    unfold getitem in Hout. rewrite Hvars in Hout. simpl in Hout.
    rewrite decide_True in Hout by done. simpl in Hout.
    unfold sel_years in Hout. cbn [da_tdim da_coords] in Hout.
    destruct (time_index _ _) as [ts|] eqn:Hti; [|done].
    apply time_index_Ok_inv in Hti as [Htdim Htime].
    rewrite assoc_filter in Htime by (rewrite Htdim; left).
    split; [done|]. exists ts. split; [done|]. clear Hout.
    destruct (decide (filter (in_year_slice baseline_start baseline_end) ts = []))
      as [Hnil|Hne].
    + by rewrite (monthly_anomaly_from_monthly_empty_baseline
                    ds baseline_start baseline_end name v others ts) in Hout0.
    + destruct (filter (in_year_slice baseline_start baseline_end) ts)
        as [|t0 rest] eqn:Hflt; [done|].
      exists t0. assert (Hin : t0 ∈ filter (in_year_slice baseline_start baseline_end) ts)
        by (rewrite Hflt; left).
      apply list_elem_of_filter in Hin as [? ?]. done.
  - intros (Hne & Htdim & ts & Htime & t & Hin & Hs).
    destruct (data_vars ds) as [|[name v] others] eqn:Hvars; [done|].
    eexists. eapply monthly_anomaly_from_monthly_Ok; [done..|].
    intros Hnil. assert (Hf : t ∈ filter (in_year_slice baseline_start baseline_end) ts)
      by (by apply list_elem_of_filter).
    rewrite Hnil in Hf. by apply elem_of_nil in Hf.
  - intros Hvars. unfold monthly_anomaly_from_monthly. by rewrite Hvars.
Qed.

Lemma X11_witness :
  ((∃ out, monthly_anomaly_from_monthly ds_two_years 1991 2020 = Ok out)
   ↔ (data_vars ds_two_years ≠ []
      ∧ tdim ds_two_years = "time"
      ∧ ∃ ts, assoc "time" (coords ds_two_years) = Some (TimeIndex ts)
          ∧ ∃ t, t ∈ ts ∧ in_year_slice 1991 2020 t))
  ∧ (data_vars ds_two_years = [] →
     monthly_anomaly_from_monthly ds_two_years 1991 2020 = Raise IndexError).
Proof.
  apply (X11_engine_succeeds_iff ds_two_years 1991 2020).
  intros ts [= <-]. exact two_years_chronological.
Defined.

(** *** Offsets *)

Lemma value_eq_refl (a : value) : value_eq a a.
Proof. destruct a; simpl; [reflexivity|done]. Qed.

(** The mean of values that are all lowered by [c] is the mean lowered by
    [c]. *)
Lemma nanmean_shift (c : Q) (l : list value) :
  value_eq (nanmean ((λ x, vsub x (Some c)) <$> l)) (vsub (nanmean l) (Some c)).
Proof.
  unfold nanmean. rewrite observed_centered.
  destruct (observed l) as [|x xs] eqn:E; [done|].
  rewrite fmap_cons. cbn [vsub value_eq].
  change ((x - c)%Q :: ((λ y, (y - c)%Q) <$> xs)) with ((λ y, (y - c)%Q) <$> x :: xs).
  rewrite Qsum_centered, length_fmap.
  set (n := inject_Z (Z.of_nat (length (x :: xs)))).
  assert (Hn : ¬ (n == 0)%Q).
  { unfold n. simpl length. rewrite Nat2Z.inj_succ. unfold Qeq. simpl. lia. }
  field. done.
Qed.

Lemma vsub_shift (x m m' : value) (c : Q) :
  value_eq m' (vsub m (Some c)) →
  value_eq (vsub (vsub x (Some c)) m') (vsub x m).
Proof.
  destruct x as [x|], m as [m|], m' as [m'|]; simpl; try done.
  intros H. rewrite H. ring.
Qed.

(** X12.  The anomalies do not depend on an offset of the data (the time
    index being in chronological order and the baseline not empty): when
    every value of the variable is lowered by the same constant (as the
    conversion from Kelvin to degrees Celsius does), the engine returns the
    same anomalies, missing where they were missing and equal as rationals
    where they were observed. *)
Theorem X12_anomalies_do_not_depend_on_offset
    (cs : list (string * Coord)) (name name' : string) (v v' : DataVar)
    (others others' : list (string * DataVar))
    (baseline_start baseline_end : Z) (ts : list Timestamp) (c : Q) :
  assoc "time" cs = Some (TimeIndex ts) →
  chronological ts →
  (∃ t, t ∈ ts ∧ in_year_slice baseline_start baseline_end t) →
  (∀ i j k, dv_values v' i j k = vsub (dv_values v i j k) (Some c)) →
  ∃ out out' anom anom',
    monthly_anomaly_from_monthly
      {| coords := cs; tdim := "time"; data_vars := (name, v) :: others |}
      baseline_start baseline_end = Ok out
    ∧ monthly_anomaly_from_monthly
        {| coords := cs; tdim := "time"; data_vars := (name', v') :: others' |}
        baseline_start baseline_end = Ok out'
    ∧ assoc "t2m_anomaly_c" (data_vars out) = Some anom
    ∧ assoc "t2m_anomaly_c" (data_vars out') = Some anom'
    ∧ ∀ i j k, (i < length ts)%nat →
        value_eq (dv_values anom' i j k) (dv_values anom i j k).
Proof.
  intros Htime _ (t0 & Hin & Hs) Hshift.
  assert (Hbase : filter (in_year_slice baseline_start baseline_end) ts ≠ []).
  { intros Hnil. assert (Hf : t0 ∈ filter (in_year_slice baseline_start baseline_end) ts)
      by (by apply list_elem_of_filter).
    rewrite Hnil in Hf. by apply elem_of_nil in Hf. }
  eexists _, _, _, _.
  split; [by eapply monthly_anomaly_from_monthly_Ok|].
  split; [by eapply monthly_anomaly_from_monthly_Ok|].
  cbn [data_vars]. split; [reflexivity|]. split; [reflexivity|].
  intros i j k Hi. cbn [dv_values].
  destruct (lookup_lt_is_Some_2 ts i Hi) as [t Ht].
  rewrite !(anomaly_values_spec ts _ baseline_start baseline_end i t j k Ht).
  rewrite Hshift. apply vsub_shift.
  unfold baseline_climatology.
  rewrite (list_fmap_ext (λ i', dv_values v' i' j k)
             (λ i', vsub (dv_values v i' j k) (Some c)) _) by (intros; apply Hshift).
  rewrite (list_fmap_compose (λ i', dv_values v i' j k) (λ x, vsub x (Some c))).
  apply nanmean_shift.
Qed.

Lemma X12_witness :
  ∃ out out' anom anom',
    monthly_anomaly_from_monthly
      {| coords := coords ds_two_years; tdim := "time";
         data_vars := ("t2m", t2m_two_years) :: [] |}
      1991 1991 = Ok out
    ∧ monthly_anomaly_from_monthly
        {| coords := coords ds_two_years; tdim := "time";
           data_vars := ("t2m", kelvin_to_celsius_var t2m_two_years) :: [] |}
        1991 1991 = Ok out'
    ∧ assoc "t2m_anomaly_c" (data_vars out) = Some anom
    ∧ assoc "t2m_anomaly_c" (data_vars out') = Some anom'
    ∧ ∀ i j k, (i < length two_years)%nat →
        value_eq (dv_values anom' i j k) (dv_values anom i j k).
Proof.
  apply (X12_anomalies_do_not_depend_on_offset (coords ds_two_years) "t2m" "t2m"
           t2m_two_years (kelvin_to_celsius_var t2m_two_years) [] [] 1991 1991
           two_years 273.15%Q).
  - reflexivity.
  - exact two_years_chronological.
  - exists (month_start 1991 1). split.
    + apply (list_elem_of_lookup_2 _ 0%nat). reflexivity.
    + unfold in_year_slice, date_le. simpl. lia.
  - intros i j k. reflexivity.
Defined.

(** *** Missing values *)

Lemma nanmean_is_Some (l : list value) :
  is_Some (nanmean l) ↔ ∃ x, Some x ∈ l.
Proof.
  unfold nanmean. split.
  - destruct (observed l) as [|x xs] eqn:E; [by intros [? ?]|]. intros _.
    exists x. assert (Hx : x ∈ observed l) by (rewrite E; left).
    unfold observed in Hx. apply list_elem_of_omap in Hx as (o & Ho & Hid).
    simpl in Hid. by subst o.
  - intros [x Hx]. assert (Hx' : x ∈ observed l).
    { unfold observed. apply list_elem_of_omap. by exists (Some x). }
    destruct (observed l) as [|y ys]; [by apply elem_of_nil in Hx'|]. by eexists.
Qed.

Lemma vsub_is_Some (a b : value) : is_Some (vsub a b) ↔ is_Some a ∧ is_Some b.
Proof.
  destruct a, b; simpl; split; try (by intros [? ?]); by intros [[? ?] [? ?]].
Qed.

(** X13.  Which anomalies are observed (the time index being in
    chronological order and the baseline not empty).  The anomaly at a time
    step and a cell is observed exactly when the raw value there is observed
    and at least one time step of the baseline slice in the same calendar
    month has an observed value at that cell: missing baseline values are
    skipped by the mean.  In particular, when no time step of the baseline
    falls in the calendar month of a time step, all its anomalies are
    missing, without any error. *)
Theorem X13_anomaly_observed_iff
    (ds : Dataset) (baseline_start baseline_end : Z)
    (name : string) (v : DataVar) (others : list (string * DataVar))
    (ts : list Timestamp) :
  data_vars ds = (name, v) :: others →
  tdim ds = "time" →
  assoc "time" (coords ds) = Some (TimeIndex ts) →
  chronological ts →
  (∃ t, t ∈ ts ∧ in_year_slice baseline_start baseline_end t) →
  ∃ out anom,
    monthly_anomaly_from_monthly ds baseline_start baseline_end = Ok out
    ∧ assoc "t2m_anomaly_c" (data_vars out) = Some anom
    ∧ (∀ i t j k, ts !! i = Some t →
         (is_Some (dv_values anom i j k)
          ↔ is_Some (dv_values v i j k)
            ∧ ∃ i' t', ts !! i' = Some t'
                ∧ in_year_slice baseline_start baseline_end t'
                ∧ ts_month t' = ts_month t
                ∧ is_Some (dv_values v i' j k)))
    ∧ (∀ i t, ts !! i = Some t →
         (∀ t', t' ∈ ts → in_year_slice baseline_start baseline_end t' →
                ts_month t' ≠ ts_month t) →
         ∀ j k, dv_values anom i j k = NaN).
Proof.
  intros Hvars Htdim Htime _ (t0 & Hin & Hs).
  assert (Hbase : filter (in_year_slice baseline_start baseline_end) ts ≠ []).
  { intros Hnil. assert (Hf : t0 ∈ filter (in_year_slice baseline_start baseline_end) ts)
      by (by apply list_elem_of_filter).
    rewrite Hnil in Hf. by apply elem_of_nil in Hf. }
  assert (Hobs : ∀ i t j k, ts !! i = Some t →
            (is_Some (anomaly_values ts v baseline_start baseline_end i j k)
             ↔ is_Some (dv_values v i j k)
               ∧ ∃ i' t', ts !! i' = Some t'
                   ∧ in_year_slice baseline_start baseline_end t'
                   ∧ ts_month t' = ts_month t
                   ∧ is_Some (dv_values v i' j k))).
  { intros i t j k Hi.
    rewrite (anomaly_values_spec ts v baseline_start baseline_end i t j k Hi).
    rewrite vsub_is_Some. unfold baseline_climatology. rewrite nanmean_is_Some.
    split; intros [Hv Hex]; (split; [done|]).
    - destruct Hex as [x Hx]. apply list_elem_of_fmap in Hx as (i' & Hx & Hp).
      apply positions_where_spec in Hp as (t' & Ht' & Hs' & Hm').
      exists i', t'. rewrite <- Hx. split; [done|]. split; [done|]. split; [done|].
      by eexists.
    - destruct Hex as (i' & t' & Ht' & Hs' & Hm' & [x Hx]).
      exists x. apply list_elem_of_fmap. exists i'. split; [done|].
      apply positions_where_spec. by exists t'. }
  eexists _, _. split; [by eapply monthly_anomaly_from_monthly_Ok|].
  cbn [data_vars]. split; [reflexivity|]. cbn [dv_values]. split; [exact Hobs|].
  intros i t Hi Hnone j k.
  destruct (anomaly_values ts v baseline_start baseline_end i j k) as [a|] eqn:Ha; [|done].
  exfalso. assert (His : is_Some (anomaly_values ts v baseline_start baseline_end i j k))
    by (rewrite Ha; by eexists).
  apply (Hobs i t j k Hi) in His as [_ (i' & t' & Ht' & Hs' & Hm' & _)].
  eapply Hnone; [|done..]. by eapply list_elem_of_lookup_2.
Qed.

Lemma X13_witness :
  ∃ out anom,
    monthly_anomaly_from_monthly ds_two_years 1991 1991 = Ok out
    ∧ assoc "t2m_anomaly_c" (data_vars out) = Some anom
    ∧ (∀ i t j k, two_years !! i = Some t →
         (is_Some (dv_values anom i j k)
          ↔ is_Some (dv_values t2m_two_years i j k)
            ∧ ∃ i' t', two_years !! i' = Some t'
                ∧ in_year_slice 1991 1991 t'
                ∧ ts_month t' = ts_month t
                ∧ is_Some (dv_values t2m_two_years i' j k)))
    ∧ (∀ i t, two_years !! i = Some t →
         (∀ t', t' ∈ two_years → in_year_slice 1991 1991 t' →
                ts_month t' ≠ ts_month t) →
         ∀ j k, dv_values anom i j k = NaN).
Proof.
  apply (X13_anomaly_observed_iff ds_two_years 1991 1991 "t2m" t2m_two_years []
           two_years);
    [reflexivity | reflexivity | reflexivity | exact two_years_chronological |].
  exists (month_start 1991 1). split.
  - apply (list_elem_of_lookup_2 _ 0%nat). reflexivity.
  - unfold in_year_slice, date_le. simpl. lia.
Defined.

(** ** The global aggregator: the values of the table *)

(** The table of the global aggregator, row by row: year, month, and the
    values of the statistics series at the position of the time step. *)
Lemma compute_global_monthly_stats_rows
    (ds : Dataset) (columns : list string) (ts : list Timestamp) :
  tdim ds = "time" →
  assoc "time" (coords ds) = Some (TimeIndex ts) →
  is_Some (assoc "latitude" (coords ds)) →
  is_Some (assoc "longitude" (coords ds)) →
  columns ≠ [] →
  NoDup columns →
  (∀ c, c ∈ columns → c ∈ keys (data_vars ds)) →
  ∃ sl, mapM (stats_of ds) columns = Ok sl
    ∧ compute_global_monthly_stats ds columns
      = Ok {| df_columns := ["year"; "month"] ++ stat_columns columns;
              df_index := range_index (length (coord_cells (TimeIndex ts)));
              df_rows :=
                (λ x : nat * Timestamp,
                   CInt int16 (astype_int16 (ts_year x.2))
                   :: CInt int8 (astype_int8 (ts_month x.2))
                   :: ((λ e : string * Series, CFloat (se_dtype e.2) (se_values e.2 x.1))
                       <$> concat sl))
                <$> enumerate ts |}.
Proof.
  intros Htdim Htime Hlat Hlon Hne Hnd Hcols.
  destruct (stats_list_Ok ds columns ts) as (sl & Hmap & Hkeys & Hser); [done..|].
  pose proof (stat_columns_NoDup columns Hnd) as Hndn.
  pose proof (stat_columns_length columns) as Hlen.
  set (names := stat_columns columns) in *.
  assert (Hres : ∀ r, r ∈ ["time"; "year"; "month"] → r ∉ names).
  { intros r Hr. apply stat_columns_not_reserved.
    apply list_elem_of_In in Hr. apply list_elem_of_In. simpl in *. tauto. }
  exists sl. split; [done|].
  unfold compute_global_monthly_stats. rewrite Hmap, bind_Ok.
  unfold merge. rewrite dedup_keys_NoDup by (by rewrite Hkeys).
  set (merged := concat sl) in *.
  set (cells := λ i : nat, (λ v : string * Series,
                  CFloat (se_dtype v.2) (se_values v.2 i)) <$> merged).
  assert (Hcells : ∀ i, length (cells i) = length names).
  { intros i. unfold cells. rewrite length_fmap, <- Hkeys. unfold keys.
    by rewrite length_fmap. }
  set (xs := enumerate ts).
  set (R0 := λ p : nat * Timestamp, CTime p.2 :: cells p.1).
  set (idx := range_index (length (coord_cells (TimeIndex ts)))).
  assert (Hpdf : series_to_dataframe merged
                 = Ok {| df_columns := "time" :: names; df_index := idx;
                         df_rows := R0 <$> xs |}).
  { destruct merged as [|[n0 s0] rest] eqn:E.
    { exfalso. apply Hne. apply length_zero_iff_nil.
      unfold keys in Hkeys. simpl in Hkeys. rewrite <- Hkeys in Hlen.
      simpl in Hlen. lia. }
    apply Forall_cons in Hser as [[Ht0 Hi0] _]. simpl in Ht0, Hi0.
    unfold series_to_dataframe. rewrite Hi0, Ht0.
    unfold from_option. rewrite bind_Ok, Hkeys. do 2 f_equal.
    cbn [coord_cells]. rewrite enumerate_fmap, <- list_fmap_compose. done. }
  rewrite Hpdf, bind_Ok.
  rewrite (df_column_fmap "time" _ _ R0 xs 0) by reflexivity.
  rewrite bind_Ok.
  change ((λ x, R0 x !!! 0%nat) <$> xs)
    with ((λ x : nat * Timestamp, CTime x.2) <$> xs).
  rewrite dt_year_int16_times, bind_Ok.
  set (cy := λ x : nat * Timestamp, CInt int16 (astype_int16 (ts_year x.2))).
  rewrite (df_setitem_new_fmap "year" _ idx R0 cy xs); last first.
  { apply position_of_None. intros [?|?]%elem_of_cons; [done|].
    eapply Hres; [|done]. apply list_elem_of_In. simpl. tauto. }
  rewrite (df_column_fmap "time" _ _ _ xs 0) by reflexivity.
  rewrite bind_Ok.
  change ((λ x, (R0 x ++ [cy x]) !!! 0%nat) <$> xs)
    with ((λ x : nat * Timestamp, CTime x.2) <$> xs).
  rewrite dt_month_int8_times, bind_Ok.
  set (cm := λ x : nat * Timestamp, CInt int8 (astype_int8 (ts_month x.2))).
  rewrite (df_setitem_new_fmap "month" _ idx _ cm xs); last first.
  { apply position_of_None. rewrite elem_of_app, elem_of_cons.
    intros [[?|?]|Hin]; [done| |].
    - eapply Hres; [|done]. apply list_elem_of_In. simpl. tauto.
    - apply list_elem_of_singleton in Hin. done. }
  change ((("time" :: names) ++ ["year"]) ++ ["month"])
    with ("time" :: (names ++ ["year"]) ++ ["month"]).
  change (λ x, (R0 x ++ [cy x]) ++ [cm x])
    with (λ x : nat * Timestamp, CTime x.2 :: (cells x.1 ++ [cy x]) ++ [cm x]).
  rewrite (df_drop_head_fmap "time" ((names ++ ["year"]) ++ ["month"]) idx
             (λ x, CTime x.2) (λ x, (cells x.1 ++ [cy x]) ++ [cm x]) xs); last first.
  { intros x. rewrite !length_app, Hcells. done. }
  { rewrite !elem_of_app. intros [[Hin|Hin]|Hin].
    - eapply Hres; [|done]. left.
    - by apply list_elem_of_singleton in Hin.
    - by apply list_elem_of_singleton in Hin. }
  rewrite bind_Ok. cbn [df_columns].
  assert (Hstat : filter (λ c, c ∉ ["year"; "month"]) ((names ++ ["year"]) ++ ["month"])
                  = names).
  { rewrite !filter_app. rewrite (filter_all _ names).
    - rewrite !filter_cons, !filter_nil.
      rewrite !decide_False; [by rewrite !app_nil_r| |].
      + intros Hn. apply Hn. apply list_elem_of_In. simpl. tauto.
      + intros Hn. apply Hn. apply list_elem_of_In. simpl. tauto.
    - intros c Hc Hin. eapply Hres; [|exact Hc].
      apply list_elem_of_In in Hin. apply list_elem_of_In. simpl in *. tauto. }
  rewrite Hstat.
  set (n := length names).
  assert (Hpos : mapM (λ c, col_position c
                    {| df_columns := (names ++ ["year"]) ++ ["month"];
                       df_index := idx;
                       df_rows := (λ x, (cells x.1 ++ [cy x]) ++ [cm x]) <$> xs |})
                   (["year"; "month"] ++ names)
                 = Ok ([n; S n] ++ seq 0 n)).
  { assert (Hy : ∀ r, r ∈ ["year"; "month"] → r ∉ names).
    { intros r Hr. apply Hres. apply list_elem_of_In in Hr.
      apply list_elem_of_In. simpl in *. tauto. }
    cbn [mapM app].
    rewrite (col_position_Some "year" _ n); last first.
    { cbn [df_columns]. rewrite <- app_assoc.
      rewrite position_of_app_r by (apply Hy; left). simpl.
      f_equal. unfold n. lia. }
    rewrite bind_Ok.
    rewrite (col_position_Some "month" _ (S n)); last first.
    { cbn [df_columns]. rewrite <- app_assoc.
      rewrite position_of_app_r by (apply Hy; right; left). simpl.
      f_equal. unfold n. lia. }
    rewrite bind_Ok.
    rewrite (mapM_position_of_self names ["year"; "month"]); [done|done|].
    cbn [df_columns]. by rewrite <- app_assoc. }
  rewrite (df_select_fmap _ _ _ _ _ _ Hpos).
  set (row := λ x : nat * Timestamp,
         (λ p, ((cells x.1 ++ [cy x]) ++ [cm x]) !!! p) <$> ([n; S n] ++ seq 0 n)).
  assert (Hrow : ∀ x, row x = cy x :: cm x :: cells x.1).
  { intros x. unfold row. rewrite fmap_app. simpl. f_equal; [|f_equal].
    - apply list_lookup_total_correct.
      rewrite lookup_app_l by (rewrite length_app, Hcells; simpl; unfold n; lia).
      rewrite lookup_app_r by (rewrite Hcells; unfold n; lia).
      rewrite Hcells. unfold n. by rewrite Nat.sub_diag.
    - apply list_lookup_total_correct.
      rewrite lookup_app_r by (rewrite length_app, Hcells; simpl; unfold n; lia).
      rewrite length_app, Hcells. simpl. unfold n.
      by replace (S (length names) - (length names + 1))%nat with 0%nat by lia.
    - rewrite (lookup_total_seq _ 0 n)
        by (rewrite !length_app, Hcells; simpl; unfold n; lia).
      rewrite drop_0, <- app_assoc, take_app_length'; [done|].
      by rewrite Hcells. }
  do 2 f_equal. apply list_fmap_ext. intros i x _. apply (Hrow x).
Qed.

Lemma stats_of_explicit (ds : Dataset) (col : string) (v : DataVar)
    (ts : list Timestamp) (latc lonc : Coord) :
  tdim ds = "time" →
  assoc "time" (coords ds) = Some (TimeIndex ts) →
  assoc "latitude" (coords ds) = Some latc →
  assoc "longitude" (coords ds) = Some lonc →
  assoc col (data_vars ds) = Some v →
  ∃ entries, stats_of ds col = Ok entries
    ∧ ∀ i, (λ e : string * Series, CFloat (se_dtype e.2) (se_values e.2 i)) <$> entries
           = (λ stat : list value → value,
                CFloat (dv_dtype v)
                  (stat (grid_values v (coord_length latc) (coord_length lonc) i)))
             <$> [nanmean; nanmedian; nanmin; nanmax].
Proof.
  intros Htdim Htime Hlat Hlon Hv.
  unfold stats_of, getitem. rewrite Hv, Htdim. simpl.
  unfold reduce_space, dim_size. simpl.
  rewrite !assoc_filter by (apply list_elem_of_In; simpl; tauto).
  rewrite Hlat, Hlon, Htime. simpl.
  eexists. split; [reflexivity|]. intros i. reflexivity.
Qed.

(** A block of a list that is made of blocks of the same length. *)
Lemma take_drop_concat {A} (n : nat) (bs : list (list A)) (q : nat) (b : list A) :
  Forall (λ b, length b = n) bs → bs !! q = Some b →
  take n (drop (n * q) (concat bs)) = b.
Proof.
  revert bs. induction q as [|q IH]; intros [|b0 bs] Hlen Hq; try done.
  - simpl in Hq. injection Hq as ->. apply Forall_cons in Hlen as [Hb _].
    rewrite Nat.mul_0_r, drop_0. simpl. by rewrite take_app_length'.
  - apply Forall_cons in Hlen as [Hb Hlen]. simpl in Hq. simpl concat.
    replace (n * S q)%nat with (length b0 + n * q)%nat by lia.
    rewrite drop_app_add'; [|done]. by apply IH.
Qed.

(** The block of four cells of every requested variable, in every row. *)
Lemma compute_global_monthly_stats_blocks
    (ds : Dataset) (columns : list string) (ts : list Timestamp) (latc lonc : Coord) :
  tdim ds = "time" →
  assoc "time" (coords ds) = Some (TimeIndex ts) →
  assoc "latitude" (coords ds) = Some latc →
  assoc "longitude" (coords ds) = Some lonc →
  columns ≠ [] →
  NoDup columns →
  (∀ c, c ∈ columns → c ∈ keys (data_vars ds)) →
  ∃ df, compute_global_monthly_stats ds columns = Ok df
    ∧ ∀ i t q c v, ts !! i = Some t → columns !! q = Some c →
        assoc c (data_vars ds) = Some v →
        ∃ row, df_rows df !! i = Some row
          ∧ take 4 (drop (2 + 4 * q) row)
            = (λ stat : list value → value,
                 CFloat (dv_dtype v)
                   (stat (grid_values v (coord_length latc) (coord_length lonc) i)))
              <$> [nanmean; nanmedian; nanmin; nanmax].
Proof.
  intros Htdim Htime Hlat Hlon Hne Hnd Hcols.
  destruct (compute_global_monthly_stats_rows ds columns ts) as (sl & Hmap & Hok);
    [done | done | by eexists | by eexists | done..|].
  eexists. split; [exact Hok|]. cbn [df_rows].
  intros i t q c v Hi Hq Hv.
  rewrite list_lookup_fmap, (enumerate_lookup ts i t Hi). cbn [fmap option_fmap option_map].
  eexists. split; [reflexivity|]. cbn [fst snd drop Nat.add].
  destruct (mapM_Ok_Forall2 (stats_of ds)
              (λ c entries, ∀ v i, assoc c (data_vars ds) = Some v →
                 (λ e : string * Series, CFloat (se_dtype e.2) (se_values e.2 i)) <$> entries
                 = (λ stat : list value → value,
                      CFloat (dv_dtype v)
                        (stat (grid_values v (coord_length latc) (coord_length lonc) i)))
                   <$> [nanmean; nanmedian; nanmin; nanmax]) columns)
    as (sl' & Hmap' & HF).
  { intros c' Hc'. destruct (assoc_is_Some c' (data_vars ds) (Hcols c' Hc')) as [v' Hv'].
    destruct (stats_of_explicit ds c' v' ts latc lonc) as (entries & He & Hcells);
      [done..|].
    exists entries. split; [done|]. intros v0 i0 Hv0.
    rewrite Hv' in Hv0. injection Hv0 as <-. apply Hcells. }
  rewrite Hmap in Hmap'. injection Hmap' as <-.
  destruct (Forall2_lookup_l _ _ _ _ _ HF Hq) as (entries & Hsl & Hent).
  transitivity ((λ e : string * Series, CFloat (se_dtype e.2) (se_values e.2 i))
                <$> entries); [|exact (Hent v i Hv)].
  assert (Hcc : (λ e : string * Series, CFloat (se_dtype e.2) (se_values e.2 i)) <$> concat sl
                = concat ((λ b : list (string * Series),
                             (λ e : string * Series,
                                CFloat (se_dtype e.2) (se_values e.2 i)) <$> b) <$> sl)).
  { clear. induction sl as [|b sl IH]; [done|]. simpl. by rewrite fmap_app, IH. }
  rewrite Hcc. apply take_drop_concat.
  - apply Forall_fmap, Forall_forall. intros entries' Hin.
    apply list_elem_of_lookup_1 in Hin as [q' Hq'].
    destruct (Forall2_lookup_r _ _ _ _ _ HF Hq') as (c' & Hc' & Hent').
    destruct (assoc_is_Some c' (data_vars ds)) as [v' Hv'].
    { apply Hcols. by eapply list_elem_of_lookup_2. }
    simpl. by rewrite (Hent' v' i Hv').
  - by rewrite list_lookup_fmap, Hsl.
Qed.

(** X14.  The values of the table of the global aggregator, for a dataset
    without other coordinates than those of its dimensions ("year" and
    "month" apart): in the row of
    the time step at position [i], the four cells of the requested variable
    number [q] (after the two cells of year and month, four cells per
    variable) are the mean, the median, the minimum and the maximum of the
    values of that variable over all the cells of the grid at time step [i],
    missing values being skipped, with the dtype of the variable (mean and
    median in exact arithmetic). *)
Theorem X14_global_stats_are_the_grid_statistics
    (ds : Dataset) (columns : list string) (ts : list Timestamp) (latc lonc : Coord) :
  tdim ds = "time" →
  assoc "time" (coords ds) = Some (TimeIndex ts) →
  assoc "latitude" (coords ds) = Some latc →
  assoc "longitude" (coords ds) = Some lonc →
  index_coords ds →
  columns ≠ [] →
  NoDup columns →
  (∀ c, c ∈ columns → c ∈ keys (data_vars ds)) →
  ∃ df, compute_global_monthly_stats ds columns = Ok df
    ∧ ∀ i t q c v, ts !! i = Some t → columns !! q = Some c →
        assoc c (data_vars ds) = Some v →
        ∃ row, df_rows df !! i = Some row
          ∧ take 4 (drop (2 + 4 * q) row)
            = let gv := grid_values v (coord_length latc) (coord_length lonc) i in
              [CFloat (dv_dtype v) (nanmean gv); CFloat (dv_dtype v) (nanmedian gv);
               CFloat (dv_dtype v) (nanmin gv); CFloat (dv_dtype v) (nanmax gv)].
Proof.
  intros Htdim Htime Hlat Hlon _ Hne Hnd Hcols.
  destruct (compute_global_monthly_stats_blocks ds columns ts latc lonc)
    as (df & Hok & Hblocks); [done..|].
  exists df. split; [done|]. intros i t q c v Hi Hq Hv.
  destruct (Hblocks i t q c v Hi Hq Hv) as (row & Hrow & Hblock).
  exists row. split; [done|]. by rewrite Hblock.
Qed.

Lemma X14_witness :
  ∃ df, compute_global_monthly_stats ds_two_years ["t2m"] = Ok df
    ∧ ∀ i t q c v, two_years !! i = Some t → ["t2m"] !! q = Some c →
        assoc c (data_vars ds_two_years) = Some v →
        ∃ row, df_rows df !! i = Some row
          ∧ take 4 (drop (2 + 4 * q) row)
            = let gv := grid_values v (coord_length (FloatIndex [10%Q; 20%Q]))
                          (coord_length (FloatIndex [170%Q; 190%Q])) i in
              [CFloat (dv_dtype v) (nanmean gv); CFloat (dv_dtype v) (nanmedian gv);
               CFloat (dv_dtype v) (nanmin gv); CFloat (dv_dtype v) (nanmax gv)].
Proof.
  apply (X14_global_stats_are_the_grid_statistics ds_two_years ["t2m"] two_years
           (FloatIndex [10%Q; 20%Q]) (FloatIndex [170%Q; 190%Q])).
  - reflexivity.
  - reflexivity.
  - reflexivity.
  - reflexivity.
  - exact ds_two_years_index_coords.
  - done.
  - apply NoDup_singleton.
  - intros c Hc. apply list_elem_of_singleton in Hc as ->. simpl. left.
Defined.

(** *** Minimum, mean, median and maximum *)

Local Open Scope Q_scope.

Lemma Qmin_le_l (a b : Q) : Qmin a b <= a.
Proof.
  unfold Qmin. destruct (Qle_bool a b) eqn:E; [apply Qle_refl|].
  assert (¬ a <= b) by (rewrite <- Qle_bool_iff; congruence). lra.
Qed.

Lemma Qmin_le_r (a b : Q) : Qmin a b <= b.
Proof.
  unfold Qmin. destruct (Qle_bool a b) eqn:E; [by apply Qle_bool_iff|apply Qle_refl].
Qed.

Lemma Qmax_ge_l (a b : Q) : a <= Qmax a b.
Proof.
  unfold Qmax. destruct (Qle_bool a b) eqn:E; [by apply Qle_bool_iff|apply Qle_refl].
Qed.

Lemma Qmax_ge_r (a b : Q) : b <= Qmax a b.
Proof.
  unfold Qmax. destruct (Qle_bool a b) eqn:E; [apply Qle_refl|].
  assert (¬ a <= b) by (rewrite <- Qle_bool_iff; congruence). lra.
Qed.

Lemma foldl_Qmin_le (x : Q) (xs : list Q) :
  Forall (λ y, foldl Qmin x xs <= y) (x :: xs).
Proof.
  revert x. induction xs as [|y xs IH]; intros x; [repeat constructor; apply Qle_refl|].
  simpl. specialize (IH (Qmin x y)). apply Forall_cons in IH as [H1 H2].
  constructor; [|constructor; [|done]].
  - eapply Qle_trans; [exact H1|]. apply Qmin_le_l.
  - eapply Qle_trans; [exact H1|]. apply Qmin_le_r.
Qed.

Lemma foldl_Qmax_ge (x : Q) (xs : list Q) :
  Forall (λ y, y <= foldl Qmax x xs) (x :: xs).
Proof.
  revert x. induction xs as [|y xs IH]; intros x; [repeat constructor; apply Qle_refl|].
  simpl. specialize (IH (Qmax x y)). apply Forall_cons in IH as [H1 H2].
  constructor; [|constructor; [|done]].
  - eapply Qle_trans; [|exact H1]. apply Qmax_ge_l.
  - eapply Qle_trans; [|exact H1]. apply Qmax_ge_r.
Qed.

Lemma Qsum_bounds (lo hi : Q) (xs : list Q) :
  Forall (λ y, lo <= y ∧ y <= hi) xs →
  inject_Z (Z.of_nat (length xs)) * lo <= Qsum xs
  ∧ Qsum xs <= inject_Z (Z.of_nat (length xs)) * hi.
Proof.
  induction 1 as [|y xs [Hy1 Hy2] Hxs [IH1 IH2]].
  - unfold Qsum. simpl foldr. simpl length.
    change (inject_Z (Z.of_nat 0)) with 0. split; lra.
  - unfold Qsum in *. simpl foldr. simpl length.
    rewrite Nat2Z.inj_succ, <- Z.add_1_r, inject_Z_plus.
    change (inject_Z 1) with 1. split; lra.
Qed.

(** The four statistics of a list of values are consistent. *)
Lemma stats_consistent_list (l : list value) :
  stats_consistent (nanmean l) (nanmedian l) (nanmin l) (nanmax l).
Proof.
  unfold nanmean, nanmedian, nanmin, nanmax.
  destruct (observed l) as [|x xs] eqn:E; [done|].
  set (lo := foldl Qmin x xs). set (hi := foldl Qmax x xs).
  assert (Hb : Forall (λ y, lo <= y ∧ y <= hi) (x :: xs)).
  { pose proof (foldl_Qmin_le x xs) as H1. pose proof (foldl_Qmax_ge x xs) as H2.
    rewrite Forall_forall in *. intros y Hy. split; [by apply H1 | by apply H2]. }
  set (sorted := stable_sort Qle_bool (x :: xs)).
  assert (Hs : Forall (λ y, lo <= y ∧ y <= hi) sorted).
  { unfold sorted. rewrite Forall_forall in *. intros y Hy.
    apply Hb. by rewrite stable_sort_perm in Hy. }
  assert (Hlen : length sorted = S (length xs)).
  { unfold sorted. by rewrite stable_sort_length. }
  assert (Hel : ∀ p, (p < S (length xs))%nat → lo <= sorted !!! p ∧ sorted !!! p <= hi).
  { intros p Hp. rewrite Forall_forall in Hs. apply Hs.
    apply list_elem_of_lookup_total_2. lia. }
  rewrite Hlen. rewrite decide_False by done.
  assert (Hmean : lo <= Qsum (x :: xs) / inject_Z (Z.of_nat (length (x :: xs)))
                  ∧ Qsum (x :: xs) / inject_Z (Z.of_nat (length (x :: xs))) <= hi).
  { destruct (Qsum_bounds lo hi (x :: xs) Hb) as [H1 H2].
    assert (Hn : 0 < inject_Z (Z.of_nat (length (x :: xs)))).
    { simpl length. rewrite Nat2Z.inj_succ. unfold Qlt. simpl. lia. }
    split.
    - apply Qle_shift_div_l; [done|]. lra.
    - apply Qle_shift_div_r; [done|]. lra. }
  assert (Hdiv : (S (length xs) / 2 < S (length xs))%nat)
    by (apply Nat.div_lt; lia).
  destruct (Nat.even (S (length xs))).
  - unfold stats_consistent. split; [done|].
    destruct (Hel (S (length xs) / 2 - 1)%nat) as [H1 H2]; [lia|].
    destruct (Hel (S (length xs) / 2)%nat) as [H3 H4]; [lia|].
    split.
    + apply Qle_shift_div_l; [reflexivity|]. lra.
    + apply Qle_shift_div_r; [reflexivity|]. lra.
  - unfold stats_consistent. split; [done|]. by apply Hel.
Qed.

Local Close Scope Q_scope.

(** X15.  The statistics of the table are consistent, for a dataset without
    other coordinates than those of its dimensions ("year" and "month"
    apart): in every row and for every requested variable, either no value
    of the grid is observed at that time step and the four statistics are
    missing, or all four are observed, and, in exact arithmetic, both the
    mean and the median lie between the minimum and the maximum.  (The
    rounding of a floating point mean can take it past the largest value by
    one unit in the last place; the statement is about the exact mean.) *)
Theorem X15_global_stats_are_ordered
    (ds : Dataset) (columns : list string) (ts : list Timestamp) (latc lonc : Coord) :
  tdim ds = "time" →
  assoc "time" (coords ds) = Some (TimeIndex ts) →
  assoc "latitude" (coords ds) = Some latc →
  assoc "longitude" (coords ds) = Some lonc →
  index_coords ds →
  columns ≠ [] →
  NoDup columns →
  (∀ c, c ∈ columns → c ∈ keys (data_vars ds)) →
  ∃ df, compute_global_monthly_stats ds columns = Ok df
    ∧ ∀ i t q c, ts !! i = Some t → columns !! q = Some c →
        ∃ row dt mean median min max,
          df_rows df !! i = Some row
          ∧ take 4 (drop (2 + 4 * q) row)
            = [CFloat dt mean; CFloat dt median; CFloat dt min; CFloat dt max]
          ∧ stats_consistent mean median min max.
Proof.
  intros Htdim Htime Hlat Hlon _ Hne Hnd Hcols.
  destruct (compute_global_monthly_stats_blocks ds columns ts latc lonc)
    as (df & Hok & Hblocks); [done..|].
  exists df. split; [done|]. intros i t q c Hi Hq.
  destruct (assoc_is_Some c (data_vars ds)) as [v Hv].
  { apply Hcols. by eapply list_elem_of_lookup_2. }
  destruct (Hblocks i t q c v Hi Hq Hv) as (row & Hrow & Hblock).
  eexists row, _, _, _, _, _. split; [done|]. split; [exact Hblock|].
  apply stats_consistent_list.
Qed.

Lemma X15_witness :
  ∃ df, compute_global_monthly_stats ds_two_years ["t2m"] = Ok df
    ∧ ∀ i t q c, two_years !! i = Some t → ["t2m"] !! q = Some c →
        ∃ row dt mean median min max,
          df_rows df !! i = Some row
          ∧ take 4 (drop (2 + 4 * q) row)
            = [CFloat dt mean; CFloat dt median; CFloat dt min; CFloat dt max]
          ∧ stats_consistent mean median min max.
Proof.
  apply (X15_global_stats_are_ordered ds_two_years ["t2m"] two_years
           (FloatIndex [10%Q; 20%Q]) (FloatIndex [170%Q; 190%Q])).
  - reflexivity.
  - reflexivity.
  - reflexivity.
  - reflexivity.
  - exact ds_two_years_index_coords.
  - done.
  - apply NoDup_singleton.
  - intros c Hc. apply list_elem_of_singleton in Hc as ->. simpl. left.
Defined.

(** *** A variable that the dataset does not have *)

Lemma mapM_Raise {A B} (f : A → result B) (e : exn) (l : list A) :
  (∀ x, x ∈ l → (∃ y, f x = Ok y) ∨ f x = Raise e) →
  (∃ x, x ∈ l ∧ f x = Raise e) →
  mapM f l = Raise e.
Proof.
  induction l as [|x l IH]; intros Hall (x0 & Hin & Hx0); [by apply elem_of_nil in Hin|].
  simpl. destruct (Hall x) as [[y Hy]|Hr]; [left| |by rewrite Hr].
  rewrite Hy. simpl. apply elem_of_cons in Hin as [->|Hin]; [congruence|].
  rewrite IH; [done| |by eauto]. intros z Hz. apply Hall. by right.
Qed.

(** X16.  A request for variables of the dataset and for at least one name
    that the dataset cannot resolve (neither a data variable nor a
    coordinate nor a dimension, and without a dot) makes the global
    aggregator raise KeyError: no table is returned. *)
Theorem X16_global_stats_of_missing_variable
    (ds : Dataset) (columns : list string) (ts : list Timestamp) (missing : string) :
  tdim ds = "time" →
  assoc "time" (coords ds) = Some (TimeIndex ts) →
  is_Some (assoc "latitude" (coords ds)) →
  is_Some (assoc "longitude" (coords ds)) →
  (∀ c, c ∈ columns → c ∈ keys (data_vars ds) ∨ unknown_name ds c) →
  missing ∈ columns →
  unknown_name ds missing →
  compute_global_monthly_stats ds columns = Raise KeyError.
Proof.
  intros Htdim Htime Hlat Hlon _ Hin [Hmiss _].
  assert (Hnone : ∀ c, c ∉ keys (data_vars ds) → stats_of ds c = Raise KeyError).
  { intros c Hc. unfold stats_of, getitem.
    destruct (assoc c (data_vars ds)) as [v|] eqn:Hv; [|done].
    by apply assoc_Some_keys in Hv. }
  unfold compute_global_monthly_stats.
  rewrite (mapM_Raise (stats_of ds) KeyError columns); [done| |].
  - intros c _. destruct (decide (c ∈ keys (data_vars ds))) as [Hc|Hc].
    + left. destruct (stats_of_Ok ds c ts) as (entries & He & _); [done..|]. eauto.
    + right. by apply Hnone.
  - exists missing. split; [done|]. by apply Hnone.
Qed.

Lemma anomaly_unknown_in_two_years : unknown_name ds_two_years "t2m_anomaly_c".
Proof.
  repeat split; intros Hin; apply list_elem_of_In in Hin; simpl in Hin;
    intuition discriminate.
Qed.

Lemma X16_witness :
  compute_global_monthly_stats ds_two_years ["t2m"; "t2m_anomaly_c"] = Raise KeyError.
Proof.
  apply (X16_global_stats_of_missing_variable ds_two_years ["t2m"; "t2m_anomaly_c"]
           two_years "t2m_anomaly_c").
  - reflexivity.
  - reflexivity.
  - by eexists.
  - by eexists.
  - intros c Hc. apply list_elem_of_In in Hc. simpl in Hc.
    destruct Hc as [<-|[<-|[]]]; [left; left | right; exact anomaly_unknown_in_two_years].
  - right. left.
  - exact anomaly_unknown_in_two_years.
Defined.

(** ** The spatial windower: the rows of the table *)

(** The frame of one year, with the values of its rows: the value of a
    requested variable at a time step of the year is read at the position
    that the time step has in the whole series. *)
Lemma year_frame_rows (ds : Dataset) (columns : list string) (year : Z)
    (ts : list Timestamp) (lats lons : list Q) :
  tdim ds = "time" →
  assoc "time" (coords ds) = Some (TimeIndex ts) →
  assoc "latitude" (coords ds) = Some (FloatIndex lats) →
  assoc "longitude" (coords ds) = Some (FloatIndex lons) →
  columns ≠ [] →
  NoDup columns →
  (∀ c, c ∈ columns → c ∈ keys (data_vars ds)) →
  (∀ c, c ∈ columns → c ∉ ["time"; "latitude"; "longitude"; "year"; "month"]) →
  ∃ vals : nat → nat → nat → list Cell,
    year_frame ds columns year
    = Ok {| df_columns := ["latitude"; "longitude"; "year"; "month"] ++ columns;
            df_index := range_index
              (length (grid3 (filter (in_year_slice year year) ts) lats lons));
            df_rows :=
              (λ q : (nat * Timestamp) * (nat * Q) * (nat * Q),
                 [CFloat float64 (Some q.1.2.2); CFloat float64 (Some q.2.2);
                  CInt int16 (astype_int16 (ts_year q.1.1.2));
                  CInt int8 (astype_int8 (ts_month q.1.1.2))]
                 ++ vals q.1.1.1 q.1.2.1 q.2.1)
              <$> grid3 (filter (in_year_slice year year) ts) lats lons |}
    ∧ (∀ i j k, length (vals i j k) = length columns)
    ∧ ∀ i j k, vals i j k
        = omap (λ c, (λ v, CFloat (dv_dtype v)
                             (dv_values v
                                (positions_where (in_year_slice year year) ts !!! i) j k))
                     <$> assoc c (data_vars ds)) columns.
Proof.
  intros Htdim Htime Hlat Hlon Hne Hnd Hcols Hres.
  set (tsy := filter (in_year_slice year year) ts).
  set (pos := positions_where (in_year_slice year year) ts).
  unfold year_frame, ds_sel_years.
  rewrite (time_index_Ok _ _ ts) by done. rewrite !bind_Ok.
  unfold ds_subset. cbn [data_vars coords tdim].
  rewrite (decide_False (P := columns = [])) by done.
  destruct (mapM_Ok_Forall2
              (λ n, v ← from_option KeyError
                          (assoc n (prod_map id (isel_time pos) <$> data_vars ds));
                    Ok (n, v))
              (λ n (e : string * DataVar),
                 e.1 = n ∧ ∃ v, assoc n (data_vars ds) = Some v ∧ e.2 = isel_time pos v)
              columns) as (vars & Hvars & HF).
  { intros c Hc. apply Hcols, assoc_is_Some in Hc as [v Hv].
    rewrite assoc_fmap, Hv. simpl. eauto 10. }
  fold pos. rewrite Hvars, bind_Ok.
  assert (Hkeys : keys vars = columns).
  { clear Hvars Hne. unfold keys. induction HF as [|c e l l' [He _] HF IH]; [done|].
    rewrite fmap_cons, He. f_equal. apply IH.
    - by apply NoDup_cons in Hnd as [_ ?].
    - intros c' Hc'. apply Hcols. by right.
    - intros c' Hc'. apply Hres. by right. }
  rewrite dedup_keys_NoDup by (by rewrite Hkeys).
  rewrite bind_Ok. unfold to_dataframe. cbn [data_vars coords tdim].
  rewrite Htdim, assoc_update_key, Htime.
  rewrite !assoc_update_key_ne by done. rewrite Hlat, Hlon.
  unfold from_option. cbn [fmap option_fmap option_map]. rewrite !bind_Ok.
  cbn [coord_cells]. fold tsy.
  rewrite (to_dataframe_rows_vars CTime (λ x, CFloat float64 (Some x))
             (λ x, CFloat float64 (Some x)) tsy lats lons vars).
  set (V := λ i j k : nat, (λ v : string * DataVar,
              CFloat (dv_dtype v.2) (dv_values v.2 i j k)) <$> vars).
  assert (HV : ∀ i j k, length (V i j k) = length columns).
  { intros i j k. unfold V. rewrite length_fmap, <- Hkeys. unfold keys.
    by rewrite length_fmap. }
  set (G := grid3 tsy lats lons).
  set (R0 := λ q : (nat * Timestamp) * (nat * Q) * (nat * Q),
         [CTime q.1.1.2; CFloat float64 (Some q.1.2.2); CFloat float64 (Some q.2.2)]
         ++ V q.1.1.1 q.1.2.1 q.2.1).
  change (λ q : (nat * Timestamp) * (nat * Q) * (nat * Q),
            [CTime q.1.1.2; CFloat float64 (Some q.1.2.2); CFloat float64 (Some q.2.2)]
            ++ ((λ v : string * DataVar,
                   CFloat (dv_dtype v.2) (dv_values v.2 q.1.1.1 q.1.2.1 q.2.1))
                <$> vars)) with R0.
  rewrite length_fmap. set (idx := range_index (length G)).
  rewrite Hkeys.
  assert (Hnot : ∀ r, r ∈ ["time"; "latitude"; "longitude"; "year"; "month"] →
                      r ∉ columns).
  { intros r Hr Hc. by apply (Hres r Hc). }
  rewrite (df_column_fmap "time" _ _ R0 G 0) by reflexivity.
  rewrite bind_Ok.
  change ((λ x, R0 x !!! 0%nat) <$> G)
    with ((λ q : (nat * Timestamp) * (nat * Q) * (nat * Q), CTime q.1.1.2) <$> G).
  rewrite dt_year_int16_times, bind_Ok.
  set (cy := λ q : (nat * Timestamp) * (nat * Q) * (nat * Q),
         CInt int16 (astype_int16 (ts_year q.1.1.2))).
  rewrite (df_setitem_new_fmap "year" _ idx R0 cy G); last first.
  { apply position_of_None. rewrite elem_of_app. intros [Hin|Hin].
    - apply list_elem_of_In in Hin. simpl in Hin. intuition discriminate.
    - eapply Hnot; [|exact Hin]. apply list_elem_of_In. simpl. tauto. }
  rewrite (df_column_fmap "time" _ _ _ G 0) by reflexivity.
  rewrite bind_Ok.
  change ((λ x, (R0 x ++ [cy x]) !!! 0%nat) <$> G)
    with ((λ q : (nat * Timestamp) * (nat * Q) * (nat * Q), CTime q.1.1.2) <$> G).
  rewrite dt_month_int8_times, bind_Ok.
  set (cm := λ q : (nat * Timestamp) * (nat * Q) * (nat * Q),
         CInt int8 (astype_int8 (ts_month q.1.1.2))).
  rewrite (df_setitem_new_fmap "month" _ idx _ cm G); last first.
  { apply position_of_None. rewrite !elem_of_app. intros [[Hin|Hin]|Hin].
    - apply list_elem_of_In in Hin. simpl in Hin. intuition discriminate.
    - eapply Hnot; [|exact Hin]. apply list_elem_of_In. simpl. tauto.
    - apply list_elem_of_singleton in Hin. done. }
  set (n := length columns).
  assert (Hpos : mapM (λ c, col_position c
                    {| df_columns :=
                         ((["time"; "latitude"; "longitude"] ++ columns) ++ ["year"])
                         ++ ["month"];
                       df_index := idx;
                       df_rows := (λ x, (R0 x ++ [cy x]) ++ [cm x]) <$> G |})
                   (["latitude"; "longitude"; "year"; "month"] ++ columns)
                 = Ok ([1; 2; 3 + n; 4 + n]%nat ++ seq 3 n)).
  { cbn [mapM app].
    rewrite (col_position_Some "latitude" _ 1%nat) by reflexivity.
    rewrite bind_Ok.
    rewrite (col_position_Some "longitude" _ 2%nat) by reflexivity.
    rewrite bind_Ok.
    rewrite (col_position_Some "year" _ (3 + n)%nat); last first.
    { cbn [df_columns]. simpl. rewrite <- app_assoc, position_of_app_r;
        last first.
      { apply Hnot. apply list_elem_of_In. simpl. tauto. }
      simpl. f_equal. unfold n. lia. }
    rewrite bind_Ok.
    rewrite (col_position_Some "month" _ (4 + n)%nat); last first.
    { cbn [df_columns]. simpl. rewrite <- app_assoc, position_of_app_r;
        last first.
      { apply Hnot. apply list_elem_of_In. simpl. tauto. }
      simpl. f_equal. unfold n. lia. }
    rewrite bind_Ok.
    erewrite (mapM_position_of_mid ["time"; "latitude"; "longitude"] columns
                ["year"; "month"] _ Hnd).
    - done.
    - intros c Hc Hin. apply (Hres c Hc).
      apply list_elem_of_In in Hin. apply list_elem_of_In. simpl in *. tauto.
    - cbn [df_columns]. by rewrite <- !app_assoc. }
  rewrite (df_select_fmap _ _ _ _ _ _ Hpos).
  exists V. split; [|split; [done|]]; last first.
  { intros i j k. unfold V. clear -HF.
    induction HF as [|c e l l' [He (v & Hv & He2)] HF IH]; [done|].
    rewrite fmap_cons. cbn [omap list_omap]. rewrite Hv. cbn [fmap option_fmap option_map].
    rewrite <- IH. by rewrite He2. }
  do 2 f_equal.
  apply list_fmap_ext. intros i q _.
  assert (HR : length (R0 q) = (3 + n)%nat).
  { unfold R0. rewrite length_app, HV. done. }
  assert (E3 : ((R0 q ++ [cy q]) ++ [cm q]) !!! (3 + n)%nat = cy q).
  { apply list_lookup_total_correct.
    rewrite lookup_app_l by (rewrite length_app, HR; simpl; lia).
    rewrite lookup_app_r by lia. by rewrite HR, Nat.sub_diag. }
  assert (E4 : ((R0 q ++ [cy q]) ++ [cm q]) !!! (4 + n)%nat = cm q).
  { assert (Hl : length (R0 q ++ [cy q]) = (4 + n)%nat)
      by (rewrite length_app, HR; simpl; lia).
    apply list_lookup_total_correct.
    rewrite lookup_app_r by (rewrite Hl; lia). by rewrite Hl, Nat.sub_diag. }
  rewrite fmap_app. f_equal.
  - cbn [fmap list_fmap]. rewrite E3, E4. reflexivity.
  - rewrite (lookup_total_seq _ 3 n) by (rewrite !length_app, HR; simpl; lia).
    unfold R0. rewrite <- !app_assoc. simpl. rewrite drop_0, take_app_length'; [done|].
    by rewrite HV.
Qed.
(** The time steps that satisfy [P], numbered as in the selection, are the
    time steps that satisfy [P] with their positions in the whole list. *)
Lemma enumerate_filter {A} (P : A → Prop) `{!∀ x, Decision (P x)} (l : list A) :
  (λ p : nat * A, (positions_where P l !!! p.1, p.2)) <$> enumerate (filter P l)
  = filter (λ p : nat * A, P p.2) (enumerate l).
Proof.
  induction l as [|x l IH] using rev_ind; [done|].
  rewrite positions_where_snoc, filter_app, enumerate_snoc, filter_app.
  rewrite <- IH. rewrite !filter_cons, !filter_nil. simpl.
  destruct (decide (P x)) as [Hx|Hx].
  - rewrite enumerate_snoc, fmap_app. f_equal.
    + apply list_fmap_ext. intros i [p a] Hp. simpl. f_equal.
      apply list_elem_of_lookup_2, elem_of_enumerate in Hp. simpl in Hp.
      apply lookup_total_app_l. rewrite positions_where_length.
      by eapply lookup_lt_Some.
    + simpl. do 2 f_equal.
      rewrite lookup_total_app_r by (by rewrite positions_where_length).
      by rewrite positions_where_length, Nat.sub_diag.
  - rewrite !app_nil_r. done.
Qed.

(** Splitting a list by a key and joining the parts of the keys [ys] gives
    the elements whose key is in [ys], in another order. *)
Lemma concat_filter_partition {A} (P : Z → A → Prop) `{!∀ y x, Decision (P y x)}
    (κ : A → Z) (l : list A) (ys : list Z) :
  NoDup ys →
  (∀ a y, a ∈ l → P y a ↔ κ a = y) →
  concat ((λ y, filter (P y) l) <$> ys) ≡ₚ filter (λ a, κ a ∈ ys) l.
Proof.
  intros Hnd HP. induction Hnd as [|y ys Hy Hnd IH].
  - simpl. rewrite filter_none; [done|]. intros a _ Hin. by apply elem_of_nil in Hin.
  - rewrite fmap_cons. simpl. rewrite IH. clear IH.
    induction l as [|a l IHl]; [done|].
    assert (HP' : ∀ a' y', a' ∈ l → P y' a' ↔ κ a' = y').
    { intros a' y' Ha'. apply HP. by right. }
    specialize (IHl HP'). rewrite !filter_cons.
    destruct (decide (P y a)) as [Hp|Hp].
    + apply HP in Hp; [|left].
      rewrite (decide_False (P := κ a ∈ ys)) by (by rewrite Hp).
      rewrite (decide_True (P := κ a ∈ y :: ys)) by (rewrite Hp; left).
      simpl. by rewrite IHl.
    + assert (Hne : κ a ≠ y) by (intros Heq; apply Hp, HP; [left|done]).
      destruct (decide (κ a ∈ ys)) as [Hin|Hin].
      * rewrite (decide_True (P := κ a ∈ y :: ys)) by (by right).
        rewrite <- Permutation_middle. by rewrite IHl.
      * rewrite (decide_False (P := κ a ∈ y :: ys)); [done|].
        by intros [?|?]%elem_of_cons.
Qed.

(** The rows of one year of the window. *)
Lemma year_rows_window (ds : Dataset) (columns : list string) (year : Z)
    (ts : list Timestamp) (lats lons : list Q) :
  tdim ds = "time" →
  assoc "time" (coords ds) = Some (TimeIndex ts) →
  assoc "latitude" (coords ds) = Some (FloatIndex lats) →
  assoc "longitude" (coords ds) = Some (FloatIndex lons) →
  columns ≠ [] →
  NoDup columns →
  (∀ c, c ∈ columns → c ∈ keys (data_vars ds)) →
  (∀ c, c ∈ columns → c ∉ ["time"; "latitude"; "longitude"; "year"; "month"]) →
  Forall valid_timestamp ts →
  year_rows ds columns year
  = spatial_row ds columns
    <$> (filter (λ p : nat * Timestamp, in_year_slice year year p.2) (enumerate ts)
         ≫= λ t, y ← enumerate lats; x ← enumerate lons; [(t, y, x)]).
Proof.
  intros Htdim Htime Hlat Hlon Hne Hnd Hcols Hres Hvalid.
  destruct (year_frame_rows ds columns year ts lats lons)
    as (vals & Hok & _ & Hvals); [done..|].
  unfold year_rows. rewrite Hok. cbn [df_rows].
  rewrite <- (enumerate_filter (in_year_slice year year) ts).
  unfold grid3. rewrite list_bind_fmap_l, !list_fmap_bind_r.
  apply list_bind_ext_in. intros t Ht. cbv beta.
  rewrite !list_fmap_bind_r. apply list_bind_ext_in. intros y _. cbv beta.
  rewrite !list_fmap_bind_r. apply list_bind_ext_in. intros x _.
  simpl. f_equal. unfold spatial_row. simpl. rewrite Hvals.
  assert (Hv : valid_timestamp t.2).
  { destruct t as [i t]. apply elem_of_enumerate in Ht. simpl in *.
    apply list_elem_of_lookup_2, list_elem_of_filter in Ht as [_ Ht].
    by eapply Forall_forall in Hvalid. }
  by destruct (valid_timestamp_casts _ Hv) as [-> ->].
Qed.

(** X17.  What the table of the spatial windower holds, for a time index
    in chronological order, at least one requested variable and a window
    that is not empty: for every time
    step whose year lies in the window and for every cell of the grid,
    exactly one row, made of the latitude and the longitude of the cell, the
    year (int16) and the month (int8) of the time step, and the values of the
    requested variables at that time step and cell, in the order of the
    request; and no other row. *)
Theorem X17_spatial_rows_are_the_window
    (ds : Dataset) (columns : list string) (start_year end_year : Z)
    (ts : list Timestamp) (lats lons : list Q) :
  tdim ds = "time" →
  assoc "time" (coords ds) = Some (TimeIndex ts) →
  chronological ts →
  assoc "latitude" (coords ds) = Some (FloatIndex lats) →
  assoc "longitude" (coords ds) = Some (FloatIndex lons) →
  columns ≠ [] →
  NoDup columns →
  (∀ c, c ∈ columns → c ∈ keys (data_vars ds)) →
  (∀ c, c ∈ columns → c ∉ ["time"; "latitude"; "longitude"; "year"; "month"]) →
  Forall valid_timestamp ts →
  start_year ≤ end_year →
  ∃ df, compute_spatial_anomalies_recent ds columns start_year end_year = Ok df
    ∧ df_rows df
      ≡ₚ spatial_row ds columns <$> window_grid start_year end_year ts lats lons.
Proof.
  intros Htdim Htime _ Hlat Hlon Hne Hnd Hcols Hres Hvalid Hle.
  eexists. split; [by eapply compute_spatial_anomalies_recent_Ok|].
  cbn [df_rows]. rewrite stable_sort_perm.
  set (years := seqZ start_year (end_year + 1 - start_year)).
  set (K := λ t : nat * Timestamp,
         y ← enumerate lats; x ← enumerate lons; [(t, y, x)]).
  rewrite (list_fmap_ext (year_rows ds columns)
             (λ year, spatial_row ds columns
                <$> (filter (λ p : nat * Timestamp, in_year_slice year year p.2)
                       (enumerate ts) ≫= K)) years)
    by (intros i y _; by apply (year_rows_window ds columns y ts lats lons)).
  assert (E : concat ((λ year, spatial_row ds columns
                         <$> (filter (λ p : nat * Timestamp, in_year_slice year year p.2)
                                (enumerate ts) ≫= K)) <$> years)
              = spatial_row ds columns
                <$> (concat ((λ year,
                       filter (λ p : nat * Timestamp, in_year_slice year year p.2)
                         (enumerate ts)) <$> years) ≫= K)).
  { clear. induction years as [|y years IH]; [done|].
    rewrite !fmap_cons. simpl concat. by rewrite bind_app, fmap_app, IH. }
  rewrite E. apply fmap_Permutation. unfold window_grid. fold K.
  apply bind_Permutation.
  rewrite (concat_filter_partition
             (λ year (p : nat * Timestamp), in_year_slice year year p.2)
             (λ p, ts_year p.2) (enumerate ts) years); [|apply NoDup_seqZ|].
  - unfold window_steps. rewrite (list_filter_iff _
        (λ p : nat * Timestamp, start_year ≤ ts_year p.2 ≤ end_year)); [done|].
    intros p. unfold years. rewrite elem_of_seqZ. lia.
  - intros [i t] y Hin. simpl. apply elem_of_enumerate in Hin. simpl in Hin.
    assert (Hv : valid_timestamp t).
    { eapply Forall_forall in Hvalid; [done|]. by eapply list_elem_of_lookup_2. }
    rewrite (in_year_slice_iff y y t Hv). lia.
Qed.

Lemma X17_witness :
  ∃ df, compute_spatial_anomalies_recent ds_two_years ["t2m"] 1991 1992 = Ok df
    ∧ df_rows df
      ≡ₚ spatial_row ds_two_years ["t2m"]
         <$> window_grid 1991 1992 two_years [10%Q; 20%Q] [170%Q; 190%Q].
Proof.
  apply (X17_spatial_rows_are_the_window
           ds_two_years ["t2m"] 1991 1992 two_years [10%Q; 20%Q] [170%Q; 190%Q]).
  - reflexivity.
  - reflexivity.
  - exact two_years_chronological.
  - reflexivity.
  - reflexivity.
  - done.
  - apply NoDup_singleton.
  - intros c Hc. apply list_elem_of_singleton in Hc as ->. simpl. left.
  - intros c Hc Hin. apply list_elem_of_singleton in Hc as ->.
    apply list_elem_of_In in Hin. simpl in Hin. intuition discriminate.
  - apply two_years_valid.
  - lia.
Defined.

(** *** Windows and requests that give no table *)

(** X18.  A window whose last year precedes its first year holds no year:
    the loop appends no frame, and joining no frames raises ValueError,
    whatever the dataset and the request. *)
Theorem X18_spatial_empty_window_raises
    (ds : Dataset) (columns : list string) (start_year end_year : Z) :
  end_year < start_year →
  compute_spatial_anomalies_recent ds columns start_year end_year = Raise ValueError.
Proof.
  intros Hlt. unfold compute_spatial_anomalies_recent.
  rewrite seqZ_nil by lia. reflexivity.
Qed.

Lemma X18_witness :
  compute_spatial_anomalies_recent ds_two_years ["t2m"] 1992 1991 = Raise ValueError.
Proof.
  apply (X18_spatial_empty_window_raises ds_two_years ["t2m"] 1992 1991). lia.
Defined.

(** X19.  With a window that holds at least one year, a request for
    variables of the dataset and for at least one name that the dataset
    cannot resolve (neither a data variable nor a coordinate nor a
    dimension, and without a dot) makes the spatial windower raise KeyError
    in the first turn of its loop. *)
Theorem X19_spatial_window_of_missing_variable
    (ds : Dataset) (columns : list string) (start_year end_year : Z)
    (ts : list Timestamp) (missing : string) :
  tdim ds = "time" →
  assoc "time" (coords ds) = Some (TimeIndex ts) →
  start_year ≤ end_year →
  (∀ c, c ∈ columns → c ∈ keys (data_vars ds) ∨ unknown_name ds c) →
  missing ∈ columns →
  unknown_name ds missing →
  compute_spatial_anomalies_recent ds columns start_year end_year = Raise KeyError.
Proof.
  intros Htdim Htime Hle _ Hin [Hmiss _].
  assert (Hframe : year_frame ds columns start_year = Raise KeyError).
  { unfold year_frame, ds_sel_years. rewrite (time_index_Ok _ _ ts) by done.
    rewrite !bind_Ok. unfold ds_subset. cbn [data_vars coords tdim].
    set (pos := positions_where (in_year_slice start_year start_year) ts).
    rewrite (mapM_Raise _ KeyError columns); [done| |].
    - intros c _. rewrite assoc_fmap.
      destruct (assoc c (data_vars ds)) as [v|]; simpl; eauto.
    - exists missing. split; [done|]. rewrite assoc_fmap.
      destruct (assoc missing (data_vars ds)) as [v|] eqn:Hv; [|done].
      by apply assoc_Some_keys in Hv. }
  unfold compute_spatial_anomalies_recent. rewrite seqZ_cons by lia.
  simpl. by rewrite Hframe.
Qed.

Lemma X19_witness :
  compute_spatial_anomalies_recent ds_two_years ["t2m"; "t2m_anomaly_c"] 1991 1992
  = Raise KeyError.
Proof.
  apply (X19_spatial_window_of_missing_variable
           ds_two_years ["t2m"; "t2m_anomaly_c"] 1991 1992 two_years "t2m_anomaly_c").
  - reflexivity.
  - reflexivity.
  - lia.
  - intros c Hc. apply list_elem_of_In in Hc. simpl in Hc.
    destruct Hc as [<-|[<-|[]]]; [left; left | right; exact anomaly_unknown_in_two_years].
  - right. left.
  - exact anomaly_unknown_in_two_years.
Defined.

(** ** The pipeline *)

(** What the download stage does to the world. *)
Lemma download_monthly_variable_effects
    (output_dir : string) (start_year end_year : Z)
    (dataset_name variable file_suffix product_type : string)
    (w w1 : World) (p : Path) :
  download_monthly_variable output_dir start_year end_year
    dataset_name variable file_suffix product_type w = Ok (p, w1) →
  fetched w1 = fetched w
  ∧ dirs w1 = dirs w
  ∧ (retrieved w1 = retrieved w
     ∨ retrieved w1
       = retrieved w
         ++ [{| rq_dataset := dataset_name;
                rq_product_type := product_type;
                rq_variable := variable;
                rq_year := pretty <$> seqZ start_year (end_year + 1 - start_year);
                rq_month := ["01"; "02"; "03"; "04"; "05"; "06";
                             "07"; "08"; "09"; "10"; "11"; "12"];
                rq_time := "00:00";
                rq_format := "netcdf" |}])
  ∧ (∀ k, k ≠ path_name (monthly_out_file output_dir file_suffix start_year end_year) →
          k ≠ path_name (monthly_extracted_file output_dir file_suffix start_year end_year) →
          files w1 !! k = files w !! k).
Proof.
  pose proof (extracted_path_of_monthly output_dir file_suffix start_year end_year) as Hcomp.
  assert (Hex : ∀ w0 w0' p0,
            extract_netcdf_from_zip
              (monthly_out_file output_dir file_suffix start_year end_year) w0
            = Ok (p0, w0') →
            fetched w0' = fetched w0 ∧ dirs w0' = dirs w0
            ∧ retrieved w0' = retrieved w0
            ∧ ∀ k, k ≠ path_name
                         (monthly_extracted_file output_dir file_suffix start_year end_year) →
                   files w0' !! k = files w0 !! k).
  { intros w0 w0' p0 H.
    destruct (extract_netcdf_from_zip_Ok_inv _ _ _ _ H) as (f & Hf & Hcase).
    destruct Hcase as [(pl & Hc & -> & ->)
                      | (entries & n & payload & rest & Hc & Hflt & -> & Hw)]; [done|].
    rewrite Hcomp in Hw. destruct Hw as [[_ ->] | [_ ->]]; [done|].
    repeat split; try done. intros k Hk. by apply write_file_other. }
  unfold download_monthly_variable.
  destruct (path_exists (monthly_extracted_file _ _ _ _) w).
  { intros [= <- <-]. repeat split; try done. by left. }
  destruct (path_exists (monthly_out_file _ _ _ _) w).
  { intros H. apply Hex in H as (? & ? & ? & Hfiles).
    repeat split; try done; [by left|]. intros k _ Hk. by apply Hfiles. }
  destruct (retrieve _ _ w) as [w0|] eqn:Hr; [|done]. rewrite bind_Ok. intros H.
  apply retrieve_Ok_inv in Hr as (payload & _ & Hfiles0 & Hdirs0 & _ & Hret0 & Hfet0).
  apply Hex in H as (Hfet & Hdirs & Hret & Hfiles).
  split; [congruence|]. split; [congruence|]. split; [right; congruence|].
  intros k Hk1 Hk2. rewrite Hfiles by done. by rewrite Hfiles0, lookup_insert_ne.
Qed.

(** X20.  What a run of the pipeline that reaches its end has done to the
    world.  The web server has not been contacted (the country shapes are
    not part of the pipeline); at most one request has been sent to the data
    store, for the years 1991 through 2025 of the monthly means of the
    temperature at two metres; the directories "raw" and "processed" exist;
    the two tables exist; and no file has changed but the monthly file, its
    companion and the two tables. *)
Theorem X20_pipeline_effects (w w' : World) :
  main w = Ok w' →
  fetched w' = fetched w
  ∧ (retrieved w' = retrieved w
     ∨ ∃ rq, retrieved w' = retrieved w ++ [rq]
         ∧ rq_dataset rq = "reanalysis-era5-land-monthly-means"
         ∧ rq_variable rq = "2m_temperature"
         ∧ rq_year rq = pretty <$> seqZ 1991 35)
  ∧ "raw" ∈ dirs w' ∧ "processed" ∈ dirs w' ∧ dirs w ⊆ dirs w'
  ∧ is_Some (files w' !! "processed/global_monthly_stats_1991_2025.parquet")
  ∧ is_Some (files w' !! "processed/spatial_anomalies_2024_2024.parquet")
  ∧ ∀ k, k ∉ ["raw/era5_tmean_1991_2025_monthly.nc";
              "raw/era5_tmean_1991_2025_monthly_extracted.nc";
              "processed/global_monthly_stats_1991_2025.parquet";
              "processed/spatial_anomalies_2024_2024.parquet"] →
         files w' !! k = files w !! k.
Proof.
  unfold main. intros Hmain.
  destruct (download_monthly_variable _ _ _ _ _ _ _ _) as [[tmean_nc w1]|] eqn:Hd;
    [|discriminate]. rewrite bind_Ok in Hmain.
  destruct (load_and_clean tmean_nc w1) as [raw|]; [|discriminate].
  rewrite bind_Ok in Hmain.
  destruct (monthly_anomaly_from_monthly raw 1991 2020) as [ds|]; [|discriminate].
  rewrite bind_Ok in Hmain.
  destruct (compute_global_monthly_stats ds _) as [df_global|]; [|discriminate].
  rewrite bind_Ok in Hmain.
  destruct (compute_spatial_anomalies_recent ds _ 2024 2024) as [df_spatial|];
    [|discriminate].
  rewrite bind_Ok in Hmain. injection Hmain as <-.
  apply download_monthly_variable_effects in Hd as (Hfet & Hdirs & Hret & Hfiles).
  cbn [mkdir fetched dirs retrieved files] in Hfet, Hdirs, Hret, Hfiles.
  unfold save_parquet_pandas. cbn [write_file mkdir fetched dirs retrieved files parent].
  split; [done|]. split.
  { destruct Hret as [Hret|Hret]; [by left|]. right. eexists. split; [exact Hret|]. done. }
  rewrite Hdirs. clear Hret.
  split; [rewrite !elem_of_union, !elem_of_singleton; naive_solver|].
  split; [rewrite !elem_of_union, !elem_of_singleton; naive_solver|].
  split; [intros x Hx; rewrite !elem_of_union; tauto|].
  change (path_name {| parent := "processed";
                       stem := "global_monthly_stats_" +:+ pretty 1991 +:+ "_" +:+ pretty 2025;
                       suffix := ".parquet" |})
    with "processed/global_monthly_stats_1991_2025.parquet".
  change (path_name {| parent := "processed";
                       stem := "spatial_anomalies_" +:+ pretty 2024 +:+ "_" +:+ pretty 2024;
                       suffix := ".parquet" |})
    with "processed/spatial_anomalies_2024_2024.parquet".
  split.
  { rewrite lookup_insert_ne by done. rewrite lookup_insert_eq. by eexists. }
  split.
  { rewrite lookup_insert_eq. by eexists. }
  intros k Hk.
  rewrite lookup_insert_ne; last first.
  { intros <-. apply Hk. apply list_elem_of_In. simpl. tauto. }
  rewrite lookup_insert_ne; last first.
  { intros <-. apply Hk. apply list_elem_of_In. simpl. tauto. }
  apply Hfiles.
  - intros ->. apply Hk. apply list_elem_of_In. simpl. tauto.
  - intros ->. apply Hk. apply list_elem_of_In. simpl. tauto.
Qed.

Lemma X20_witness :
  fetched world_after_pipeline = fetched world_with_raw_file
  ∧ (retrieved world_after_pipeline = retrieved world_with_raw_file
     ∨ ∃ rq, retrieved world_after_pipeline = retrieved world_with_raw_file ++ [rq]
         ∧ rq_dataset rq = "reanalysis-era5-land-monthly-means"
         ∧ rq_variable rq = "2m_temperature"
         ∧ rq_year rq = pretty <$> seqZ 1991 35)
  ∧ "raw" ∈ dirs world_after_pipeline ∧ "processed" ∈ dirs world_after_pipeline
  ∧ dirs world_with_raw_file ⊆ dirs world_after_pipeline
  ∧ is_Some (files world_after_pipeline
               !! "processed/global_monthly_stats_1991_2025.parquet")
  ∧ is_Some (files world_after_pipeline
               !! "processed/spatial_anomalies_2024_2024.parquet")
  ∧ ∀ k, k ∉ ["raw/era5_tmean_1991_2025_monthly.nc";
              "raw/era5_tmean_1991_2025_monthly_extracted.nc";
              "processed/global_monthly_stats_1991_2025.parquet";
              "processed/spatial_anomalies_2024_2024.parquet"] →
         files world_after_pipeline !! k = files world_with_raw_file !! k.
Proof.
  apply (X20_pipeline_effects world_with_raw_file world_after_pipeline).
  vm_compute. reflexivity.
Defined.

Lemma filter_ext_Forall {A} (P Q : A → Prop)
    `{!∀ x, Decision (P x)} `{!∀ x, Decision (Q x)} (l : list A) :
  Forall (λ x, P x ↔ Q x) l → filter P l = filter Q l.
Proof.
  induction 1 as [|x l Hx Hl IH]; [done|]. rewrite !filter_cons, IH.
  destruct (decide (P x)) as [Hp|Hp].
  - by rewrite decide_True by (by apply Hx).
  - by rewrite decide_False by (by rewrite <- Hx).
Qed.

(** X21.  The pipeline from end to end, on a monthly file that has been
    downloaded before (a NetCDF file over "valid_time", "latitude" and
    "longitude" without any other coordinate, with valid time steps in
    chronological order, one of them between 1991 and 2020):
    the run succeeds without any request; it writes the table of the global
    statistics, with the columns year, month and the mean, median, minimum
    and maximum of "t2m_mean_c" and of "t2m_anomaly_c" and one row per time
    step of the file; and the table of the spatial anomalies, with the
    columns latitude, longitude, year, month, "t2m_mean_c", "t2m_anomaly_c"
    and one row per cell and time step of the year 2024. *)
Theorem X21_pipeline_on_a_downloaded_file
    (w : World) (f : File) (ds : Dataset)
    (name : string) (v : DataVar) (others : list (string * DataVar))
    (ts : list Timestamp) (lats lons : list Q) :
  path_exists (monthly_extracted_file "raw" "tmean" 1991 2025) w = false →
  files w !! path_name (monthly_out_file "raw" "tmean" 1991 2025) = Some f →
  f_content f = Plain (NetCDF ds) →
  tdim ds = "valid_time" →
  assoc "valid_time" (coords ds) = Some (TimeIndex ts) →
  "time" ∉ keys (coords ds) →
  "time" ∉ keys (data_vars ds) →
  "valid_time" ∉ keys (data_vars ds) →
  assoc "latitude" (coords ds) = Some (FloatIndex lats) →
  assoc "longitude" (coords ds) = Some (FloatIndex lons) →
  (∀ c, c ∈ keys (coords ds) → c ∈ ["valid_time"; "latitude"; "longitude"]) →
  data_vars ds = (name, v) :: others →
  Forall valid_timestamp ts →
  chronological ts →
  (∃ t, t ∈ ts ∧ 1991 ≤ ts_year t ≤ 2020) →
  ∃ w' global_rows spatial_rows,
    main w = Ok w'
    ∧ retrieved w' = retrieved w
    ∧ fetched w' = fetched w
    ∧ f_content <$> files w' !! "processed/global_monthly_stats_1991_2025.parquet"
      = Some (Plain (Parquet
                ["year"; "month";
                 "t2m_mean_c_mean"; "t2m_mean_c_median"; "t2m_mean_c_min"; "t2m_mean_c_max";
                 "t2m_anomaly_c_mean"; "t2m_anomaly_c_median"; "t2m_anomaly_c_min";
                 "t2m_anomaly_c_max"]
                global_rows))
    ∧ length global_rows = length ts
    ∧ f_content <$> files w' !! "processed/spatial_anomalies_2024_2024.parquet"
      = Some (Plain (Parquet
                ["latitude"; "longitude"; "year"; "month"; "t2m_mean_c"; "t2m_anomaly_c"]
                spatial_rows))
    ∧ length spatial_rows
      = (length lats * length lons * length (filter (λ t, (ts_year t = 2024)%Z) ts))%nat.
Proof.
  intros He Hf Hc Htdim Hvt Htc Htv Hvv Hlat Hlon _ Hvars Hvalid _ (t0 & Hin0 & Hy0).
  set (w0 := mkdir "processed" (mkdir "raw" w)).
  (* the download stage finds the file *)
  assert (Hd : download_monthly_variable "raw" 1991 2025
                 "reanalysis-era5-land-monthly-means" "2m_temperature" "tmean"
                 "monthly_averaged_reanalysis" w0
               = Ok (monthly_out_file "raw" "tmean" 1991 2025, w0)).
  { unfold download_monthly_variable.
    assert (He0 : path_exists (monthly_extracted_file "raw" "tmean" 1991 2025) w0 = false)
      by exact He.
    assert (Ho0 : path_exists (monthly_out_file "raw" "tmean" 1991 2025) w0 = true).
    { apply path_exists_true. change (files w0) with (files w). by rewrite Hf. }
    rewrite He0, Ho0. unfold extract_netcdf_from_zip.
    change (files w0) with (files w). by rewrite Hf, Hc. }
  (* the normalizer *)
  destruct (load_and_clean_valid_time (monthly_out_file "raw" "tmean" 1991 2025)
              w0 f ds ts lons)
    as (clean & Hclean & Hct & Hctime & _ & Hclon & Hcother & Hcvars); [done..|].
  set (lons' := (λ p, wrap_longitude (lons !!! p)) <$> argsort (wrap_longitude <$> lons))
    in *.
  assert (Hlons' : length lons' = length lons).
  { unfold lons'. by rewrite length_fmap, argsort_perm, length_seq, length_fmap. }
  assert (Hclat : assoc "latitude" (coords clean) = Some (FloatIndex lats)).
  { rewrite Hcother; [done|]. intros Hin. apply list_elem_of_In in Hin. simpl in Hin.
    intuition discriminate. }
  rewrite Hvars, fmap_cons in Hcvars. cbn [prod_map fst snd id] in Hcvars.
  (* the climatology engine *)
  assert (Hbase : filter (in_year_slice 1991 2020) ts ≠ []).
  { intros Hnil. assert (Hf0 : t0 ∈ filter (in_year_slice 1991 2020) ts).
    { apply list_elem_of_filter. split; [|done].
      apply in_year_slice_iff; [|done]. by eapply Forall_forall in Hvalid. }
    rewrite Hnil in Hf0. by apply elem_of_nil in Hf0. }
  pose proof (monthly_anomaly_from_monthly_Ok clean 1991 2020 _ _ _ ts
                Hcvars Hct Hctime Hbase) as Hengine.
  set (out := {| coords := filter (λ p : string * Coord,
                                     p.1 ∈ ["time"; "latitude"; "longitude"])
                             (coords clean);
                 tdim := "time";
                 data_vars := _ |}) in Hengine.
  assert (Hotime : assoc "time" (coords out) = Some (TimeIndex ts)).
  { unfold out. cbn [coords]. rewrite assoc_filter; [done|]. left. }
  assert (Holat : assoc "latitude" (coords out) = Some (FloatIndex lats)).
  { unfold out. cbn [coords]. rewrite assoc_filter; [done|]. right. left. }
  assert (Holon : assoc "longitude" (coords out) = Some (FloatIndex lons')).
  { unfold out. cbn [coords]. rewrite assoc_filter; [done|]. right. right. left. }
  assert (Hnd : NoDup ["t2m_mean_c"; "t2m_anomaly_c"]).
  { apply NoDup_cons. split; [|apply NoDup_singleton].
    intros Hin. by apply list_elem_of_singleton in Hin. }
  assert (Hcols : ∀ c, c ∈ ["t2m_mean_c"; "t2m_anomaly_c"] → c ∈ keys (data_vars out)).
  { intros c Hcin. exact Hcin. }
  (* the two tables *)
  destruct (compute_global_monthly_stats_rows out ["t2m_mean_c"; "t2m_anomaly_c"] ts)
    as (sl & _ & Hglobal); [done | done | by eexists | by eexists | done | done | done |].
  assert (Hres : ∀ c, c ∈ ["t2m_mean_c"; "t2m_anomaly_c"] →
                      c ∉ ["time"; "latitude"; "longitude"; "year"; "month"]).
  { intros c Hcin Hin. apply list_elem_of_In in Hcin, Hin. simpl in Hcin, Hin.
    intuition (subst; discriminate). }
  pose proof (compute_spatial_anomalies_recent_Ok out ["t2m_mean_c"; "t2m_anomaly_c"]
                2024 2024 ts lats lons' eq_refl Hotime Holat Holon ltac:(done)
                Hnd Hcols Hres Hvalid ltac:(lia)) as Hspatial.
  destruct (year_frame_facts out ["t2m_mean_c"; "t2m_anomaly_c"] 2024 ts lats lons')
    as (dfy & Hdfy & _ & _ & Hleny & _); [done..|].
  eexists _, _, _. split.
  { unfold main. cbv zeta. fold w0. rewrite Hd, bind_Ok. cbv beta iota.
    rewrite Hclean, bind_Ok, Hengine, bind_Ok, Hglobal, bind_Ok, Hspatial, bind_Ok.
    reflexivity. }
  unfold save_parquet_pandas.
  cbn [write_file mkdir fetched retrieved files parent df_columns df_rows].
  change (path_name {| parent := "processed";
                       stem := "global_monthly_stats_" +:+ pretty 1991 +:+ "_" +:+ pretty 2025;
                       suffix := ".parquet" |})
    with "processed/global_monthly_stats_1991_2025.parquet".
  change (path_name {| parent := "processed";
                       stem := "spatial_anomalies_" +:+ pretty 2024 +:+ "_" +:+ pretty 2024;
                       suffix := ".parquet" |})
    with "processed/spatial_anomalies_2024_2024.parquet".
  split; [reflexivity|]. split; [reflexivity|]. split.
  { rewrite lookup_insert_ne by done. rewrite lookup_insert_eq. reflexivity. }
  split; [by rewrite length_fmap, enumerate_length|]. split.
  { rewrite lookup_insert_eq. reflexivity. }
  rewrite stable_sort_length. change (2024 + 1 - 2024) with 1.
  change (seqZ 2024 1) with [2024]. rewrite fmap_cons, fmap_nil. simpl concat.
  rewrite app_nil_r. unfold year_rows. rewrite Hdfy, Hleny, Hlons'.
  rewrite (filter_ext_Forall (in_year_slice 2024 2024) (λ t, ts_year t = 2024) ts).
  - lia.
  - eapply Forall_impl; [exact Hvalid|]. intros t Ht.
    rewrite (in_year_slice_iff 2024 2024 t Ht). lia.
Qed.

Lemma X21_witness :
  ∃ w' global_rows spatial_rows,
    main world_with_raw_file = Ok w'
    ∧ retrieved w' = retrieved world_with_raw_file
    ∧ fetched w' = fetched world_with_raw_file
    ∧ f_content <$> files w' !! "processed/global_monthly_stats_1991_2025.parquet"
      = Some (Plain (Parquet
                ["year"; "month";
                 "t2m_mean_c_mean"; "t2m_mean_c_median"; "t2m_mean_c_min"; "t2m_mean_c_max";
                 "t2m_anomaly_c_mean"; "t2m_anomaly_c_median"; "t2m_anomaly_c_min";
                 "t2m_anomaly_c_max"]
                global_rows))
    ∧ length global_rows = length two_years
    ∧ f_content <$> files w' !! "processed/spatial_anomalies_2024_2024.parquet"
      = Some (Plain (Parquet
                ["latitude"; "longitude"; "year"; "month"; "t2m_mean_c"; "t2m_anomaly_c"]
                spatial_rows))
    ∧ length spatial_rows
      = (length [10%Q; 20%Q] * length [170%Q; 190%Q]
         * length (filter (λ t, (ts_year t = 2024)%Z) two_years))%nat.
Proof.
  apply (X21_pipeline_on_a_downloaded_file world_with_raw_file
           {| f_content := Plain (NetCDF ds_valid_time); f_mtime := 0 |}
           ds_valid_time "t2m" t2m_two_years [] two_years
           [10%Q; 20%Q] [170%Q; 190%Q]).
  - reflexivity.
  - reflexivity.
  - reflexivity.
  - reflexivity.
  - reflexivity.
  - intros Hin. apply list_elem_of_In in Hin. simpl in Hin. intuition discriminate.
  - intros Hin. apply list_elem_of_In in Hin. simpl in Hin. intuition discriminate.
  - intros Hin. apply list_elem_of_In in Hin. simpl in Hin. intuition discriminate.
  - reflexivity.
  - reflexivity.
  - intros c Hin. exact Hin.
  - reflexivity.
  - apply two_years_valid.
  - exact two_years_chronological.
  - exists (month_start 1991 1). split.
    + apply (list_elem_of_lookup_2 _ 0%nat). reflexivity.
    + simpl. lia.
Defined.

(** ** The worked example of the specification *)

(** The 2 x 2 grid with longitudes 170 and 190, 280 K in 1991 and 290 K in
    1992, baseline 1991-1991: longitude 190 becomes -170 and moves in front
    of 170; the values become 6.85 and 16.85 degrees Celsius; the anomaly of
    January 1991 is 0 and that of January 1992 is 10; and the global mean
    anomaly of January 1992 is 10. *)
Example spec_example_2x2 :
  match (ds ← standardize_time ds_two_years; ds ← correct_longitude ds;
         Ok (kelvin_to_celsius ds)) with
  | Ok clean =>
      match assoc "longitude" (coords clean),
            monthly_anomaly_from_monthly clean 1991 1991 with
      | Some (FloatIndex [a; b]), Ok out =>
          match data_vars out, compute_global_monthly_stats out ["t2m_anomaly_c"] with
          | [(_, mean); (_, anom)], Ok df =>
              Qeq_bool a (-170) && Qeq_bool b 170
              && value_is 6.85 (dv_values mean 0 0 0)%nat
              && value_is 16.85 (dv_values mean 12 0 0)%nat
              && value_is 0 (dv_values anom 0 1 1)%nat
              && value_is 10 (dv_values anom 12 1 1)%nat
              && match df_rows df !! 12%nat with
                 | Some [CInt int16 1992; CInt int8 1; CFloat float32 m; _; _; _] =>
                     value_is 10 m
                 | _ => false
                 end
          | _, _ => false
          end
      | _, _ => false
      end
  | Raise _ => false
  end = true.
Proof. vm_compute. reflexivity. Qed.
